(** * baraj_takip: extraction and normalisation core of [main.py]

    A shallow embedding of the scraping core of the reservoir tracker:
    [parse_percentage], [_sum_row], the fill-level part of [scrape_levels]
    and the forecast extractor [_parse_accu_15day], together with the
    Python built-ins they call ([str.replace], [str.strip], [float], [int],
    [round], the two regular expressions, float arithmetic).

    Python [str] values are sequences of Unicode code points, Python floats
    are IEEE-754 binary64 numbers ([spec_float] at precision 53), Python
    exceptions are an explicit error monad. *)

From Stdlib Require Import ZArith NArith QArith Qabs List Bool Lia String Ascii SpecFloat.
From stdpp Require Import base option list gmap.

Local Open Scope N_scope.

(** ** Python built-ins *)

Module Py.

(** *** Text: [str] is a sequence of code points *)

Abbreviation char := N (only parsing).
Abbreviation str := (list N) (only parsing).

(** Decoder for the UTF-8 bytes of a literal written in this file. *)
Fixpoint utf8_decode (bs : list N) : str :=
  match bs with
  | [] => []
  | b0 :: r0 =>
    if b0 <? 128 then b0 :: utf8_decode r0
    else match r0 with
    | [] => [b0]
    | b1 :: r1 =>
      if b0 <? 224 then ((b0 - 192) * 64 + (b1 - 128)) :: utf8_decode r1
      else match r1 with
      | [] => [b0; b1]
      | b2 :: r2 =>
        if b0 <? 240
        then ((b0 - 224) * 4096 + (b1 - 128) * 64 + (b2 - 128)) :: utf8_decode r2
        else match r2 with
        | [] => [b0; b1; b2]
        | b3 :: r3 =>
          ((b0 - 240) * 262144 + (b1 - 128) * 4096 + (b2 - 128) * 64 + (b3 - 128))
            :: utf8_decode r3
        end
      end
    end
  end.

Definition lit (s : string) : str :=
  utf8_decode (map N_of_ascii (list_ascii_of_string s)).

Definition str_eqb (a b : str) : bool := bool_decide (a = b).

(** [Py_UNICODE_ISSPACE]: the characters [str.strip()] removes. *)
Definition isspace (c : char) : bool :=
  ((9 <=? c) && (c <=? 13)) || ((28 <=? c) && (c <=? 32))
  || (c =? 133) || (c =? 160) || (c =? 5760)
  || ((8192 <=? c) && (c <=? 8202))
  || (c =? 8232) || (c =? 8233) || (c =? 8239) || (c =? 8287) || (c =? 12288).

(** [Py_ISSPACE]: ASCII white space of the C locale. *)
Definition is_c_space (c : char) : bool :=
  (c =? 32) || ((9 <=? c) && (c <=? 13)).

(** First code point of every run of ten decimal digits (general category
    Nd, Unicode 15): each run holds the digits 0 to 9 in order. *)
Definition decimal_runs : list N :=
  [ 0x0030; 0x0660; 0x06F0; 0x07C0; 0x0966; 0x09E6; 0x0A66; 0x0AE6; 0x0B66;
    0x0BE6; 0x0C66; 0x0CE6; 0x0D66; 0x0DE6; 0x0E50; 0x0ED0; 0x0F20; 0x1040;
    0x1090; 0x17E0; 0x1810; 0x1946; 0x19D0; 0x1A80; 0x1A90; 0x1B50; 0x1BB0;
    0x1C40; 0x1C50; 0xA620; 0xA8D0; 0xA900; 0xA9D0; 0xA9F0; 0xAA50; 0xABF0;
    0xFF10; 0x104A0; 0x10D30; 0x11066; 0x110F0; 0x11136; 0x111D0; 0x112F0;
    0x11450; 0x114D0; 0x11650; 0x116C0; 0x11730; 0x118E0; 0x11950; 0x11C50;
    0x11D50; 0x11DA0; 0x11F50; 0x16A60; 0x16AC0; 0x16B50; 0x1D7CE; 0x1D7D8;
    0x1D7E2; 0x1D7EC; 0x1D7F6; 0x1E140; 0x1E2F0; 0x1E4F0; 0x1E950; 0x1FBF0 ].

Fixpoint decimal_in (runs : list N) (c : char) : option Z :=
  match runs with
  | [] => None
  | z :: runs' =>
    if (z <=? c) && (c <=? z + 9) then Some (Z.of_N (c - z))
    else decimal_in runs' c
  end.

(** [Py_UNICODE_TODECIMAL]: the digit value of a decimal character.  The
    class [\d] of [re] and the digits accepted by [int] and [float] are
    exactly the characters for which it is defined. *)
Definition to_decimal (c : char) : option Z := decimal_in decimal_runs c.

Definition isdecimal (c : char) : bool :=
  match to_decimal c with Some _ => true | None => false end.

Definition is_ascii_digit (c : char) : bool := (48 <=? c) && (c <=? 57).

Fixpoint starts_with (p s : str) : bool :=
  match p, s with
  | [], _ => true
  | _ :: _, [] => false
  | a :: p', b :: s' => (a =? b) && starts_with p' s'
  end.

(** [s.replace(old, new)] for a non-empty [old]: [skip] counts the
    characters of an occurrence already replaced. *)
Fixpoint replace_from (old new s : str) (skip : nat) : str :=
  match s with
  | [] => []
  | c :: s' =>
    match skip with
    | S k => replace_from old new s' k
    | O =>
      if starts_with old s
      then new ++ replace_from old new s' (length old - 1)%nat
      else c :: replace_from old new s' O
    end
  end.

Definition replace (old new s : str) : str :=
  match old with
  | [] => new ++ flat_map (fun c => c :: new) s
  | _ :: _ => replace_from old new s O
  end.

Fixpoint lstrip_by (sp : char -> bool) (s : str) : str :=
  match s with
  | [] => []
  | c :: s' => if sp c then lstrip_by sp s' else s
  end.

Definition strip_by (sp : char -> bool) (s : str) : str :=
  rev (lstrip_by sp (rev (lstrip_by sp s))).

(** [s.strip()] *)
Definition strip (s : str) : str := strip_by isspace s.

(** [s[:n]] for a non-negative [n] *)
Definition slice_to {A} (n : nat) (l : list A) : list A := firstn n l.

(** *** Exceptions *)

Inductive exn :=
  | AttributeError
  | ValueError
  | ZeroDivisionError
  | OverflowError
  | IndexError
  | WebDriverException.

Inductive result (A : Type) :=
  | Ok (a : A)
  | Raise (e : exn).
Arguments Ok {A} a.
Arguments Raise {A} e.

Definition bind {A B} (r : result A) (k : A -> result B) : result B :=
  match r with
  | Ok a => k a
  | Raise e => Raise e
  end.

#[global] Instance result_bind : MBind result := fun A B k r => bind r k.
#[global] Instance result_ret : MRet result := fun A a => Ok a.

Definition exn_eqb (a b : exn) : bool :=
  match a, b with
  | AttributeError, AttributeError
  | ValueError, ValueError
  | ZeroDivisionError, ZeroDivisionError
  | OverflowError, OverflowError
  | IndexError, IndexError
  | WebDriverException, WebDriverException => true
  | _, _ => false
  end.

(** [try: body  except (classes): handler] *)
Definition try_except {A} (body : result A) (classes : list exn) (handler : result A)
  : result A :=
  match body with
  | Ok a => Ok a
  | Raise e => if existsb (exn_eqb e) classes then handler else Raise e
  end.

(** [try: body  finally: cleanup] *)
Definition try_finally {A} (body : result A) (cleanup : result unit) : result A :=
  match cleanup with
  | Ok _ => body
  | Raise e => Raise e
  end.

(** [for x in xs: ...] with a body that may raise, collecting one value per
    iteration. *)
Fixpoint for_each {A B} (f : A -> result B) (xs : list A) : result (list B) :=
  match xs with
  | [] => Ok []
  | x :: xs' => bind (f x) (fun y => bind (for_each f xs') (fun ys => Ok (y :: ys)))
  end.

(** [enumerate(xs)] counting from [i] *)
Fixpoint enumerate_from {A} (i : Z) (xs : list A) : list (Z * A) :=
  match xs with
  | [] => []
  | x :: xs' => (i, x) :: enumerate_from (i + 1) xs'
  end.

Definition enumerate {A} (xs : list A) : list (Z * A) := enumerate_from 0 xs.

(** *** Floats: IEEE-754 binary64 *)

Definition float := spec_float.
Definition prec : Z := 53.
Definition emax : Z := 1024.

Definition fadd : float -> float -> float := SFadd prec emax.
Definition fmul : float -> float -> float := SFmul prec emax.

(** The float of an [int] that is converted exactly, as [100] is. *)
Definition float_of_Z (z : Z) : float := binary_normalize prec emax z 0 false.

Definition zero : float := S754_zero false.

(** Truth value of a float: false for [0.0] and [-0.0] only. *)
Definition truthy (x : float) : bool :=
  match x with
  | S754_zero _ => false
  | _ => true
  end.

(** [x / y] *)
Definition truediv (x y : float) : result float :=
  if truthy y then Ok (SFdiv prec emax x y) else Raise ZeroDivisionError.

(** The binary64 number nearest to [(-1)^neg * m * 10^e10], ties to even:
    the value [strtod] gives a decimal numeral. *)
Definition float_of_decimal (neg : bool) (m : Z) (e10 : Z) : float :=
  match m with
  | Zpos p =>
    if (0 <=? e10)%Z
    then binary_round prec emax neg (p * Z.to_pos (10 ^ e10)) 0
    else SFdiv prec emax (S754_finite neg p 0)
                         (S754_finite false (Z.to_pos (10 ^ (- e10))) 0)
  | _ => S754_zero neg
  end.

(** Exact value of a finite float. *)
Definition to_Q (x : float) : Q :=
  match x with
  | S754_finite s m e =>
    let v := if (0 <=? e)%Z then inject_Z (Zpos m * 2 ^ e) else Zpos m # Z.to_pos (2 ^ (- e)) in
    if s then Qopp v else v
  | _ => 0%Q
  end.

(** *** Numerals: [float(s)] and [int(s)] *)

(** [_PyUnicode_TransformDecimalAndSpaceToASCII] *)
Fixpoint transform_non_ascii (s : str) : str :=
  match s with
  | [] => []
  | c :: s' =>
    if c <? 127 then c :: transform_non_ascii s'
    else if isspace c then 32 :: transform_non_ascii s'
    else match to_decimal c with
         | Some d => (48 + Z.to_N d) :: transform_non_ascii s'
         | None => [63]
         end
  end.

Definition transform_decimal_and_space (s : str) : str :=
  if forallb (fun c => c <? 128) s then s else transform_non_ascii s.

Fixpoint span_digits (s : str) : list Z * str :=
  match s with
  | [] => ([], [])
  | c :: s' =>
    if is_ascii_digit c
    then let '(ds, r) := span_digits s' in (Z.of_N (c - 48) :: ds, r)
    else ([], s)
  end.

Definition digits_value (ds : list Z) : Z :=
  fold_left (fun acc d => (10 * acc + d)%Z) ds 0%Z.

Definition take_sign (s : str) : bool * str :=
  match s with
  | c :: r => if c =? 45 then (true, r) else if c =? 43 then (false, r) else (false, s)
  | [] => (false, s)
  end.

(** The fraction after a decimal point, if there is one. *)
Definition take_fraction (s : str) : list Z * str :=
  match s with
  | c :: r => if c =? 46 then span_digits r else ([], s)
  | [] => ([], s)
  end.

(** The exponent part [e[+-]digits] of a numeral; when it is malformed the
    numeral ends before the [e]. *)
Definition take_exponent (s : str) : Z * str :=
  match s with
  | c :: r =>
    if (c =? 101) || (c =? 69) then
      let '(eneg, r1) := take_sign r in
      let '(eds, r2) := span_digits r1 in
      match eds with
      | [] => (0%Z, s)
      | _ :: _ => ((if eneg then - digits_value eds else digits_value eds)%Z, r2)
      end
    else (0%Z, s)
  | [] => (0%Z, s)
  end.

(** [_Py_dg_strtod]: the longest decimal numeral at the start of [s] and what
    follows it; [None] when no numeral starts there. *)
Definition strtod (s : str) : option (float * str) :=
  let '(neg, s1) := take_sign s in
  let '(ip, s2) := span_digits s1 in
  let '(fp, s3) := take_fraction s2 in
  match ip ++ fp with
  | [] => None
  | ds =>
    let '(ex, s4) := take_exponent s3 in
    Some (float_of_decimal neg (digits_value ds) (ex - Z.of_nat (length fp)), s4)
  end.

Definition lower (c : char) : char :=
  if (65 <=? c) && (c <=? 90) then c + 32 else c.

(** The rest of [s] after the lower-case word [w], matched without regard to
    case. *)
Fixpoint after_word (w s : str) : option str :=
  match w, s with
  | [], _ => Some s
  | _ :: _, [] => None
  | a :: w', b :: s' => if a =? lower b then after_word w' s' else None
  end.

(** [_Py_parse_inf_or_nan] *)
Definition parse_inf_or_nan (s : str) : option (float * str) :=
  let '(neg, s1) := take_sign s in
  match after_word (lit "inf") s1 with
  | Some r =>
    match after_word (lit "inity") r with
    | Some r' => Some (S754_infinity neg, r')
    | None => Some (S754_infinity neg, r)
    end
  | None =>
    match after_word (lit "nan") s1 with
    | Some r => Some (S754_nan, r)
    | None => None
    end
  end.

(** [float_from_string_inner]: white space of the C locale is dropped at
    both ends and the whole remainder must be one numeral. *)
Definition float_from_string_inner (s : str) : option float :=
  let s' := strip_by is_c_space s in
  match strtod s' with
  | Some (v, []) => Some v
  | Some (_, _ :: _) => None
  | None =>
    match parse_inf_or_nan s' with
    | Some (v, []) => Some v
    | _ => None
    end
  end.

(** Removal of the underscores of a numeral, each of which must stand
    between two digits ([_Py_string_to_number_with_underscores]). *)
Fixpoint drop_underscores (prev : char) (s : str) : option str :=
  match s with
  | [] => if prev =? 95 then None else Some []
  | c :: s' =>
    if c =? 95 then
      if is_ascii_digit prev then drop_underscores c s' else None
    else if (prev =? 95) && negb (is_ascii_digit c) then None
    else option_map (cons c) (drop_underscores c s')
  end.

Definition with_underscores {A} (inner : str -> option A) (s : str) : option A :=
  if existsb (N.eqb 95) s then
    match drop_underscores 0 s with
    | Some s' => inner s'
    | None => None
    end
  else inner s.

(** [float(s)] for a [str] argument *)
Definition float_of_str (s : str) : result float :=
  match with_underscores float_from_string_inner (transform_decimal_and_space s) with
  | Some v => Ok v
  | None => Raise ValueError
  end.

(** Digits and single underscores of an integer numeral. *)
Fixpoint scan_int (prev : char) (s : str) : option (list Z * str) :=
  match s with
  | [] => if prev =? 95 then None else Some ([], [])
  | c :: s' =>
    if is_ascii_digit c then
      match scan_int c s' with
      | Some (ds, r) => Some (Z.of_N (c - 48) :: ds, r)
      | None => None
      end
    else if c =? 95 then
      if prev =? 95 then None else scan_int c s'
    else if prev =? 95 then None else Some ([], s)
  end.

(** Default of [sys.get_int_max_str_digits()]. *)
Definition int_max_str_digits : nat := 4300.

(** [int(s)] for a [str] argument (base 10) *)
Definition int_of_str (s : str) : result Z :=
  let s0 := lstrip_by is_c_space (transform_decimal_and_space s) in
  let '(neg, s1) := take_sign s0 in
  if starts_with [95] s1 then Raise ValueError
  else
    match scan_int 0 s1 with
    | Some (d :: ds, r) =>
      match lstrip_by is_c_space r with
      | [] =>
        if (int_max_str_digits <? length (d :: ds))%nat then Raise ValueError
        else Ok (if neg then - digits_value (d :: ds) else digits_value (d :: ds))%Z
      | _ :: _ => Raise ValueError
      end
    | _ => Raise ValueError
    end.

(** *** [round(x, ndigits)] *)

(** Nearest integer to [n / d] for [d > 0], ties to even. *)
Definition div_half_even (n d : Z) : Z :=
  let q := (n / d)%Z in
  match (2 * (n mod d) ?= d)%Z with
  | Lt => q
  | Gt => (q + 1)%Z
  | Eq => if Z.even q then q else (q + 1)%Z
  end.

Definition NDIGITS_MAX : Z := 323.
Definition NDIGITS_MIN : Z := -308.

(** [float.__round__] with [ndigits] given: the decimal numeral of [x]
    correctly rounded to [ndigits] places ([_Py_dg_dtoa], mode 3) is read
    back by [strtod]. *)
Definition round (x : float) (ndigits : Z) : result float :=
  match x with
  | S754_finite s m e =>
    if (NDIGITS_MAX <? ndigits)%Z then Ok x
    else if (ndigits <? NDIGITS_MIN)%Z then Ok (S754_zero s)
    else
      let num := (Zpos m * 2 ^ Z.max e 0 * 10 ^ Z.max ndigits 0)%Z in
      let den := (2 ^ Z.max (- e) 0 * 10 ^ Z.max (- ndigits) 0)%Z in
      match float_of_decimal s (div_half_even num den) (- ndigits) with
      | S754_infinity _ => Raise OverflowError
      | r => Ok r
      end
  | _ => Ok x
  end.

(** *** Regular expressions *)

Inductive regex :=
  | Lit (c : char)                      (* a literal character *)
  | Digit                               (* \d *)
  | Cat (r1 r2 : regex)                 (* r1 r2 *)
  | Opt (r : regex)                     (* r? *)
  | Rep (r : regex) (lo hi : nat).      (* r{lo,hi} *)

(** Greedy repetition of [step] between [lo] and [hi] times. *)
Fixpoint rep (step : str -> list (str * str)) (lo hi : nat) (s : str)
  : list (str * str) :=
  match hi with
  | O => match lo with O => [([], s)] | S _ => [] end
  | S hi' =>
    flat_map (fun '(m1, r1) =>
                map (fun '(m2, r2) => (m1 ++ m2, r2)) (rep step (Nat.pred lo) hi' r1))
             (step s)
    ++ match lo with O => [([], s)] | S _ => [] end
  end.

(** Every way [r] matches a prefix of [s], as [(matched, rest)], in the
    order a backtracking matcher tries them. *)
Fixpoint matches (r : regex) (s : str) : list (str * str) :=
  match r with
  | Lit c =>
    match s with
    | c' :: s' => if c =? c' then [([c'], s')] else []
    | [] => []
    end
  | Digit =>
    match s with
    | c' :: s' => if isdecimal c' then [([c'], s')] else []
    | [] => []
    end
  | Cat r1 r2 =>
    flat_map (fun '(m1, s1) => map (fun '(m2, s2) => (m1 ++ m2, s2)) (matches r2 s1))
             (matches r1 s)
  | Opt r1 => matches r1 s ++ [([], s)]
  | Rep r1 lo hi => rep (matches r1) lo hi s
  end.

(** A pattern [(group)tail] with one capturing group at its start. *)
Record pattern := { group : regex; tail : regex }.

(** The match of a pattern at the start of [s]: the text of group 1 and
    the length of the whole match. *)
Definition match_at (p : pattern) (s : str) : option (str * nat) :=
  head (flat_map (fun '(g, s1) =>
                    map (fun '(t, _) => (g, length g + length t)%nat) (matches (tail p) s1))
                 (matches (group p) s)).

(** [re.search(p, s)]: group 1 of the leftmost match. *)
Fixpoint search (p : pattern) (s : str) : option str :=
  match match_at p s with
  | Some (g, _) => Some g
  | None =>
    match s with
    | [] => None
    | _ :: s' => search p s'
    end
  end.

(** [re.findall(p, s)]: group 1 of the successive non-overlapping matches
    ([skip] counts the characters of the last match still to pass). *)
Fixpoint findall_from (p : pattern) (s : str) (skip : nat) : list str :=
  match s with
  | [] => match match_at p [] with Some (g, _) => [g] | None => [] end
  | _ :: s' =>
    match skip with
    | S k => findall_from p s' k
    | O =>
      match match_at p s with
      | Some (g, n) => g :: findall_from p s' (Nat.pred n)
      | None => findall_from p s' O
      end
    end
  end.

Definition findall (p : pattern) (s : str) : list str := findall_from p s O.

End Py.

(** ** The collaborators of the core: the parsed document and the browser *)

Module Bs4.
Import Py.

(** The three shapes of [find] call the fill-level pass makes. *)
Inductive locator :=
  | ByClass (name cls : str)         (* find(name, class_=cls) *)
  | ByAttr (name key val : str)      (* find(name, {key: val}) *)
  | ByString (name needle : str).    (* find(name, string=lambda x: x and needle in x) *)

(** What the code observes of a document parsed by BeautifulSoup.  A [tag]
    is always true in a condition, so [if not row] and [if r1] test for
    [None] only. *)
Class Dom := {
  soup : Type;
  tag : Type;
  BeautifulSoup : str -> soup;                  (* BeautifulSoup(html, "html.parser") *)
  find : soup -> locator -> option tag;
  find_parent : tag -> str -> option tag;       (* t.find_parent(name) *)
  find_all : tag -> str -> str -> list tag;     (* t.find_all(name, class_=cls) *)
  get_text : tag -> str -> str;                 (* t.get_text(separator, strip=True) *)
  select : soup -> str -> list tag              (* bs.select(selector) *)
}.

End Bs4.

Module Selenium.
Import Py.

(** The outcome of every browser call of one run; [Chrome k] is the [k]-th
    session opened. *)
Class Browser := {
  driver : Type;
  Chrome : nat -> result driver;                (* webdriver.Chrome(options=options) *)
  get : driver -> str -> result unit;           (* d.get(url) *)
  page_source : driver -> result str;           (* d.page_source *)
  quit : driver -> result unit                  (* d.quit() *)
}.

End Selenium.

(** ** main.py *)

Import Py Bs4 Selenium.

(** A value that is [None] or a [str]: what [parse_percentage] may be
    handed. *)
Inductive value :=
  | VNone
  | VStr (s : str).

(** [v.replace(old, new)]: [None] has no such attribute. *)
Definition replace_method (v : value) (old new : str) : result str :=
  match v with
  | VStr s => Ok (replace old new s)
  | VNone => Raise AttributeError
  end.

Definition parse_percentage (text : value) (default : float) : result float :=
  try_except
    (t ← replace_method text (lit "%") (lit "");
     let cleaned := strip (replace (lit ",") (lit ".") t) in
     float_of_str cleaned)
    [AttributeError; ValueError]
    (Ok default).

(** The text [parse_percentage] hands to [float] when given the string [s]. *)
Definition cleaned (s : str) : str :=
  strip (replace (lit ",") (lit ".") (replace (lit "%") (lit "") s)).

Section Core.
Context `{Dom}.

(** The [for cell in ...] loop of [_sum_row]. *)
Fixpoint sum_cells (cells : list tag) (total : float) : result float :=
  match cells with
  | [] => Ok total
  | cell :: rest =>
    let value := get_text cell [] in
    match value with
    | [] => sum_cells rest total
    | _ :: _ =>
      total' ← try_except
                 (v ← float_of_str (replace (lit ",") (lit ".") (replace (lit ".") (lit "") value));
                  Ok (fadd total v))
                 [ValueError]
                 (Ok total);
      sum_cells rest total'
    end
  end.

Definition _sum_row (row : option tag) : result float :=
  match row with
  | None => Ok zero
  | Some row =>
    match find_parent row (lit "tr") with
    | None => Ok zero
    | Some parent => sum_cells (find_all parent (lit "td") (lit "damtotaltd")) zero
    end
  end.

(** [round(kullanilabilir_sum / toplam_sum * 100, 2) if toplam_sum else 0.0] *)
Definition ratio_pct (kullanilabilir_sum toplam_sum : float) : result float :=
  if truthy toplam_sum then
    q ← truediv kullanilabilir_sum toplam_sum;
    round (fmul q (float_of_Z 100)) 2
  else Ok zero.

(** [r.get_text(strip=True) if r else ""] *)
Definition text_or_empty (r : option tag) : value :=
  match r with
  | Some t => VStr (get_text t [])
  | None => VStr []
  end.

Definition Istanbul : str := lit "İstanbul".
Definition Bursa : str := lit "Bursa".
Definition Izmir : str := lit "İzmir".
Definition Ankara : str := lit "Ankara".

Definition urls : gmap str str :=
  <[Izmir := lit "https://www.izsu.gov.tr/tr/BarajlarinSuDurumu/1"]>
  (<[Ankara := lit "https://www.aski.gov.tr/tr/baraj.aspx"]>
  (<[Bursa := lit "https://www.buski.gov.tr/baraj-detay"]>
  (<[Istanbul := lit "https://iski.istanbul/baraj-doluluk/"]> ∅))).

(** [urls[city]] *)
Definition url_of (city : str) : str := default [] (urls !! city).

(** The node looked up on each page. *)
Definition loc_ist : locator := ByClass (lit "div") (lit "text-4xl font-bold absolute").
Definition loc_bur : locator := ByAttr (lit "span") (lit "id") (lit "baraj-doluluk-1-info").
Definition loc_toplam : locator := ByString (lit "span") (lit "Kullanılabilir göl su hacmi").
Definition loc_kullanilabilir : locator := ByString (lit "span") (lit "Kullanılabilir su hacmi").
Definition loc_ank : locator := ByAttr (lit "label") (lit "id") (lit "LabelBarajOrani").

Context `{Browser}.

(** The body of the [try] of [scrape_levels], from the navigation to the
    [return].  The settle delay and the progress messages printed between
    the steps have no part in the result and are left out. *)
Definition read_levels (drv_ist drv_bur drv_ank drv_izm : driver)
  : result (gmap str float) :=
  _ ← get drv_ist (url_of Istanbul);
  _ ← get drv_bur (url_of Bursa);
  _ ← get drv_ank (url_of Ankara);
  _ ← get drv_izm (url_of Izmir);
  src1 ← page_source drv_ist;
  let soup1 := BeautifulSoup src1 in
  let r1 := find soup1 loc_ist in
  ist ← parse_percentage (text_or_empty r1) zero;
  src2 ← page_source drv_bur;
  let soup2 := BeautifulSoup src2 in
  let r2 := find soup2 loc_bur in
  bur ← parse_percentage (text_or_empty r2) zero;
  src3 ← page_source drv_izm;
  let soup3 := BeautifulSoup src3 in
  let toplam_row := find soup3 loc_toplam in
  let kullanilabilir_row := find soup3 loc_kullanilabilir in
  toplam_sum ← _sum_row toplam_row;
  kullanilabilir_sum ← _sum_row kullanilabilir_row;
  izm ← ratio_pct kullanilabilir_sum toplam_sum;
  src4 ← page_source drv_ank;
  let soup4 := BeautifulSoup src4 in
  let r4 := find soup4 loc_ank in
  ank ← parse_percentage (text_or_empty r4) zero;
  Ok (<[Ankara := ank]> (<[Izmir := izm]> (<[Bursa := bur]> (<[Istanbul := ist]> ∅)))).

(** The [finally] block: every session is closed, in order. *)
Definition quit_all (ds : list driver) : result unit :=
  _ ← for_each quit ds; Ok ().

Definition scrape_levels : result (gmap str float) :=
  drv_ist ← Chrome 0;
  drv_bur ← Chrome 1;
  drv_ank ← Chrome 2;
  drv_izm ← Chrome 3;
  try_finally
    (read_levels drv_ist drv_bur drv_ank drv_izm)
    (quit_all [drv_ist; drv_bur; drv_ank; drv_izm]).

(** *** The forecast extractor *)

Record ForecastDay := {
  day_index : Z;
  text : str;
  high_c : option Z;
  low_c : option Z;
  precip_pct : option Z
}.

Definition dq : str := [34].

Definition selectors : list str :=
  [ lit "a.daily-forecast-card"; lit "div.daily-forecast-card"; lit "li.daily-forecast-card";
    lit "[data-qa=" ++ dq ++ lit "daily-card" ++ dq ++ lit "]";
    lit "a[data-qa=" ++ dq ++ lit "daily-card" ++ dq ++ lit "]";
    lit "li[data-qa=" ++ dq ++ lit "daily-card" ++ dq ++ lit "]";
    lit "div.forecast-list a"; lit "li.daily-card"; lit "div.daily-list a" ].

(** The [for sel in [...]] loop: [cards] is rebound at every turn and the
    loop is left at the first selection of seven or more. *)
Fixpoint pick_cards (bs : soup) (sels : list str) (cards : list tag) : list tag :=
  match sels with
  | [] => cards
  | sel :: rest =>
    let cards := select bs sel in
    if (7 <=? length cards)%nat then cards else pick_cards bs rest cards
  end.

(** [(-?\d{1,2})°] *)
Definition temp_pattern : pattern :=
  {| group := Cat (Opt (Lit 45)) (Rep Digit 1 2); tail := Lit 176 |}.

(** [(\d{1,2})%] *)
Definition prec_pattern : pattern :=
  {| group := Rep Digit 1 2; tail := Lit 37 |}.

(** [int(xs[i]) if len(xs) >= i + 1 else None] *)
Definition int_at (xs : list str) (i : nat) : result (option Z) :=
  if (i + 1 <=? length xs)%nat then
    match xs !! i with
    | Some s => v ← int_of_str s; Ok (Some v)
    | None => Raise IndexError
    end
  else Ok None.

(** The fields read off the visible text of one card. *)
Definition card_record (i : Z) (text : str) : result ForecastDay :=
  let highs := findall temp_pattern text in
  h ← int_at highs 0;
  l ← int_at highs 1;
  let m_prec := search prec_pattern text in
  precip ← match m_prec with
           | Some g => v ← int_of_str g; Ok (Some v)
           | None => Ok None
           end;
  Ok {| day_index := i + 1; text := slice_to 200 text;
        high_c := h; low_c := l; precip_pct := precip |}.

(** The second loop, [for i, c in enumerate(cards[:15])]. *)
Definition records_of (cards : list tag) : result (list ForecastDay) :=
  for_each (fun '(i, c) => card_record i (get_text c (lit " ")))
           (enumerate (slice_to 15 cards)).

Definition _parse_accu_15day (html : str) : result (list ForecastDay) :=
  let bs := BeautifulSoup html in
  let cards := pick_cards bs selectors [] in
  records_of cards.

(** The value of [cards] when the first loop is left. *)
Definition chosen_cards (html : str) : list tag :=
  pick_cards (BeautifulSoup html) selectors [].

End Core.

(** *** Fixtures: a tabulated document and a browser that always answers *)

Module Fixture.

Inductive ftag :=
  | Node (txt : str) (row : option (list str))   (* an element: its text; the cell texts of its row *)
  | Row (cells : list str)
  | Cell (txt : str).

Record fsoup := {
  found : locator -> option ftag;
  selected : str -> list ftag
}.

(** Every page parses to [doc]. *)
Definition dom (doc : fsoup) : Dom := {|
  soup := fsoup;
  tag := ftag;
  BeautifulSoup := fun _ => doc;
  find := found;
  find_parent := fun t _ =>
    match t with
    | Node _ (Some cells) => Some (Row cells)
    | _ => None
    end;
  find_all := fun t _ _ =>
    match t with
    | Row cells => map Cell cells
    | _ => []
    end;
  get_text := fun t _ =>
    match t with
    | Node txt _ => txt
    | Cell txt => txt
    | Row _ => []
    end;
  select := selected
|}.

Definition browser : Browser := {|
  driver := nat;
  Chrome := fun k => Ok k;
  get := fun _ _ => Ok ();
  page_source := fun _ => Ok [];
  quit := fun _ => Ok ()
|}.

(** A document in which nothing is found. *)
Definition blank : fsoup := {| found := fun _ => None; selected := fun _ => [] |}.

(** A forecast page with [n] cards of text [txt] under the first selector. *)
Definition forecast_page (n : nat) (txt : str) : fsoup := {|
  found := fun _ => None;
  selected := fun sel =>
    if str_eqb sel (lit "a.daily-forecast-card") then repeat (Node txt None) n else []
|}.

(** A page on which the first three selectors match 3, 5 and 12 cards. *)
Definition fallback_page : fsoup := {|
  found := fun _ => None;
  selected := fun sel =>
    if str_eqb sel (lit "a.daily-forecast-card") then repeat (Node (lit "a") None) 3
    else if str_eqb sel (lit "div.daily-forecast-card") then repeat (Node (lit "b") None) 5
    else if str_eqb sel (lit "li.daily-forecast-card") then repeat (Node (lit "c 7° 1° 5%") None) 12
    else []
|}.

(** A label inside a row whose aggregate cells hold the given texts. *)
Definition row_page (cells : list str) : fsoup := {|
  found := fun _ => Some (Node (lit "Kullanılabilir su hacmi") (Some cells));
  selected := fun _ => []
|}.

End Fixture.

(** ** The rest of main.py: further built-ins and collaborators *)

Module PyMore.
Import Py.

(** *** Exceptions beyond the built-in ones of the core

    [LibraryError] is an exception raised inside a library call
    ([requests], [tweepy], the JSON decoder), named by the library. *)
Inductive error :=
  | Builtin (e : exn)
  | KeyError
  | TypeError
  | LibraryError (name : list N).

Inductive outcome (A : Type) :=
  | Return (a : A)
  | Throw (e : error).
Arguments Return {A} a.
Arguments Throw {A} e.

#[global] Instance outcome_bind : MBind outcome := fun A B k r =>
  match r with
  | Return a => k a
  | Throw e => Throw e
  end.
#[global] Instance outcome_ret : MRet outcome := fun A a => Return a.

(** A computation of the core, run inside the rest of the program. *)
Definition lift {A} (r : result A) : outcome A :=
  match r with
  | Ok a => Return a
  | Raise e => Throw (Builtin e)
  end.

(** *** [s.split()] and [sep.join(words)] *)

(** The words of [s], [cur] being the word under way. *)
Fixpoint split_from (cur : str) (s : str) : list str :=
  match s with
  | [] => match cur with [] => [] | _ :: _ => [cur] end
  | c :: s' =>
    if isspace c
    then match cur with
         | [] => split_from [] s'
         | _ :: _ => cur :: split_from [] s'
         end
    else split_from (cur ++ [c]) s'
  end.

(** [s.split()]: the maximal runs of characters that are not white space. *)
Definition split (s : str) : list str := split_from [] s.

(** [sep.join(words)] *)
Fixpoint join (sep : str) (words : list str) : str :=
  match words with
  | [] => []
  | [w] => w
  | w :: ws => w ++ sep ++ join sep ws
  end.

(** *** [list.sort(key=..., reverse=True)] on float keys

    The sort is stable, also when reversed: [x] goes before the first
    element whose key is smaller than its own.  This is the list that
    [list.sort] leaves when no key is NaN, the only lists the properties
    below are about: [<] is then a total preorder and the stable sorted
    arrangement is unique.  With a NaN key the arrangement CPython leaves
    depends on the runs its merge sort detects and is not the one given
    here. *)
Fixpoint insert_desc {A} (key : A -> float) (x : A) (l : list A) : list A :=
  match l with
  | [] => [x]
  | y :: l' =>
    if SFltb (key y) (key x) then x :: l else y :: insert_desc key x l'
  end.

Definition sort_reverse {A} (key : A -> float) (l : list A) : list A :=
  fold_left (fun acc x => insert_desc key x acc) l [].

(** *** JSON values, as [json.loads] returns them *)

#[warnings="-register-all"] Inductive json :=
  | JNull
  | JBool (b : bool)
  | JInt (z : Z)
  | JFloat (f : float)
  | JStr (s : list N)
  | JArr (items : list json)
  | JObj (members : list (list N * json)).   (* a dict: the keys are distinct *)

Fixpoint assoc (key : str) (members : list (list N * json)) : option json :=
  match members with
  | [] => None
  | (k, v) :: rest => if str_eqb k key then Some v else assoc key rest
  end.

(** [v.get(key, default)]: only a dict has the method. *)
Definition get_method (v : json) (key : str) (default : json) : outcome json :=
  match v with
  | JObj members => Return (match assoc key members with Some x => x | None => default end)
  | _ => Throw (Builtin AttributeError)
  end.

(** [v[0]] *)
Definition first_item (v : json) : outcome json :=
  match v with
  | JArr (x :: _) => Return x
  | JArr [] => Throw (Builtin IndexError)
  | JStr (c :: _) => Return (JStr [c])
  | JStr [] => Throw (Builtin IndexError)
  | JObj _ => Throw KeyError
  | JNull | JBool _ | JInt _ | JFloat _ => Throw TypeError
  end.

(** Truth value of a JSON value. *)
Definition json_truthy (v : json) : bool :=
  match v with
  | JNull => false
  | JBool b => b
  | JInt z => negb (z =? 0)%Z
  | JFloat f => truthy f
  | JStr s => match s with [] => false | _ :: _ => true end
  | JArr l => match l with [] => false | _ :: _ => true end
  | JObj m => match m with [] => false | _ :: _ => true end
  end.

(** [v.strip()]: only a [str] has the method. *)
Definition strip_method (v : json) : outcome str :=
  match v with
  | JStr s => Return (strip s)
  | _ => Throw (Builtin AttributeError)
  end.

End PyMore.

Module World.
Import Py PyMore.

(** [os.getenv(name)] *)
Class Os := { getenv : list N -> option (list N) }.

(** [os.getenv(name, default)] *)
Definition getenv_default `{Os} (name default : str) : str :=
  match getenv name with
  | Some v => v
  | None => default
  end.

(** [s.lower()], whose table of case mappings is the interpreter's. *)
Class Text := { lower : list N -> list N }.

(** What the code reads of an HTTP response: [resp.status_code],
    [resp.text] and [resp.json()]. *)
Record response := {
  status_code : Z;
  body : list N;
  decoded : outcome json
}.

(** [requests.get(url, headers=headers, timeout=15)] *)
Class Requests := { http_get : list N -> outcome response }.

(** What the request to the summariser is made of. *)
Record chat_request := {
  rq_key : list N;
  rq_model : list N;
  rq_levels : gmap (list N) float;
  rq_weather : gmap (list N) (list ForecastDay)
}.

(** [requests.post("https://api.deepseek.com/chat/completions", ...)] *)
Class DeepSeek := { chat_completions : chat_request -> outcome response }.

(** The calls made to X through [tweepy]. *)
Class Tweepy := {
  client : Type;
  media : Type;
  Client : list N -> list N -> list N -> list N -> outcome client;  (* tweepy.Client(...) *)
  create_tweet : client -> list N -> outcome unit;          (* client.create_tweet(text=...) *)
  update_status : list N -> option media -> outcome unit;   (* api.update_status(status=..., media_ids=...) *)
  media_upload : list N -> outcome media                    (* api.media_upload(path) *)
}.

End World.

Import PyMore World.

Section Rest.
Context `{Dom} `{Os} `{Text} `{Requests} `{DeepSeek} `{Tweepy}.

(** *** The chart: the order of the bars *)

(** The value of [data] once sorted; the drawing itself is matplotlib's. *)
Definition chart_data (ist bur izm ank : float) : list (list N * float) :=
  sort_reverse snd [(Istanbul, ist); (Bursa, bur); (Izmir, izm); (Ankara, ank)].

Definition chart_cities (ist bur izm ank : float) : list (list N) :=
  map fst (chart_data ist bur izm ank).

Definition chart_values (ist bur izm ank : float) : list float :=
  map snd (chart_data ist bur izm ank).

(** *** The forecast pass *)

Definition _accu_url_defaults : list (list N * list N) :=
  [ (Istanbul, getenv_default (lit "ACCU_IST_URL")
       (lit "https://www.accuweather.com/tr/tr/istanbul/318251/daily-weather-forecast/318251"));
    (Bursa, getenv_default (lit "ACCU_BURSA_URL")
       (lit "https://www.accuweather.com/tr/tr/bursa/316938/daily-weather-forecast/316938"));
    (Izmir, getenv_default (lit "ACCU_IZMIR_URL")
       (lit "https://www.accuweather.com/tr/tr/izmir/318316/daily-weather-forecast/318316"));
    (Ankara, getenv_default (lit "ACCU_ANKARA_URL")
       (lit "https://www.accuweather.com/tr/tr/ankara/316938/daily-weather-forecast/316938")) ].

Definition fetch_accuweather_15day (city url : str) : outcome (list ForecastDay) :=
  resp ← http_get url;
  if negb (status_code resp =? 200)%Z then Return []
  else lift (_parse_accu_15day (body resp)).

(** The [for city, url in urls.items()] loop. *)
Fixpoint fetch_each (urls : list (list N * list N)) (out : gmap (list N) (list ForecastDay))
  : outcome (gmap (list N) (list ForecastDay)) :=
  match urls with
  | [] => Return out
  | (city, url) :: rest =>
    days ← fetch_accuweather_15day city url;
    fetch_each rest (<[city := days]> out)
  end.

Definition fetch_all_accuweather : outcome (gmap (list N) (list ForecastDay)) :=
  fetch_each _accu_url_defaults ∅.

(** *** The summary *)

(** [" ".join(msg.strip().split())] *)
Definition one_line (msg : str) : str := join (lit " ") (split (strip msg)).

Definition deepseek_summary_week (current_levels : gmap (list N) float)
    (weather_by_city : gmap (list N) (list ForecastDay)) : outcome (option (list N)) :=
  match getenv (lit "DEEPSEEK_API_KEY") with
  | None | Some [] => Return None
  | Some api_key =>
    resp ← chat_completions
             {| rq_key := api_key;
                rq_model := getenv_default (lit "DEEPSEEK_MODEL") (lit "deepseek-chat");
                rq_levels := current_levels;
                rq_weather := weather_by_city |};
    if negb (status_code resp =? 200)%Z then Return None
    else
      data ← decoded resp;
      choices ← get_method data (lit "choices") (JArr [JObj []]);
      choice ← first_item choices;
      message ← get_method choice (lit "message") (JObj []);
      msg ← get_method message (lit "content") JNull;
      if json_truthy msg
      then s ← strip_method msg; Return (Some (join (lit " ") (split s)))
      else Return None
  end.

(** *** The post *)

(** [os.getenv(name, "false").lower() in {"1", "true", "yes", "on"}] *)
Definition flag (name : str) : bool :=
  existsb (str_eqb (lower (getenv_default name (lit "false"))))
          [lit "1"; lit "true"; lit "yes"; lit "on"].

(** [(text or "").strip()[:270] or "Baraj doluluk oranları"] *)
Definition prepared (text : value) : str :=
  let t := match text with VStr s => s | VNone => [] end in
  match slice_to 270 (strip t) with
  | [] => lit "Baraj doluluk oranları"
  | c :: s => c :: s
  end.

(** A variable that is set and not empty. *)
Definition given (v : option (list N)) : bool :=
  match v with
  | Some (_ :: _) => true
  | _ => false
  end.

Inductive call :=
  | CreateTweet (text : list N)
  | UpdateStatus (status : list N) (media_ids : option media)
  | MediaUpload (path : list N).

(** [post_image_to_x], returning the calls it made. *)
Definition post_image_to_x (image_path : str) (text : value) : outcome (list call) :=
  let enabled := flag (lit "X_POST_ENABLED") in
  let text_only := flag (lit "X_TEXT_ONLY") in
  if negb enabled then Return []
  else
    let api_key := getenv (lit "X_API_KEY") in
    let api_secret := getenv (lit "X_API_SECRET") in
    let access_token := getenv (lit "X_ACCESS_TOKEN") in
    let access_secret := getenv (lit "X_ACCESS_TOKEN_SECRET") in
    if negb (given api_key && given api_secret && given access_token && given access_secret)
    then Return []
    else
      let cl := match Client (default [] api_key) (default [] api_secret)
                             (default [] access_token) (default [] access_secret) with
                | Return c => Some c
                | Throw _ => None
                end in
      let prepared_text := prepared text in
      if text_only then
        match cl with
        | Some c => _ ← create_tweet c prepared_text; Return [CreateTweet prepared_text]
        | None => _ ← update_status prepared_text None;
                  Return [UpdateStatus prepared_text None]
        end
      else
        m ← media_upload image_path;
        _ ← update_status prepared_text (Some m);
        Return [MediaUpload image_path; UpdateStatus prepared_text (Some m)].

End Rest.

(** *** Fixtures for the rest of the program *)

Module Fixture2.

(** An environment given by a table. *)
Definition env (table : list (list N * list N)) : Os := {|
  getenv := fun name =>
    snd <$> List.find (fun kv => str_eqb (fst kv) name) table
|}.

(** ASCII letters only. *)
Definition ascii_text : Text := {| lower := map Py.lower |}.

(** A server that answers every request with the same response. *)
Definition server (resp : outcome response) : Requests := {| http_get := fun _ => resp |}.

Definition summariser (resp : outcome response) : DeepSeek :=
  {| chat_completions := fun _ => resp |}.

(** An X account that accepts every call. *)
Definition account : Tweepy := {|
  client := unit;
  media := nat;
  Client := fun _ _ _ _ => Return ();
  create_tweet := fun _ _ => Return ();
  update_status := fun _ _ => Return ();
  media_upload := fun _ => Return 7%nat
|}.

(** An X account on which every call fails. *)
Definition closed_account : Tweepy := {|
  client := unit;
  media := nat;
  Client := fun _ _ _ _ => Throw (LibraryError (lit "tweepy"));
  create_tweet := fun _ _ => Throw (LibraryError (lit "tweepy"));
  update_status := fun _ _ => Throw (LibraryError (lit "tweepy"));
  media_upload := fun _ => Throw (LibraryError (lit "tweepy"))
|}.

(** A browser whose second session cannot be read. *)
Definition flaky_browser : Browser := {|
  driver := nat;
  Chrome := fun k => Ok k;
  get := fun _ _ => Ok ();
  page_source := fun d => if (d =? 1)%nat then Raise WebDriverException else Ok [];
  quit := fun _ => Ok ()
|}.

(** An environment with the key of the summariser. *)
Definition key_env : Os := env [(lit "DEEPSEEK_API_KEY", lit "k")].

(** A 200 answer of the summariser with one choice. *)
Definition note_message : list (list N * json) :=
  [(lit "content", JStr (lit " Bursa  %41 "))].

Definition note_choice : list (list N * json) := [(lit "message", JObj note_message)].

Definition note_members : list (list N * json) := [(lit "choices", JArr [JObj note_choice])].

Definition note_response : response :=
  {| status_code := 200; body := []; decoded := Return (JObj note_members) |}.

(** A 200 answer that is an empty JSON object. *)
Definition empty_response : response :=
  {| status_code := 200; body := []; decoded := Return (JObj []) |}.

(** A 404 answer. *)
Definition not_found : response :=
  {| status_code := 404; body := lit "Not Found"; decoded := Throw (LibraryError (lit "json")) |}.

(** The forecast map when no page could be had. *)
Definition no_forecasts : gmap (list N) (list ForecastDay) :=
  <[Ankara := []]> (<[Izmir := []]> (<[Bursa := []]> (<[Istanbul := []]> ∅))).

(** An environment in which posting is switched on, with or without the
    image. *)
Definition posting_env (text_only : list N) : Os :=
  env [ (lit "X_POST_ENABLED", lit "true"); (lit "X_TEXT_ONLY", text_only);
        (lit "X_API_KEY", lit "a"); (lit "X_API_SECRET", lit "b");
        (lit "X_ACCESS_TOKEN", lit "c"); (lit "X_ACCESS_TOKEN_SECRET", lit "d") ].

End Fixture2.

(** ** Auxiliary notions of the statements *)

(** A non-empty text whose first and last characters are kept by [sp]. *)
Definition ends_kept (sp : char -> bool) (s : str) : bool :=
  match s with
  | [] => false
  | a :: _ => negb (sp a) && negb (sp (List.last s a))
  end.

(** A text made of the ASCII digits [0] to [9] only, and the values of its
    digits. *)
Definition ascii_digits (s : str) : bool := forallb is_ascii_digit s.

Definition digit_values (s : str) : list Z := map (fun c => Z.of_N (c - 48)) s.

(** The spec's wording of the clean-up of [parse_percentage]: percent signs
    are removed, every comma becomes a point, white space is trimmed at both
    ends. *)
Definition strip_percent_signs (s : str) : str :=
  List.filter (fun c => negb (37 =? c)) s.

Definition comma_to_point (s : str) : str :=
  map (fun c => if 44 =? c then 46 else c) s.

(** What the parsers need to know of an ASCII digit: it is no space, no
    sign, no point, no underscore, no exponent mark, and it is ASCII. *)
Definition plain (c : char) : bool :=
  negb (isspace c) && negb (is_c_space c) && (c <? 127)
  && negb (c =? 95) && negb (c =? 45) && negb (c =? 43)
  && negb (c =? 37) && negb (c =? 44) && negb (c =? 46).

(** The spec's wording of the row sum: a cell contributes the float read
    from its text once thousands dots are removed and the decimal comma is
    a point; a cell whose text does not parse contributes nothing. *)
Definition cell_value (txt : str) : option float :=
  match float_of_str (replace (lit ",") (lit ".") (replace (lit ".") (lit "") txt)) with
  | Ok v => Some v
  | Raise _ => None
  end.


(** Every decimal character, run by run. *)
Definition decimal_chars : list N :=
  flat_map (fun z => map (fun k => z + k) [0; 1; 2; 3; 4; 5; 6; 7; 8; 9]) decimal_runs.

(** The digit a decimal character stands for, and the ASCII digit [int]
    and [float] read in its place. *)
Definition decimal_value (c : char) : Z := default 0%Z (to_decimal c).

Definition ascii_digit_of (c : char) : char := 48 + Z.to_N (decimal_value c).

Definition decimals (s : str) : bool := forallb isdecimal s.

Definition decimal_values (s : str) : list Z := map decimal_value s.

(** What the numeral parsers rely on for a decimal character. *)
Definition decimal_ok (c : char) : bool :=
  isdecimal c
  && (0 <=? decimal_value c)%Z && (decimal_value c <=? 9)%Z
  && is_ascii_digit (ascii_digit_of c)
  && (if c <? 128 then (c <? 127) && (ascii_digit_of c =? c) else negb (isspace c))
  && negb (is_c_space c) && negb (c =? 45) && negb (c =? 43) && negb (c =? 95)
  && negb (c =? 37) && negb (c =? 176).

(** The character [int] and [float] see in place of [c]. *)
Definition ascii_view (c : char) : char :=
  if c <? 127 then c else ascii_digit_of c.

(** The integer read from a matched group, when [int] accepts it. *)
Definition int_value (g : str) : option Z :=
  match int_of_str g with
  | Ok v => Some v
  | Raise _ => None
  end.

(** The text of a group matched by [-?\d{1,2}] or [\d{1,2}]: an optional
    minus sign and one or two decimal characters. *)
Definition short_numeral (g : str) : Prop :=
  exists sign ds,
    g = sign ++ ds /\ (sign = [] \/ sign = [45]) /\
    decimals ds = true /\ (length ds = 1 \/ length ds = 2)%nat.

(** Some decimal character of [s] is directly followed by a percent sign. *)
Fixpoint has_percent_token (s : str) : bool :=
  match s with
  | c :: s' =>
    match s' with
    | c' :: _ => (isdecimal c && (c' =? 37)) || has_percent_token s'
    | [] => false
    end
  | [] => false
  end.

(** The record the extractor builds from the visible text of the card at
    position [i]: each field is read from the first match of its pattern. *)
Definition expected_record (i : Z) (txt : str) : ForecastDay :=
  let highs := findall temp_pattern txt in
  {| day_index := i + 1;
     text := slice_to 200 txt;
     high_c := highs !! 0%nat ≫= int_value;
     low_c := highs !! 1%nat ≫= int_value;
     precip_pct := search prec_pattern txt ≫= int_value |}.

(** Two decimal characters of [s] in a row are directly followed by a
    percent sign. *)
Fixpoint has_two_digit_percent_token (s : str) : bool :=
  match s with
  | c1 :: s' =>
    match s' with
    | c2 :: c3 :: _ =>
      (isdecimal c1 && isdecimal c2 && (c3 =? 37)) || has_two_digit_percent_token s'
    | _ => false
    end
  | [] => false
  end.

(** The four cities, and the map of a run in which every level is 0.0. *)
Definition cities : gset (list N) := {[Istanbul; Bursa; Izmir; Ankara]}.

Definition zero_levels : gmap (list N) float :=
  <[Ankara := zero]> (<[Izmir := zero]> (<[Bursa := zero]> (<[Istanbul := zero]> ∅))).

(** The exponent of the binary64 format for a number of magnitude [x], and
    the finite floats that are binary64 numbers. *)
Definition fexp64 (x : Z) : Z := Z.max (x - 53) (-1074).

Definition binary64 (x : float) : Prop :=
  match x with
  | S754_finite _ m e => (Zpos m < 2 ^ 53 /\ e <= 971)%Z
  | _ => True
  end.

(** A word: not empty and free of white space. *)
Definition is_word (w : str) : bool :=
  match w with
  | [] => false
  | _ :: _ => forallb (fun c => negb (isspace c)) w
  end.

(** Every white-space character of [s] is one U+0020 followed by a
    character that is not white space. *)
Fixpoint single_spaced (s : str) : bool :=
  match s with
  | [] => true
  | c :: s' =>
    (if isspace c
     then (c =? 32) && match s' with c' :: _ => negb (isspace c') | [] => false end
     else true)
    && single_spaced s'
  end.

(** One line of words separated by single spaces, with no white space at
    either end. *)
Definition tidy (s : str) : bool :=
  match s with
  | [] => true
  | c :: _ => negb (isspace c)
  end && single_spaced s.

(** [math.isnan(x)] *)
Definition isnan (x : float) : bool :=
  match x with
  | S754_nan => true
  | _ => false
  end.

(** The keys go down along [l]: every element is at least as large as all
    the ones after it. *)
Fixpoint descending {A} (key : A -> float) (l : list A) : Prop :=
  match l with
  | [] => True
  | x :: l' => Forall (fun y => SFleb (key y) (key x) = true) l' /\ descending key l'
  end.

(** The elements of [l] whose key compares equal to [v], in their order. *)
Definition with_key {A} (key : A -> float) (v : float) (l : list A) : list A :=
  List.filter (fun x => SFeqb (key x) v) l.

(** ** Properties *)

(** *** The error monad *)

Lemma bind_Ok {A B} (m : result A) (k : A -> result B) (b : B) :
  (x ← m; k x) = Ok b -> exists a, m = Ok a /\ k a = Ok b.
Proof.
  unfold mbind, result_bind, bind. destruct m as [a|e]; [eauto | discriminate].
Qed.

Lemma bind_Raise {A B} (m : result A) (k : A -> result B) (e : exn) :
  (x ← m; k x) = Raise e -> m = Raise e \/ exists a, m = Ok a /\ k a = Raise e.
Proof.
  unfold mbind, result_bind, bind. destruct m as [a|e']; [eauto | intros [= ->]; auto].
Qed.

Lemma bind_Ok_l {A B} (a : A) (k : A -> result B) : (Ok a ≫= k) = k a.
Proof. reflexivity. Qed.

Lemma bind_Raise_l {A B} (e : exn) (k : A -> result B) : (Raise e ≫= k) = Raise e.
Proof. reflexivity. Qed.

(** One step of a run: a call whose outcome is known is replaced by it. *)
Ltac run := repeat (rewrite bind_Ok_l || rewrite bind_Raise_l); cbv beta.

Lemma float_of_str_raises (s : str) (e : exn) :
  float_of_str s = Raise e -> e = ValueError.
Proof.
  unfold float_of_str.
  destruct (with_underscores _ _); [discriminate | congruence].
Qed.

Lemma parse_percentage_str (s : str) (d : float) :
  parse_percentage (VStr s) d =
  match float_of_str (cleaned s) with
  | Ok v => Ok v
  | Raise _ => Ok d
  end.
Proof.
  unfold parse_percentage, cleaned; simpl.
  destruct (float_of_str _) as [v|e] eqn:E; simpl; [reflexivity|].
  apply float_of_str_raises in E as ->. reflexivity.
Qed.

Lemma parse_percentage_returns (text : value) (d : float) :
  exists v, parse_percentage text d = Ok v.
Proof.
  destruct text as [|s]; [exists d; reflexivity|].
  rewrite parse_percentage_str. destruct (float_of_str _); eauto.
Qed.

(** C4. [parse_percentage] never raises, whatever [str] or [None] it is
    given and whatever the default [d]: it always returns a float; for
    [None], for the empty string, for a non-numeric string and whenever
    [float] rejects the cleaned text, that float is exactly [d]. *)
Theorem parse_percentage_never_raises (d : float) :
  (forall text, exists v, parse_percentage text d = Ok v) /\
  parse_percentage VNone d = Ok d /\
  parse_percentage (VStr []) d = Ok d /\
  parse_percentage (VStr (lit "yok")) d = Ok d /\
  (forall s, parse_percentage (VStr s) d =
             match float_of_str (cleaned s) with
             | Ok v => Ok v
             | Raise _ => Ok d
             end).
Proof.
  split; [|split; [|split; [|split]]].
  - intros text. apply parse_percentage_returns.
  - reflexivity.
  - reflexivity.
  - reflexivity.
  - intros s. apply parse_percentage_str.
Qed.

(** *** [str.replace] and [str.strip] on single characters *)

Lemma replace_char (c : char) (new s : str) :
  replace [c] new s = flat_map (fun x => if c =? x then new else [x]) s.
Proof.
  unfold replace. induction s as [|x s IH]; [reflexivity|].
  simpl. destruct (c =? x); simpl; rewrite IH; reflexivity.
Qed.

Lemma replace_char_delete (c : char) (s : str) :
  replace [c] [] s = List.filter (fun x => negb (c =? x)) s.
Proof.
  rewrite replace_char. induction s as [|x s IH]; [reflexivity|].
  simpl. destruct (c =? x); simpl; rewrite IH; reflexivity.
Qed.

Lemma replace_char_map (c c' : char) (s : str) :
  replace [c] [c'] s = map (fun x => if c =? x then c' else x) s.
Proof.
  rewrite replace_char. induction s as [|x s IH]; [reflexivity|].
  simpl. destruct (c =? x); simpl; rewrite IH; reflexivity.
Qed.

Lemma replace_char_absent (c : char) (new s : str) :
  forallb (fun x => negb (c =? x)) s = true -> replace [c] new s = s.
Proof.
  rewrite replace_char. induction s as [|x s IH]; [reflexivity|].
  simpl. intros [Hx Hs]%andb_prop. apply negb_true_iff in Hx. rewrite Hx.
  simpl. rewrite IH by assumption. reflexivity.
Qed.

Lemma lstrip_by_head (sp : char -> bool) (c : char) (s : str) :
  sp c = false -> lstrip_by sp (c :: s) = c :: s.
Proof. intros E. simpl. rewrite E. reflexivity. Qed.

Lemma strip_by_id (sp : char -> bool) (a z : char) (s : str) :
  sp a = false -> sp z = false -> strip_by sp (a :: s ++ [z]) = a :: s ++ [z].
Proof.
  intros Ha Hz. unfold strip_by. rewrite lstrip_by_head by assumption.
  replace (rev (a :: s ++ [z])) with (z :: rev (a :: s)).
  - rewrite lstrip_by_head by assumption.
    change (z :: rev (a :: s)) with ([z] ++ rev (a :: s)).
    rewrite rev_app_distr, rev_involutive. reflexivity.
  - change (a :: s ++ [z]) with ((a :: s) ++ [z]).
    rewrite rev_app_distr. reflexivity.
Qed.

Lemma strip_by_single (sp : char -> bool) (a : char) :
  sp a = false -> strip_by sp [a] = [a].
Proof. intros Ha. unfold strip_by. simpl. rewrite Ha. simpl. rewrite Ha. reflexivity. Qed.

Lemma strip_by_ends_kept (sp : char -> bool) (s : str) :
  ends_kept sp s = true -> strip_by sp s = s.
Proof.
  destruct s as [|a s]; [discriminate|].
  unfold ends_kept. intros [Ha Hz]%andb_prop.
  apply negb_true_iff in Ha, Hz.
  destruct (exists_last (l := a :: s)) as [s0 [z E]]; [discriminate|].
  rewrite E in Hz. rewrite last_last in Hz.
  destruct s0 as [|a0 s0].
  - simpl in E. injection E as -> ->. apply strip_by_single; assumption.
  - simpl in E. injection E as <- ->. apply strip_by_id; assumption.
Qed.

(** *** Numerals made of ASCII digits *)

Lemma ascii_digit_cases (c : char) :
  is_ascii_digit c = true ->
  In c [48; 49; 50; 51; 52; 53; 54; 55; 56; 57].
Proof.
  unfold is_ascii_digit. intros [H1 H2]%andb_prop.
  apply N.leb_le in H1, H2. simpl.
  assert (c = 48 \/ c = 49 \/ c = 50 \/ c = 51 \/ c = 52 \/ c = 53 \/ c = 54
          \/ c = 55 \/ c = 56 \/ c = 57) by lia.
  intuition auto.
Qed.

Lemma ascii_digit_plain (c : char) : is_ascii_digit c = true -> plain c = true.
Proof.
  intros Hc. apply ascii_digit_cases in Hc. simpl in Hc.
  repeat (destruct Hc as [<-|Hc]; [reflexivity|]). contradiction.
Qed.

Lemma span_digits_app (ds r : str) :
  ascii_digits ds = true ->
  match r with c :: _ => is_ascii_digit c = false | [] => True end ->
  span_digits (ds ++ r) = (digit_values ds, r).
Proof.
  intros Hds Hr. induction ds as [|c ds IH].
  - destruct r as [|c r]; [reflexivity|].
    cbn [app span_digits]. rewrite Hr. reflexivity.
  - cbn [ascii_digits forallb] in Hds. apply andb_prop in Hds as [Hc Hds].
    cbn [app span_digits digit_values map]. rewrite Hc, IH by assumption.
    reflexivity.
Qed.

Lemma ascii_digits_forall (P : char -> bool) (ds : str) :
  (forall c, is_ascii_digit c = true -> P c = true) ->
  ascii_digits ds = true -> forallb P ds = true.
Proof.
  intros HP. induction ds as [|c ds IH]; [reflexivity|].
  simpl. intros [Hc Hds]%andb_prop. rewrite HP, IH by assumption. reflexivity.
Qed.

Lemma cleaned_numeral (ip fp : str) :
  ascii_digits ip = true -> ascii_digits fp = true -> ip <> [] ->
  cleaned (ip ++ lit "," ++ fp ++ lit "%") = ip ++ lit "." ++ fp.
Proof.
  intros Hip Hfp Hne. unfold cleaned.
  change (lit ",") with [44]. change (lit "%") with [37].
  change (lit ".") with [46]. change (lit "") with (@nil char).
  rewrite replace_char_delete, replace_char_map.
  rewrite !List.filter_app, !List.map_app.
  assert (Hkeep : forall ds, ascii_digits ds = true ->
            map (fun x => if 44 =? x then 46 else x)
                (List.filter (fun x => negb (37 =? x)) ds) = ds).
  { induction ds as [|c ds IH]; [reflexivity|].
    cbn [ascii_digits forallb]. intros [Hc Hds]%andb_prop.
    apply ascii_digit_cases in Hc. simpl in Hc.
    cbn [List.filter].
    repeat (destruct Hc as [<-|Hc];
            [cbn; f_equal; apply IH; assumption|]).
    contradiction. }
  rewrite (Hkeep ip), (Hkeep fp) by assumption. cbn [List.filter N.eqb Pos.eqb negb map app].
  rewrite app_nil_r.
  apply strip_by_ends_kept.
  destruct ip as [|a ip]; [congruence|].
  cbn [ascii_digits forallb] in Hip. apply andb_prop in Hip as [Ha Hip].
  unfold ends_kept. cbn [app].
  assert (Hsp : forall c, is_ascii_digit c = true -> isspace c = false).
  { intros c Hc. apply ascii_digit_plain in Hc. unfold plain in Hc.
    destruct (isspace c); [discriminate | reflexivity]. }
  rewrite (Hsp a Ha). cbn [negb andb].
  change (a :: ip ++ 46 :: fp) with ((a :: ip) ++ 46 :: fp).
  destruct (exists_last (l := 46 :: fp)) as [s0 [z E]]; [discriminate|].
  rewrite E, app_assoc, last_last.
  assert (Hz : z = 46 \/ is_ascii_digit z = true).
  { destruct fp as [|f fp]; [simpl in E; destruct s0 as [|? [|? ?]]; try discriminate;
      injection E as ->; auto|].
    right.
    assert (In z (f :: fp)).
    { assert (Hin : In z (46 :: f :: fp)) by (rewrite E; apply in_app_iff; right; left; reflexivity).
      destruct Hin as [<-|Hin]; [|assumption].
      destruct s0 as [|x s0]; [discriminate|]. injection E as -> E.
      rewrite E. apply in_app_iff. right. left. reflexivity. }
    unfold ascii_digits in Hfp. rewrite forallb_forall in Hfp. auto. }
  destruct Hz as [->|Hz]; [reflexivity|]. rewrite (Hsp z Hz). reflexivity.
Qed.

Lemma plain_forall (ds : str) :
  ascii_digits ds = true -> forallb plain ds = true.
Proof. apply ascii_digits_forall, ascii_digit_plain. Qed.

Lemma float_of_numeral (ip fp : str) :
  ascii_digits ip = true -> ascii_digits fp = true -> ip <> [] ->
  float_of_str (ip ++ lit "." ++ fp) =
  Ok (float_of_decimal false (digits_value (digit_values (ip ++ fp)))
                       (- Z.of_nat (length fp))).
Proof.
  intros Hip Hfp Hne. change (lit ".") with [46].
  assert (Hall : forallb (fun c => plain c || (c =? 46)) (ip ++ [46] ++ fp) = true).
  { rewrite !forallb_app. cbn [forallb].
    rewrite !(ascii_digits_forall (fun c => plain c || (c =? 46))); auto;
      intros c Hc; rewrite (ascii_digit_plain c Hc); reflexivity. }
  unfold float_of_str.
  assert (Htr : transform_decimal_and_space (ip ++ [46] ++ fp) = ip ++ [46] ++ fp).
  { unfold transform_decimal_and_space.
    replace (forallb (fun c => c <? 128) (ip ++ [46] ++ fp)) with true; [reflexivity|].
    symmetry. rewrite forallb_forall in Hall |- *. intros c Hc.
    specialize (Hall c Hc). apply orb_prop in Hall as [Hp|Hp].
    - unfold plain in Hp. rewrite !andb_true_iff in Hp.
      destruct Hp as [[[[[[[[_ _] Hlt] _] _] _] _] _] _].
      apply N.ltb_lt in Hlt. apply N.ltb_lt. lia.
    - apply N.eqb_eq in Hp as ->. reflexivity. }
  rewrite Htr.
  assert (Hus : existsb (N.eqb 95) (ip ++ [46] ++ fp) = false).
  { apply not_true_is_false. intros [c [Hc E]]%existsb_exists.
    apply N.eqb_eq in E as <-.
    rewrite forallb_forall in Hall. specialize (Hall _ Hc). discriminate. }
  unfold with_underscores. rewrite Hus.
  unfold float_from_string_inner.
  destruct ip as [|a ip]; [congruence|].
  cbn [ascii_digits forallb] in Hip. apply andb_prop in Hip as [Ha Hip].
  pose proof (ascii_digit_plain a Ha) as Hpa.
  unfold plain in Hpa. rewrite !andb_true_iff, !negb_true_iff in Hpa.
  destruct Hpa as [[[[[[[[_ Hsp] _] _] Hminus] Hplus] _] _] _].
  rewrite strip_by_ends_kept.
  2:{ unfold ends_kept. cbn [app]. rewrite Hsp. cbn [negb andb].
      change (a :: ip ++ 46 :: fp) with ((a :: ip) ++ 46 :: fp).
      destruct (exists_last (l := 46 :: fp)) as [s0 [z E]]; [discriminate|].
      rewrite E, app_assoc, last_last.
      assert (Hz : In z (46 :: fp)) by (rewrite E; apply in_app_iff; right; left; reflexivity).
      destruct Hz as [<-|Hz]; [reflexivity|].
      unfold ascii_digits in Hfp. rewrite forallb_forall in Hfp.
      pose proof (ascii_digit_plain z (Hfp z Hz)) as Hpz.
      unfold plain in Hpz. rewrite !andb_true_iff in Hpz.
      destruct Hpz as [[[[[[[[_ Hz'] _] _] _] _] _] _] _]. exact Hz'. }
  unfold strtod. cbn [app take_sign]. rewrite Hminus, Hplus.
  change (a :: ip ++ 46 :: fp) with ((a :: ip) ++ 46 :: fp).
  rewrite span_digits_app; [|cbn [ascii_digits forallb]; rewrite Ha; exact Hip|reflexivity].
  cbn [take_fraction N.eqb Pos.eqb].
  rewrite <- (app_nil_r fp) at 1.
  rewrite span_digits_app; [|assumption|exact I].
  unfold digit_values at 1 2. rewrite <- List.map_app. fold (digit_values ((a :: ip) ++ fp)).
  destruct (digit_values ((a :: ip) ++ fp)) as [|d ds] eqn:Ed; [discriminate|].
  cbn [take_exponent]. rewrite <- Ed.
  unfold digit_values at 2. rewrite length_map.
  replace (0 - Z.of_nat (length fp))%Z with (- Z.of_nat (length fp))%Z by lia.
  reflexivity.
Qed.

Lemma digit_not_space (c : char) :
  is_ascii_digit c = true -> isspace c = false /\ is_c_space c = false.
Proof.
  intros Hc. apply ascii_digit_cases in Hc. simpl in Hc.
  repeat (destruct Hc as [<-|Hc]; [split; reflexivity|]). contradiction.
Qed.

Lemma ends_kept_pointed (sp : char -> bool) (a : char) (pre fp : str) :
  sp a = false -> sp 46 = false ->
  (forall c, is_ascii_digit c = true -> sp c = false) ->
  ascii_digits fp = true ->
  ends_kept sp ((a :: pre) ++ 46 :: fp) = true.
Proof.
  intros Ha Hp Hd Hfp. unfold ends_kept. cbn [app]. rewrite Ha. cbn [negb andb].
  change (a :: pre ++ 46 :: fp) with ((a :: pre) ++ 46 :: fp).
  destruct (exists_last (l := 46 :: fp)) as [s0 [z E]]; [discriminate|].
  rewrite E, app_assoc, last_last.
  assert (Hz : In z (46 :: fp)) by (rewrite E; apply in_app_iff; right; left; reflexivity).
  destruct Hz as [<-|Hz]; [rewrite Hp; reflexivity|].
  unfold ascii_digits in Hfp. rewrite forallb_forall in Hfp.
  rewrite (Hd z (Hfp z Hz)). reflexivity.
Qed.

Lemma digits_cleaned (ds : str) :
  ascii_digits ds = true ->
  map (fun x => if 44 =? x then 46 else x) (List.filter (fun x => negb (37 =? x)) ds) = ds.
Proof.
  induction ds as [|c ds IH]; [reflexivity|].
  cbn [ascii_digits forallb]. intros [Hc Hds]%andb_prop.
  apply ascii_digit_cases in Hc. simpl in Hc.
  cbn [List.filter].
  repeat (destruct Hc as [<-|Hc]; [cbn; f_equal; apply IH; assumption|]).
  contradiction.
Qed.

Lemma spaces_cleaned (w : str) :
  forallb isspace w = true ->
  map (fun x => if 44 =? x then 46 else x) (List.filter (fun x => negb (37 =? x)) w) = w.
Proof.
  induction w as [|c w IH]; [reflexivity|].
  cbn [forallb]. intros [Hc Hw]%andb_prop. cbn [List.filter].
  destruct (37 =? c) eqn:E37; [apply N.eqb_eq in E37 as <-; discriminate|].
  cbn [negb map].
  destruct (44 =? c) eqn:E44; [apply N.eqb_eq in E44 as <-; discriminate|].
  rewrite (IH Hw). reflexivity.
Qed.

Lemma lstrip_by_spaces (sp : char -> bool) (pre s : str) :
  forallb sp pre = true -> lstrip_by sp (pre ++ s) = lstrip_by sp s.
Proof.
  induction pre as [|c pre IH]; [reflexivity|].
  cbn [forallb app lstrip_by]. intros [-> Hpre]%andb_prop. apply IH, Hpre.
Qed.

(** White space around a text whose ends are kept is all that [strip]
    removes. *)
Lemma strip_by_padded (sp : char -> bool) (pre core post : str) :
  forallb sp pre = true -> forallb sp post = true -> ends_kept sp core = true ->
  strip_by sp (pre ++ core ++ post) = core.
Proof.
  intros Hpre Hpost Hcore.
  pose proof (strip_by_ends_kept sp core Hcore) as Hstrip.
  destruct core as [|a core]; [discriminate|].
  pose proof Hcore as Ha. unfold ends_kept in Ha.
  apply andb_prop in Ha as [Ha _]. apply negb_true_iff in Ha.
  unfold strip_by in *. rewrite lstrip_by_head in Hstrip by exact Ha.
  rewrite lstrip_by_spaces by exact Hpre.
  change ((a :: core) ++ post) with (a :: core ++ post).
  rewrite lstrip_by_head by exact Ha.
  change (a :: core ++ post) with ((a :: core) ++ post).
  rewrite rev_app_distr, lstrip_by_spaces; [exact Hstrip|].
  apply forallb_forall. intros c Hc. apply in_rev in Hc.
  rewrite forallb_forall in Hpost. exact (Hpost c Hc).
Qed.

(** The cleaned text of a decimal-comma numeral with white space around
    it, around its percent sign included. *)
Lemma cleaned_padded (pre mid post ip fp : str) :
  forallb isspace pre = true -> forallb isspace mid = true ->
  forallb isspace post = true ->
  ascii_digits ip = true -> ascii_digits fp = true -> ip <> [] ->
  cleaned (pre ++ ip ++ lit "," ++ fp ++ mid ++ lit "%" ++ post) = ip ++ lit "." ++ fp.
Proof.
  intros Hpre Hmid Hpost Hip Hfp Hne. unfold cleaned.
  change (lit ",") with [44]. change (lit "%") with [37].
  change (lit ".") with [46]. change (lit "") with (@nil char).
  rewrite replace_char_delete, replace_char_map.
  rewrite !List.filter_app, !List.map_app.
  rewrite (spaces_cleaned pre), (spaces_cleaned mid), (spaces_cleaned post),
    (digits_cleaned ip), (digits_cleaned fp) by assumption.
  cbn [List.filter N.eqb Pos.eqb negb map].
  replace (pre ++ ip ++ [46] ++ fp ++ mid ++ [] ++ post)
    with (pre ++ (ip ++ [46] ++ fp) ++ (mid ++ post))
    by (cbn [app]; rewrite <- !app_assoc; reflexivity).
  apply strip_by_padded; [exact Hpre | rewrite forallb_app, Hmid, Hpost; reflexivity |].
  destruct ip as [|a ip]; [congruence|].
  cbn [ascii_digits forallb] in Hip. apply andb_prop in Hip as [Ha Hip].
  apply (ends_kept_pointed isspace a ip fp);
    [apply (digit_not_space a Ha) | reflexivity
    | intros c Hd; apply (digit_not_space c Hd) | exact Hfp].
Qed.

(** C5. On well-formed input [parse_percentage] removes the percent signs,
    turns the decimal comma into a point, trims white space and returns the
    float read from what is left: the text handed to [float] is the one the
    spec describes, every float read from it is returned as it is, a
    decimal-comma numeral [ip,fp%] gives the float nearest to its decimal
    value, and ["73,40%"] gives 73.40 within 1e-9.  The trimming is that of
    [str.strip]: white space before the numeral, after it and around the
    percent sign leaves the bare numeral [ip.fp] and changes nothing of the
    result, [" 73,4 % "] is cleaned to ["73.4"], and a leading U+001C,
    which [float] itself would reject, is trimmed as well. *)
Theorem parse_percentage_well_formed (d : float) :
  (forall s, cleaned s = strip (comma_to_point (strip_percent_signs s))) /\
  (forall s v, float_of_str (cleaned s) = Ok v -> parse_percentage (VStr s) d = Ok v) /\
  (forall ip fp,
     ascii_digits ip = true -> ascii_digits fp = true -> ip <> [] ->
     parse_percentage (VStr (ip ++ lit "," ++ fp ++ lit "%")) d =
     Ok (float_of_decimal false (digits_value (digit_values (ip ++ fp)))
                          (- Z.of_nat (length fp)))) /\
  (exists v, parse_percentage (VStr (lit "73,40%")) d = Ok v /\
             v = S754_finite false 5165065822640538 (-46) /\
             (Qabs (to_Q v - (7340 # 100)) <= 1 # 1000000000)%Q) /\
  (forall pre mid post ip fp,
     forallb isspace pre = true -> forallb isspace mid = true ->
     forallb isspace post = true ->
     ascii_digits ip = true -> ascii_digits fp = true -> ip <> [] ->
     cleaned (pre ++ ip ++ lit "," ++ fp ++ mid ++ lit "%" ++ post) = ip ++ lit "." ++ fp /\
     parse_percentage (VStr (pre ++ ip ++ lit "," ++ fp ++ mid ++ lit "%" ++ post)) d =
     Ok (float_of_decimal false (digits_value (digit_values (ip ++ fp)))
                          (- Z.of_nat (length fp)))) /\
  cleaned (lit " 73,4 % ") = lit "73.4" /\
  (float_of_str (28 :: lit "73.4") = Raise ValueError /\
   cleaned (28 :: lit "73,4%") = lit "73.4" /\
   parse_percentage (VStr (28 :: lit "73,4%")) d = Ok (float_of_decimal false 734 (-1))).
Proof.
  split; [|split; [|split; [|split; [|split; [|split]]]]].
  - intros s. unfold cleaned, comma_to_point, strip_percent_signs.
    change (lit ",") with [44]. change (lit "%") with [37].
    change (lit ".") with [46]. change (lit "") with (@nil N).
    rewrite replace_char_delete, replace_char_map. reflexivity.
  - intros s v E. rewrite parse_percentage_str, E. reflexivity.
  - intros ip fp Hip Hfp Hne.
    rewrite parse_percentage_str, cleaned_numeral, float_of_numeral by assumption.
    reflexivity.
  - eexists. split; [reflexivity|]. split; [reflexivity|].
    apply Qle_bool_iff. vm_compute. reflexivity.
  - intros pre mid post ip fp Hpre Hmid Hpost Hip Hfp Hne.
    pose proof (cleaned_padded pre mid post ip fp Hpre Hmid Hpost Hip Hfp Hne) as Hc.
    split; [exact Hc|].
    rewrite parse_percentage_str, Hc, float_of_numeral by assumption.
    reflexivity.
  - vm_compute. reflexivity.
  - split; [vm_compute; reflexivity|]. split; [vm_compute; reflexivity|].
    rewrite parse_percentage_str.
    replace (cleaned (28 :: lit "73,4%")) with (lit "73" ++ lit "." ++ lit "4")
      by (vm_compute; reflexivity).
    rewrite float_of_numeral by (vm_compute; (reflexivity || discriminate)).
    reflexivity.
Qed.

Lemma parse_percentage_well_formed_witness :
  cleaned (lit "  61,2 % ") = lit "61.2" /\
  parse_percentage (VStr (lit "  61,2 % ")) zero = Ok (float_of_decimal false 612 (-1)).
Proof.
  apply (proj1 (proj2 (proj2 (proj2 (proj2 (parse_percentage_well_formed zero)))))
               (lit "  ") (lit " ") (lit " ") (lit "61") (lit "2"));
    vm_compute; (reflexivity || discriminate).
Defined.

(** *** The row sum *)

Lemma cell_value_try (txt : str) (total : float) :
  try_except
    (v ← float_of_str (replace (lit ",") (lit ".") (replace (lit ".") (lit "") txt));
     Ok (fadd total v))
    [ValueError] (Ok total)
  = Ok (match cell_value txt with Some v => fadd total v | None => total end).
Proof.
  unfold cell_value.
  destruct (float_of_str _) as [v|e] eqn:E; [reflexivity|].
  apply float_of_str_raises in E as ->. reflexivity.
Qed.

Section RowSum.
Context `{Dom}.

Lemma sum_cells_spec (cells : list tag) (total : float) :
  sum_cells cells total =
  Ok (fold_left fadd (omap cell_value (map (fun c => get_text c []) cells)) total).
Proof.
  revert total. induction cells as [|c cells IH]; intros total; [reflexivity|].
  cbn [sum_cells map omap].
  destruct (get_text c []) as [|x txt] eqn:E.
  - rewrite IH. change (cell_value []) with (@None float). reflexivity.
  - rewrite cell_value_try. cbn [mbind result_bind bind].
    unfold mbind, result_bind, bind. rewrite IH.
    unfold omap. cbn [list_omap].
    destruct (cell_value (x :: txt)); reflexivity.
Qed.


End RowSum.


(** *** Rounding to binary64

    The results of the float operations are binary64 numbers, and
    [round(x, 2)] of a binary64 number never overflows. *)

Section Rounding.
Local Open Scope Z_scope.

Lemma digits2_pos_bound (p : positive) :
  2 ^ (Zpos (digits2_pos p) - 1) <= Zpos p < 2 ^ Zpos (digits2_pos p).
Proof.
  induction p as [p IH|p IH|]; cbn [digits2_pos].
  - rewrite Pos2Z.inj_succ. replace (Z.succ (Zpos (digits2_pos p)) - 1) with (Zpos (digits2_pos p)) by lia.
    rewrite Z.pow_succ_r by lia.
    replace (2 ^ Zpos (digits2_pos p)) with (2 * 2 ^ (Zpos (digits2_pos p) - 1)) in *
      by (rewrite <- Z.pow_succ_r by lia; f_equal; lia).
    lia.
  - rewrite Pos2Z.inj_succ. replace (Z.succ (Zpos (digits2_pos p)) - 1) with (Zpos (digits2_pos p)) by lia.
    rewrite Z.pow_succ_r by lia.
    replace (2 ^ Zpos (digits2_pos p)) with (2 * 2 ^ (Zpos (digits2_pos p) - 1)) in *
      by (rewrite <- Z.pow_succ_r by lia; f_equal; lia).
    lia.
  - cbn. lia.
Qed.

Lemma Zdigits2_bound (m : Z) :
  0 < m -> 2 ^ (Zdigits2 m - 1) <= m < 2 ^ Zdigits2 m.
Proof. destruct m as [|p|p]; try lia. intros _. apply digits2_pos_bound. Qed.

Lemma Zdigits2_nonneg (m : Z) : 0 <= Zdigits2 m.
Proof. destruct m; cbn; lia. Qed.

Lemma Zdigits2_le (m k : Z) : 0 <= m < 2 ^ k -> 0 <= k -> Zdigits2 m <= k.
Proof.
  intros [H0 Hm] Hk. destruct (Z.eq_dec m 0) as [->|Hne]; [cbn; lia|].
  destruct (Zdigits2_bound m ltac:(lia)) as [Hlo _].
  destruct (Z_lt_le_dec k (Zdigits2 m)) as [Hlt|]; [|lia].
  assert (2 ^ k <= 2 ^ (Zdigits2 m - 1)) by (apply Z.pow_le_mono_r; lia). lia.
Qed.

Lemma Zdigits2_unique (m d : Z) : 0 < m -> 2 ^ (d - 1) <= m < 2 ^ d -> Zdigits2 m = d.
Proof.
  intros Hm [Hlo Hhi].
  destruct (Zdigits2_bound m Hm) as [Hlo' Hhi'].
  pose proof (Zdigits2_nonneg m).
  assert (0 < d).
  { destruct (Z_lt_le_dec 0 d) as [|Hd]; [assumption|].
    destruct (Z.eq_dec d 0) as [->|Hd0]; [cbn in Hhi; lia|].
    rewrite Z.pow_neg_r in Hhi by lia. lia. }
  destruct (Z.lt_trichotomy (Zdigits2 m) d) as [Hlt|[Heq|Hgt]]; [|assumption|].
  - assert (2 ^ Zdigits2 m <= 2 ^ (d - 1)) by (apply Z.pow_le_mono_r; lia). lia.
  - assert (2 ^ d <= 2 ^ (Zdigits2 m - 1)) by (apply Z.pow_le_mono_r; lia). lia.
Qed.

Lemma shr_iter_shift {A} (f : A -> A) (p : positive) (x : A) :
  SpecFloat.iter_pos f p (f x) = f (SpecFloat.iter_pos f p x).
Proof.
  revert x. induction p as [p IH|p IH|]; intros x; cbn [SpecFloat.iter_pos].
  - rewrite !IH. reflexivity.
  - rewrite !IH. reflexivity.
  - reflexivity.
Qed.

Lemma shr_iter_succ {A} (f : A -> A) (p : positive) (x : A) :
  SpecFloat.iter_pos f (Pos.succ p) x = f (SpecFloat.iter_pos f p x).
Proof.
  revert x. induction p as [p IH|p IH|]; intros x.
  - change (Pos.succ p~1) with (Pos.succ p)~0%positive. cbn [SpecFloat.iter_pos].
    rewrite !IH, !shr_iter_shift. reflexivity.
  - change (Pos.succ p~0) with p~1%positive. cbn [SpecFloat.iter_pos].
    rewrite !shr_iter_shift. reflexivity.
  - reflexivity.
Qed.

Lemma shr_1_m (r : shr_record) :
  0 <= shr_m r -> shr_m (shr_1 r) = shr_m r / 2 /\ 0 <= shr_m (shr_1 r).
Proof.
  destruct r as [m r s]. cbn [shr_m]. intros Hm.
  destruct m as [|[p|p|]|p]; cbn [shr_1 shr_m]; try lia.
  - split; [reflexivity | lia].
  - split; [|lia]. apply Z.div_unique with (r := 1); lia.
  - split; [|lia]. apply Z.div_unique with (r := 0); lia.
  - split; [reflexivity | lia].
Qed.

Lemma iter_shr_1_m (p : positive) (r : shr_record) :
  0 <= shr_m r ->
  shr_m (SpecFloat.iter_pos shr_1 p r) = shr_m r / 2 ^ Zpos p /\ 0 <= shr_m (SpecFloat.iter_pos shr_1 p r).
Proof.
  intros Hm. induction p as [|p IH] using Pos.peano_ind.
  - cbn [SpecFloat.iter_pos]. change (2 ^ 1) with 2. apply shr_1_m, Hm.
  - rewrite shr_iter_succ. destruct IH as [IH1 IH2].
    destruct (shr_1_m (SpecFloat.iter_pos shr_1 p r) IH2) as [E1 E2].
    split; [|exact E2]. rewrite E1, IH1, Pos2Z.inj_succ, Z.pow_succ_r by lia.
    rewrite Z.div_div by lia. f_equal. lia.
Qed.

Lemma shr_1_exact (m : Z) :
  0 <= m ->
  shr_1 {| shr_m := 2 * m; shr_r := false; shr_s := false |} =
  {| shr_m := m; shr_r := false; shr_s := false |}.
Proof. destruct m as [|p|p]; try lia; reflexivity. Qed.

Lemma iter_shr_1_exact (p : positive) (m : Z) :
  0 <= m ->
  SpecFloat.iter_pos shr_1 p {| shr_m := m * 2 ^ Zpos p; shr_r := false; shr_s := false |} =
  {| shr_m := m; shr_r := false; shr_s := false |}.
Proof.
  intros Hm. revert m Hm. induction p as [|p IH] using Pos.peano_ind; intros m Hm.
  - cbn [SpecFloat.iter_pos]. change (2 ^ 1) with 2. rewrite Z.mul_comm. apply shr_1_exact, Hm.
  - rewrite shr_iter_succ, Pos2Z.inj_succ, Z.pow_succ_r by lia.
    replace (m * (2 * 2 ^ Zpos p)) with ((2 * m) * 2 ^ Zpos p) by lia.
    rewrite IH by lia. apply shr_1_exact, Hm.
Qed.

Lemma fexp64_eq (x : Z) : fexp 53 1024 x = fexp64 x.
Proof. reflexivity. Qed.

Lemma shr_record_of_loc_m (m : Z) (l : location) : shr_m (shr_record_of_loc m l) = m.
Proof. destruct l as [|[]]; reflexivity. Qed.

Lemma shr_fexp_spec (m e : Z) (l : location) :
  0 <= m ->
  let t := fexp64 (Zdigits2 m + e) in
  let e' := snd (shr_fexp 53 1024 m e l) in
  let m' := shr_m (fst (shr_fexp 53 1024 m e l)) in
  e' = Z.max e t /\ m' = m / 2 ^ (e' - e) /\ 0 <= m'.
Proof.
  intros Hm t e' m'. subst e' m'. unfold shr_fexp. rewrite fexp64_eq. fold t.
  unfold shr. destruct (t - e) as [|p|p] eqn:En; cbn [fst snd].
  - rewrite shr_record_of_loc_m. replace (Z.max e t) with e by lia.
    rewrite Z.sub_diag. cbn. rewrite Z.div_1_r. lia.
  - destruct (iter_shr_1_m p (shr_record_of_loc m l)) as [E1 E2];
      [rewrite shr_record_of_loc_m; exact Hm|].
    rewrite shr_record_of_loc_m in E1.
    replace (Z.max e t) with (e + Zpos p) by lia.
    replace (e + Zpos p - e) with (Zpos p) by lia. auto.
  - rewrite shr_record_of_loc_m. replace (Z.max e t) with e by lia.
    rewrite Z.sub_diag. cbn. rewrite Z.div_1_r. lia.
Qed.

Lemma div_pow2_lt (m d n : Z) :
  0 <= m < 2 ^ d -> 0 <= n <= d -> m / 2 ^ n < 2 ^ (d - n).
Proof.
  intros [H0 Hm] [Hn Hd].
  apply Z.div_lt_upper_bound; [apply Z.pow_pos_nonneg; lia|].
  rewrite <- Z.pow_add_r by lia. replace (n + (d - n)) with d by lia. exact Hm.
Qed.

Lemma shr_fexp_digits (m e : Z) (l : location) :
  0 <= m -> Zdigits2 (shr_m (fst (shr_fexp 53 1024 m e l))) <= 53.
Proof.
  intros Hm. destruct (shr_fexp_spec m e l Hm) as (Ee & Em & H0).
  set (d := Zdigits2 m) in *. pose proof (Zdigits2_nonneg m) as Hd. fold d in Hd.
  assert (Hlt : m < 2 ^ d).
  { destruct (Z.eq_dec m 0) as [->|]; [subst d; cbn; lia|].
    apply Zdigits2_bound. lia. }
  apply Zdigits2_le; [|lia]. split; [exact H0|]. rewrite Em.
  set (n := snd (shr_fexp 53 1024 m e l) - e) in *.
  assert (Hn : 0 <= n /\ d - 53 <= n) by (unfold fexp64 in Ee; lia).
  destruct (Z_le_gt_dec n d) as [Hle|Hgt].
  - assert (m / 2 ^ n < 2 ^ (d - n)) by (apply div_pow2_lt; lia).
    assert (2 ^ (d - n) <= 2 ^ 53) by (apply Z.pow_le_mono_r; lia). lia.
  - assert (2 ^ d <= 2 ^ n) by (apply Z.pow_le_mono_r; lia).
    rewrite Z.div_small by lia. apply Z.pow_pos_nonneg; lia.
Qed.

Lemma round_nearest_even_bound (m : Z) (l : location) :
  m <= round_nearest_even m l <= m + 1.
Proof. destruct l as [|[]]; cbn; try lia. destruct (Z.even m); lia. Qed.

Lemma binary_round_aux_eq (s : bool) (m e : Z) (l : location) :
  binary_round_aux 53 1024 s m e l =
  let p1 := shr_fexp 53 1024 m e l in
  let p2 := shr_fexp 53 1024
              (round_nearest_even (shr_m (fst p1)) (loc_of_shr_record (fst p1)))
              (snd p1) loc_Exact in
  match shr_m (fst p2) with
  | Z0 => S754_zero s
  | Zpos m' => if snd p2 <=? 971 then S754_finite s m' (snd p2) else S754_infinity s
  | Zneg _ => S754_nan
  end.
Proof.
  unfold binary_round_aux. destruct (shr_fexp 53 1024 m e l) as [mrs' e'].
  cbn [fst snd]. destruct (shr_fexp 53 1024 _ e' loc_Exact) as [mrs'' e''].
  reflexivity.
Qed.

(** A finite result of the rounding is a binary64 number. *)
Lemma binary_round_aux_bounded (s : bool) (m e : Z) (l : location)
      (s' : bool) (m' : positive) (e' : Z) :
  0 <= m ->
  binary_round_aux 53 1024 s m e l = S754_finite s' m' e' ->
  Zpos m' < 2 ^ 53 /\ e' <= 971.
Proof.
  intros Hm. rewrite binary_round_aux_eq. cbv zeta.
  set (p1 := shr_fexp 53 1024 m e l).
  set (r := round_nearest_even (shr_m (fst p1)) (loc_of_shr_record (fst p1))).
  destruct (shr_fexp_spec m e l Hm) as (_ & _ & H1). fold p1 in H1.
  assert (Hr : 0 <= r) by (pose proof (round_nearest_even_bound (shr_m (fst p1))
                             (loc_of_shr_record (fst p1))); subst r; lia).
  pose proof (shr_fexp_digits r (snd p1) loc_Exact Hr) as Hd.
  destruct (shr_m (fst (shr_fexp 53 1024 r (snd p1) loc_Exact))) as [|q|q] eqn:Eq;
    try discriminate.
  destruct (snd (shr_fexp 53 1024 r (snd p1) loc_Exact) <=? 971) eqn:Ee; [|discriminate].
  intros [= <- <- <-]. apply Z.leb_le in Ee. split; [|exact Ee].
  destruct (Zdigits2_bound (Zpos q) ltac:(lia)) as [_ Hhi].
  assert (2 ^ Zdigits2 (Zpos q) <= 2 ^ 53) by (apply Z.pow_le_mono_r; lia). lia.
Qed.

(** Below 2^1023 the rounding cannot overflow. *)
Lemma binary_round_aux_no_overflow (s : bool) (m e : Z) (l : location) (s' : bool) :
  0 <= m -> e <= 971 -> Zdigits2 m + e <= 1023 ->
  binary_round_aux 53 1024 s m e l <> S754_infinity s'.
Proof.
  intros Hm He Hd. rewrite binary_round_aux_eq. cbv zeta.
  set (p1 := shr_fexp 53 1024 m e l).
  set (r := round_nearest_even (shr_m (fst p1)) (loc_of_shr_record (fst p1))).
  destruct (shr_fexp_spec m e l Hm) as (E1 & M1 & H1). fold p1 in E1, M1, H1.
  pose proof (round_nearest_even_bound (shr_m (fst p1)) (loc_of_shr_record (fst p1))) as Hb.
  fold r in Hb.
  assert (Hr : 0 <= r) by lia.
  destruct (shr_fexp_spec r (snd p1) loc_Exact Hr) as (E2 & _ & _).
  set (d := Zdigits2 m) in *. pose proof (Zdigits2_nonneg m) as Hd0. fold d in Hd0.
  assert (Hlt : m < 2 ^ d).
  { destruct (Z.eq_dec m 0) as [->|]; [subst d; cbn; lia|]. apply Zdigits2_bound. lia. }
  set (n := snd p1 - e) in *.
  assert (Hn : 0 <= n) by (unfold fexp64 in E1; lia).
  assert (He1 : snd p1 <= 971) by (unfold fexp64 in E1; lia).
  (* the digits of the rounded mantissa *)
  assert (Hdr : Zdigits2 r + snd p1 <= 1024).
  { destruct (Z_le_gt_dec n d) as [Hle|Hgt].
    - assert (shr_m (fst p1) < 2 ^ (d - n)) by (rewrite M1; apply div_pow2_lt; lia).
      assert (Zdigits2 r <= d - n + 1).
      { apply Zdigits2_le; [|lia]. rewrite Z.pow_add_r by lia. change (2 ^ 1) with 2. lia. }
      lia.
    - assert (2 ^ d <= 2 ^ n) by (apply Z.pow_le_mono_r; lia).
      assert (shr_m (fst p1) = 0) by (rewrite M1; apply Z.div_small; lia).
      assert (Zdigits2 r <= 1) by (apply Zdigits2_le; [change (2 ^ 1) with 2|]; lia).
      lia. }
  assert (He2 : snd (shr_fexp 53 1024 r (snd p1) loc_Exact) <= 971)
    by (unfold fexp64 in E2; lia).
  apply Z.leb_le in He2. rewrite He2.
  destruct (shr_m (fst (shr_fexp 53 1024 r (snd p1) loc_Exact))); discriminate.
Qed.

Lemma binary_round_aux_top (s : bool) (m : positive) :
  2 ^ 52 <= Zpos m < 2 ^ 53 ->
  binary_round_aux 53 1024 s (Zpos m * 2 ^ 971) 0 loc_Exact = S754_finite s m 971.
Proof.
  intros Hm. rewrite binary_round_aux_eq. cbv zeta.
  assert (Hpos : 0 < 2 ^ 971) by (apply Z.pow_pos_nonneg; lia).
  assert (Hd : Zdigits2 (Zpos m * 2 ^ 971) = 1024).
  { apply Zdigits2_unique; [lia|].
    replace (1024 - 1) with (52 + 971) by lia.
    replace 1024 with (53 + 971) at 2 by lia.
    rewrite !Z.pow_add_r by lia. nia. }
  assert (E1 : shr_fexp 53 1024 (Zpos m * 2 ^ 971) 0 loc_Exact =
               ({| shr_m := Zpos m; shr_r := false; shr_s := false |}, 971)).
  { unfold shr_fexp. rewrite Hd. change (fexp 53 1024 (1024 + 0) - 0) with (Zpos 971).
    unfold shr. cbn [shr_record_of_loc]. rewrite iter_shr_1_exact by lia. reflexivity. }
  rewrite E1. cbn [fst snd shr_m loc_of_shr_record round_nearest_even].
  assert (Hd2 : Zdigits2 (Zpos m) = 53) by (apply Zdigits2_unique; lia).
  assert (E2 : shr_fexp 53 1024 (Zpos m) 971 loc_Exact =
               ({| shr_m := Zpos m; shr_r := false; shr_s := false |}, 971)).
  { unfold shr_fexp. rewrite Hd2. reflexivity. }
  rewrite E2. reflexivity.
Qed.

Lemma SFdiv_core_100 (k : positive) :
  exists q e' l,
    SFdiv_core_binary 53 1024 (Zpos k) 0 100 0 = (q, e', l) /\
    e' = Z.min (fexp64 (Zdigits2 (Zpos k) - 7)) 0 /\
    q = (Zpos k * 2 ^ (- e')) / 100 /\
    ((Zpos k * 2 ^ (- e')) mod 100 = 0 -> l = loc_Exact).
Proof.
  unfold SFdiv_core_binary.
  change (Zdigits2 100) with 7.
  replace (Zdigits2 (Zpos k) + 0 - (7 + 0)) with (Zdigits2 (Zpos k) - 7) by lia.
  rewrite fexp64_eq. change (0 - 0) with 0.
  set (e' := Z.min (fexp64 (Zdigits2 (Zpos k) - 7)) 0).
  assert (He : e' <= 0) by (subst e'; lia).
  set (m' := match 0 - e' with
             | 0 => Zpos k
             | Zpos _ => Z.shiftl (Zpos k) (0 - e')
             | Zneg _ => 0
             end).
  assert (Hm' : m' = Zpos k * 2 ^ (- e')).
  { subst m'. destruct (0 - e') as [|p|p] eqn:E.
    - replace (- e') with 0 by lia. cbn. lia.
    - rewrite Z.shiftl_mul_pow2 by lia. f_equal. f_equal. lia.
    - lia. }
  pose proof (Z_div_mod m' 100 ltac:(lia)) as Hdm.
  unfold Z.div, Z.modulo in *.
  destruct (Z.div_eucl m' 100) as [q r] eqn:Ed.
  exists q, e', (new_location 100 r). split; [reflexivity|]. split; [reflexivity|].
  rewrite <- Hm'. rewrite Ed. split; [reflexivity|].
  intros ->. reflexivity.
Qed.

Lemma SFdiv_100_no_overflow (s : bool) (k : positive) (s' : bool) :
  Zpos k < 100 * 2 ^ 1023 ->
  SFdiv 53 1024 (S754_finite s k 0) (S754_finite false 100 0) <> S754_infinity s'.
Proof.
  intros Hk. cbn [SFdiv].
  destruct (SFdiv_core_100 k) as (q & e' & l & -> & He & Hq & _).
  assert (He0 : e' <= 0) by lia.
  assert (Hp : 0 < 2 ^ (- e')) by (apply Z.pow_pos_nonneg; lia).
  assert (Hq0 : 0 <= q) by (rewrite Hq; apply Z.div_pos; lia).
  apply binary_round_aux_no_overflow; [exact Hq0 | lia |].
  assert (Hlt : q < 2 ^ (1023 - e')).
  { rewrite Hq. apply Z.div_lt_upper_bound; [lia|].
    replace (1023 - e') with (1023 + - e') by lia.
    rewrite Z.pow_add_r by lia. nia. }
  pose proof (Zdigits2_le q (1023 - e') ltac:(lia) ltac:(lia)). lia.
Qed.

Lemma SFdiv_100_top (s : bool) (m k : positive) :
  2 ^ 52 <= Zpos m < 2 ^ 53 -> Zpos k = Zpos m * 2 ^ 971 * 100 ->
  SFdiv 53 1024 (S754_finite s k 0) (S754_finite false 100 0) = S754_finite s m 971.
Proof.
  intros Hm Hk. cbn [SFdiv].
  destruct (SFdiv_core_100 k) as (q & e' & l & -> & He & Hq & Hl).
  assert (Hpos : 0 < 2 ^ 971) by (apply Z.pow_pos_nonneg; lia).
  assert (Hd : 1030 <= Zdigits2 (Zpos k)).
  { destruct (Z_lt_le_dec (Zdigits2 (Zpos k)) 1030) as [Hlt|]; [|assumption].
    destruct (Zdigits2_bound (Zpos k) ltac:(lia)) as [_ Hhi].
    assert (2 ^ Zdigits2 (Zpos k) <= 2 ^ 1029) by (apply Z.pow_le_mono_r; lia).
    replace 1029 with (52 + 971 + 6) in H by lia.
    rewrite !Z.pow_add_r in H by lia. change (2 ^ 6) with 64 in H. nia. }
  assert (He' : e' = 0) by (unfold fexp64 in He; lia).
  clear He. subst e'. change (2 ^ (- 0)) with 1 in Hq, Hl. rewrite Z.mul_1_r in Hq, Hl.
  assert (Hq' : q = Zpos m * 2 ^ 971) by (rewrite Hq, Hk; apply Z.div_mul; lia).
  rewrite Hl by (rewrite Hk; apply Z.mod_mul; lia).
  rewrite Hq'. rewrite xorb_false_r. apply binary_round_aux_top, Hm.
Qed.

Lemma div_half_even_bound (n d : Z) :
  0 <= n -> 0 < d -> 0 <= div_half_even n d <= n / d + 1.
Proof.
  intros Hn Hd. unfold div_half_even.
  assert (0 <= n / d) by (apply Z.div_pos; lia).
  destruct (2 * (n mod d) ?= d); try destruct (Z.even (n / d)); lia.
Qed.

Lemma div_half_even_1 (n : Z) : div_half_even n 1 = n.
Proof.
  unfold div_half_even. rewrite Z.mod_1_r, Z.div_1_r. reflexivity.
Qed.

Lemma round_2_returns (x : float) : binary64 x -> exists r, round x 2 = Ok r.
Proof.
  destruct x as [s|s| |s m e]; try (intros _; eexists; reflexivity).
  intros [Hm He]. unfold round.
  change (NDIGITS_MAX <? 2) with false. change (2 <? NDIGITS_MIN) with false.
  cbv iota.
  change (Z.max 2 0) with 2. change (Z.max (- (2)) 0) with 0.
  change (10 ^ 2) with 100. change (10 ^ 0) with 1. rewrite Z.mul_1_r.
  set (k := div_half_even (Zpos m * 2 ^ Z.max e 0 * 100) (2 ^ Z.max (- e) 0)).
  assert (Hcases : k < 100 * 2 ^ 1023 \/
                   (2 ^ 52 <= Zpos m /\ e = 971 /\ k = Zpos m * 2 ^ 971 * 100)).
  { destruct (Z_lt_le_dec e 0) as [Hneg|Hpos].
    - left. subst k. replace (Z.max e 0) with 0 by lia. replace (Z.max (- e) 0) with (- e) by lia.
      change (2 ^ 0) with 1. rewrite Z.mul_1_r.
      assert (Hp : 2 <= 2 ^ (- e)).
      { change 2 with (2 ^ 1) at 1. apply Z.pow_le_mono_r; lia. }
      pose proof (div_half_even_bound (Zpos m * 100) (2 ^ (- e)) ltac:(lia) ltac:(lia)) as Hb.
      assert (Zpos m * 100 / 2 ^ (- e) <= Zpos m * 100).
      { apply Z.div_le_upper_bound; nia. }
      assert (2 ^ 53 * 100 + 1 < 100 * 2 ^ 1023) by (vm_compute; reflexivity).
      lia.
    - subst k. replace (Z.max e 0) with e by lia. replace (Z.max (- e) 0) with 0 by lia.
      change (2 ^ 0) with 1. rewrite div_half_even_1.
      destruct (Z_lt_le_dec (Zpos m * 2 ^ e) (2 ^ 1023)) as [Hlt|Hge]; [left; lia|].
      right.
      assert (e = 971).
      { destruct (Z.eq_dec e 971); [assumption|exfalso].
        assert (2 ^ e <= 2 ^ 970) by (apply Z.pow_le_mono_r; lia).
        assert (2 ^ 1023 = 2 ^ 53 * 2 ^ 970) by (rewrite <- Z.pow_add_r by lia; reflexivity).
        assert (0 < 2 ^ e) by (apply Z.pow_pos_nonneg; lia). nia. }
      subst e. repeat split; try reflexivity.
      assert (2 ^ 1023 = 2 ^ 52 * 2 ^ 971) by (rewrite <- Z.pow_add_r by lia; reflexivity).
      assert (0 < 2 ^ 971) by (apply Z.pow_pos_nonneg; lia). nia. }
  unfold float_of_decimal. destruct k as [|p|p] eqn:Ek; try (eexists; reflexivity).
  change (0 <=? - (2)) with false. cbv iota.
  change (Z.to_pos (10 ^ (- - (2)))) with 100%positive.
  destruct Hcases as [Hlt | (Hm52 & -> & Hk)].
  - pose proof (fun s' => SFdiv_100_no_overflow s p s' Hlt) as Hno.
    destruct (SFdiv prec emax (S754_finite s p 0) (S754_finite false 100 0)) as [| s'| |] eqn:Ed;
      try (eexists; reflexivity).
    exfalso. apply (Hno s'). exact Ed.
  - change prec with 53. change emax with 1024.
    rewrite (SFdiv_100_top s m p) by first [exact Hk | split; assumption]. eexists. reflexivity.
Qed.

Lemma fmul_binary64 (x y : float) : binary64 (fmul x y).
Proof.
  unfold fmul. destruct x as [sx|sx| |sx mx ex], y as [sy|sy| |sy my ey]; try exact I.
  cbn [SFmul]. change prec with 53. change emax with 1024.
  destruct (binary_round_aux 53 1024 _ _ _ _) as [| | |s m e] eqn:E; try exact I.
  apply binary_round_aux_bounded in E; [exact E | lia].
Qed.

Lemma ratio_pct_returns (a t : float) : exists v, ratio_pct a t = Ok v.
Proof.
  unfold ratio_pct, truediv. destruct (truthy t); [|eexists; reflexivity].
  cbn. apply round_2_returns, fmul_binary64.
Qed.

End Rounding.

(** *** The ratio *)

(** The integer nearest to [n / d], and the even one of two at a tie. *)
Lemma div_half_even_nearest (n d : Z) :
  (0 < d)%Z ->
  (Z.abs (2 * (n - div_half_even n d * d)) <= d)%Z /\
  (Z.abs (2 * (n - div_half_even n d * d)) = d -> Z.even (div_half_even n d) = true).
Proof.
  intros Hd. unfold div_half_even.
  pose proof (Z.div_mod n d ltac:(lia)) as Hn.
  pose proof (Z.mod_pos_bound n d Hd) as Hr.
  set (q := (n / d)%Z) in *. set (r := (n mod d)%Z) in *.
  assert (Hq1 : ((q + 1) * d = d * q + d)%Z) by ring.
  assert (Hq0 : (q * d = d * q)%Z) by ring.
  destruct (Z.compare_spec (2 * r) d) as [E|L|G].
  - destruct (Z.even q) eqn:Ev.
    + rewrite Hq0. split; [lia|]. intros _. exact Ev.
    + rewrite Hq1. split; [lia|]. intros _.
      rewrite Z.even_add, Ev. reflexivity.
  - rewrite Hq0. split; lia.
  - rewrite Hq1. split; lia.
Qed.

(** What [round(x, 2)] returns for a finite [x]. *)
Lemma round_2_finite (s : bool) (m : positive) (e : Z) (v : float) :
  round (S754_finite s m e) 2 = Ok v ->
  v = float_of_decimal s
        (div_half_even (Zpos m * 2 ^ Z.max e 0 * 100) (2 ^ Z.max (- e) 0)) (-2).
Proof.
  unfold round.
  replace (NDIGITS_MAX <? 2)%Z with false by reflexivity.
  replace (2 <? NDIGITS_MIN)%Z with false by reflexivity.
  change (10 ^ Z.max 2 0)%Z with 100%Z. change (10 ^ Z.max (- (2)) 0)%Z with 1%Z.
  rewrite Z.mul_1_r. change (- (2))%Z with (-2)%Z.
  destruct (float_of_decimal s _ (-2)); congruence.
Qed.

(** The integer [round(x, 2)] reads back is a nearest one to [100 |x|]. *)
Lemma round_2_nearest (m : positive) (e : Z) :
  let k := div_half_even (Zpos m * 2 ^ Z.max e 0 * 100) (2 ^ Z.max (- e) 0) in
  (Qabs (to_Q (S754_finite false m e) * 100 - inject_Z k) <= 1 # 2)%Q /\
  (Qabs (to_Q (S754_finite false m e) * 100 - inject_Z k) == 1 # 2 ->
   Z.even k = true)%Q.
Proof.
  intros k. subst k. unfold to_Q.
  destruct (0 <=? e)%Z eqn:Ee.
  - apply Z.leb_le in Ee.
    rewrite Z.max_l, Z.max_r by lia. change (2 ^ 0)%Z with 1%Z.
    rewrite div_half_even_1.
    assert (H0 : (inject_Z (Z.pos m * 2 ^ e) * 100 - inject_Z (Z.pos m * 2 ^ e * 100) == 0)%Q).
    { unfold Qeq, Qminus, Qplus, Qmult, Qopp, inject_Z. cbn [Qnum Qden]. lia. }
    split.
    + rewrite H0. discriminate.
    + rewrite H0. intros H. discriminate H.
  - apply Z.leb_gt in Ee.
    rewrite Z.max_r, Z.max_l by lia. change (2 ^ 0)%Z with 1%Z. rewrite Z.mul_1_r.
    assert (HD : (0 < 2 ^ (- e))%Z) by (apply Z.pow_pos_nonneg; lia).
    destruct (div_half_even_nearest (Z.pos m * 100) (2 ^ (- e)) HD) as [Hle Htie].
    set (k := div_half_even (Z.pos m * 100) (2 ^ (- e))) in *.
    set (D := (2 ^ (- e))%Z) in *.
    assert (HP : Z.pos (Z.to_pos D) = D) by (apply Z2Pos.id; exact HD).
    unfold Qle, Qeq, Qabs, Qminus, Qplus, Qmult, Qopp, inject_Z. cbn [Qnum Qden].
    rewrite !Pos.mul_1_r, HP.
    replace (Z.pos m * 100 * 1 + - k * D)%Z with (Z.pos m * 100 - k * D)%Z by ring.
    split; [lia|]. intros H. apply Htie. lia.
Qed.

(** C7. When the total is zero the ratio is 0.0; no call raises, and in
    particular the division never raises [ZeroDivisionError]; for every
    other total the ratio is [round(available / total * 100, 2)], that is:
    when the product [x] is finite, the float read from the decimal [k/100]
    with the sign of [x], where [k] is the integer nearest to [100 |x|], the
    even one at a tie; and the product itself when it is a zero, infinite or
    NaN.  So 1/32, whose product is exactly 3.125, gives 3.12 and not 3.125,
    and 2/3 gives 66.67. *)
Theorem ratio_pct_guarded (available total : float) :
  (truthy total = false -> ratio_pct available total = Ok zero) /\
  (forall s, ratio_pct available (S754_zero s) = Ok zero) /\
  ratio_pct available total <> Raise ZeroDivisionError /\
  (exists v, ratio_pct available total = Ok v) /\
  (truthy total = true ->
   ratio_pct available total =
   round (fmul (SFdiv prec emax available total) (float_of_Z 100)) 2) /\
  (truthy total = true ->
   forall s m e,
     fmul (SFdiv prec emax available total) (float_of_Z 100) = S754_finite s m e ->
     exists k : Z,
       ratio_pct available total = Ok (float_of_decimal s k (-2)) /\
       (Qabs (to_Q (S754_finite false m e) * 100 - inject_Z k) <= 1 # 2)%Q /\
       (Qabs (to_Q (S754_finite false m e) * 100 - inject_Z k) == 1 # 2 ->
        Z.even k = true)%Q) /\
  (truthy total = true ->
   match fmul (SFdiv prec emax available total) (float_of_Z 100) with
   | S754_finite _ _ _ => True
   | x => ratio_pct available total = Ok x
   end) /\
  (fmul (SFdiv prec emax (float_of_Z 1) (float_of_Z 32)) (float_of_Z 100)
   = float_of_decimal false 3125 (-3) /\
   ratio_pct (float_of_Z 1) (float_of_Z 32) = Ok (float_of_decimal false 312 (-2)) /\
   float_of_decimal false 312 (-2) <> float_of_decimal false 3125 (-3) /\
   ratio_pct (float_of_Z 2) (float_of_Z 3) = Ok (float_of_decimal false 6667 (-2))).
Proof.
  destruct (ratio_pct_returns available total) as [v Hv].
  assert (Hround : truthy total = true ->
            ratio_pct available total =
            round (fmul (SFdiv prec emax available total) (float_of_Z 100)) 2).
  { unfold ratio_pct, truediv. intros ->. reflexivity. }
  split; [|split; [|split; [|split; [|split; [|split; [|split]]]]]].
  - unfold ratio_pct. intros ->. reflexivity.
  - reflexivity.
  - rewrite Hv. discriminate.
  - exists v. exact Hv.
  - exact Hround.
  - intros Ht s m e Hx.
    pose proof Hv as Hv'. rewrite (Hround Ht), Hx in Hv'.
    apply round_2_finite in Hv'.
    destruct (round_2_nearest m e) as [Hle Htie].
    eexists. split; [|split; [exact Hle | exact Htie]].
    rewrite Hv, Hv'. reflexivity.
  - intros Ht. rewrite (Hround Ht).
    destruct (fmul _ _); [reflexivity | reflexivity | reflexivity | exact I].
  - split; [vm_compute; reflexivity|]. split; [vm_compute; reflexivity|].
    split; [vm_compute; discriminate | vm_compute; reflexivity].
Qed.

Lemma ratio_pct_guarded_witness :
  ratio_pct (float_of_Z 1) (float_of_Z 32) =
  round (fmul (SFdiv prec emax (float_of_Z 1) (float_of_Z 32)) (float_of_Z 100)) 2
  /\ ratio_pct (float_of_Z 1) (float_of_Z 32) = Ok (float_of_decimal false 312 (-2))
  /\ ratio_pct (float_of_Z 765) (S754_zero true) = Ok zero.
Proof.
  split; [|split].
  - exact (proj1 (proj2 (proj2 (proj2 (proj2 (ratio_pct_guarded (float_of_Z 1) (float_of_Z 32))))))
                 eq_refl).
  - exact (proj1 (proj2 (proj2 (proj2 (proj2 (proj2 (proj2 (proj2 (proj2
             (ratio_pct_guarded (float_of_Z 1) (float_of_Z 32))))))))))).
  - exact (proj1 (ratio_pct_guarded (float_of_Z 765) (S754_zero true)) eq_refl).
Defined.

(** *** The choice of the selector *)

Section Selectors.
Context `{Dom}.

Lemma pick_cards_first (bs : soup) (pre : list str) (sel : str) (post : list str)
      (init : list tag) :
  Forall (fun s => (length (select bs s) < 7)%nat) pre ->
  (7 <= length (select bs sel))%nat ->
  pick_cards bs (pre ++ sel :: post) init = select bs sel.
Proof.
  intros Hpre Hsel. revert init.
  induction Hpre as [|s pre Hs Hpre IH]; intros init; cbn [app pick_cards].
  - apply Nat.leb_le in Hsel. rewrite Hsel. reflexivity.
  - apply Nat.leb_gt in Hs. rewrite Hs. apply IH.
Qed.

Lemma pick_cards_last (bs : soup) (pre : list str) (sel : str) (init : list tag) :
  Forall (fun s => (length (select bs s) < 7)%nat) pre ->
  pick_cards bs (pre ++ [sel]) init = select bs sel.
Proof.
  intros Hpre. revert init.
  induction Hpre as [|s pre Hs Hpre IH]; intros init; cbn [app pick_cards].
  - destruct (7 <=? _)%nat; reflexivity.
  - apply Nat.leb_gt in Hs. rewrite Hs. apply IH.
Qed.

(** C2. The extractor tries its selectors in the listed order and works on
    the matches of the first one that yields seven elements or more; when
    none does, it works on what the last one yields.  With 3, 5 and 12
    matches for the first three selectors, the 12 matches of the third are
    used. *)
Theorem selector_fallback (html : str) :
  let bs := BeautifulSoup html in
  (forall pre sel post,
     selectors = pre ++ sel :: post ->
     Forall (fun s => (length (select bs s) < 7)%nat) pre ->
     (7 <= length (select bs sel))%nat ->
     pick_cards bs selectors [] = select bs sel /\
     _parse_accu_15day html = records_of (select bs sel)) /\
  (Forall (fun s => (length (select bs s) < 7)%nat) selectors ->
   pick_cards bs selectors [] = select bs (lit "div.daily-list a") /\
   _parse_accu_15day html = records_of (select bs (lit "div.daily-list a"))) /\
  (length (select bs (lit "a.daily-forecast-card")) = 3%nat ->
   length (select bs (lit "div.daily-forecast-card")) = 5%nat ->
   length (select bs (lit "li.daily-forecast-card")) = 12%nat ->
   pick_cards bs selectors [] = select bs (lit "li.daily-forecast-card") /\
   _parse_accu_15day html = records_of (select bs (lit "li.daily-forecast-card"))).
Proof.
  intros bs. unfold _parse_accu_15day. fold bs.
  split; [|split].
  - intros pre sel post E Hpre Hsel. rewrite E.
    rewrite (pick_cards_first bs pre sel post [] Hpre Hsel). auto.
  - intros Hall.
    assert (E : pick_cards bs selectors [] = select bs (lit "div.daily-list a")).
    { change selectors with (removelast selectors ++ [lit "div.daily-list a"]) in *.
      apply Forall_app in Hall as [Hpre _].
      apply pick_cards_last, Hpre. }
    rewrite E. auto.
  - intros H3 H5 H12.
    assert (E : pick_cards bs selectors [] = select bs (lit "li.daily-forecast-card")).
    { apply (pick_cards_first bs
               [lit "a.daily-forecast-card"; lit "div.daily-forecast-card"]
               (lit "li.daily-forecast-card")).
      - constructor; [lia|constructor; [lia|constructor]].
      - lia. }
    rewrite E. auto.
Qed.

End Selectors.

(** *** Decimal characters *)

Lemma decimal_in_chars (runs : list N) (c : char) (d : Z) :
  decimal_in runs c = Some d ->
  In c (flat_map (fun z => map (fun k => z + k) [0; 1; 2; 3; 4; 5; 6; 7; 8; 9]) runs).
Proof.
  induction runs as [|z runs IH]; [discriminate|].
  cbn [decimal_in flat_map]. intros E. apply in_app_iff.
  destruct ((z <=? c) && (c <=? z + 9)) eqn:Hz; [left | right; auto].
  apply andb_prop in Hz as [H1 H2]. apply N.leb_le in H1, H2.
  assert (Hk : c = z + 0 \/ c = z + 1 \/ c = z + 2 \/ c = z + 3 \/ c = z + 4
               \/ c = z + 5 \/ c = z + 6 \/ c = z + 7 \/ c = z + 8 \/ c = z + 9) by lia.
  simpl. intuition auto.
Qed.

Lemma decimal_chars_ok : forallb decimal_ok decimal_chars = true.
Proof. vm_compute. reflexivity. Qed.

Lemma isdecimal_ok (c : char) : isdecimal c = true -> decimal_ok c = true.
Proof.
  unfold isdecimal. destruct (to_decimal c) as [d|] eqn:E; [|discriminate].
  intros _. apply decimal_in_chars in E.
  pose proof decimal_chars_ok as Hall. rewrite forallb_forall in Hall.
  apply Hall, E.
Qed.

(** The facts of [decimal_ok], one by one. *)
Lemma isdecimal_facts (c : char) :
  isdecimal c = true ->
  (0 <= decimal_value c <= 9)%Z /\
  is_ascii_digit (ascii_digit_of c) = true /\
  is_ascii_digit (ascii_view c) = true /\
  Z.of_N (ascii_view c - 48) = decimal_value c /\
  ((c <? 128) = (c <? 127)) /\
  ((c <? 127) = false -> isspace c = false) /\
  is_c_space (ascii_view c) = false /\
  (ascii_view c =? 45) = false /\ (ascii_view c =? 43) = false /\
  (ascii_view c =? 95) = false /\
  (c =? 45) = false /\ (c =? 37) = false /\ (c =? 176) = false.
Proof.
  intros Hc. apply isdecimal_ok in Hc. unfold decimal_ok in Hc.
  rewrite !andb_true_iff, !negb_true_iff in Hc.
  destruct Hc as [[[[[[[[[[_ H0] H9] Hd] Hascii] Hsp] Hm] Hp] Hu] Hpc] Hdeg].
  apply Z.leb_le in H0, H9.
  assert (Hv : Z.of_N (ascii_digit_of c - 48) = decimal_value c).
  { unfold ascii_digit_of. lia. }
  assert (Hview : ascii_view c = ascii_digit_of c).
  { unfold ascii_view. destruct (c <? 127) eqn:E127; [|reflexivity].
    apply N.ltb_lt in E127.
    assert (E128 : (c <? 128) = true) by (apply N.ltb_lt; lia).
    rewrite E128 in Hascii. apply andb_prop in Hascii as [_ Heq].
    apply N.eqb_eq in Heq. congruence. }
  assert (Hplain := ascii_digit_plain _ Hd). unfold plain in Hplain.
  rewrite !andb_true_iff, !negb_true_iff in Hplain.
  destruct Hplain as [[[[[[[[_ Hcs] _] Hus] Hmi] Hpl] _] _] _].
  rewrite Hview. repeat split; try assumption; try lia.
  - destruct (c <? 128) eqn:E128.
    + apply andb_prop in Hascii as [-> _]. reflexivity.
    + symmetry. apply N.ltb_ge. apply N.ltb_ge in E128. lia.
  - intros E127. destruct (c <? 128) eqn:E128.
    + apply andb_prop in Hascii as [E _]. congruence.
    + apply negb_true_iff in Hascii. exact Hascii.
Qed.

(** *** [int] on signed decimal numerals *)

(** A text of decimal characters and minus signs is seen by the numeral
    parsers character by character through [ascii_view]. *)
Lemma transform_signed_decimals (g : str) :
  forallb (fun c => isdecimal c || (c =? 45)) g = true ->
  transform_decimal_and_space g = map ascii_view g.
Proof.
  intros Hg. unfold transform_decimal_and_space.
  assert (Hchar : forall c, isdecimal c || (c =? 45) = true ->
            ((c <? 128) = (c <? 127)) /\
            ((c <? 127) = false -> isspace c = false /\ isdecimal c = true)).
  { intros c [Hc|Hc]%orb_prop.
    - destruct (isdecimal_facts c Hc) as (_ & _ & _ & _ & H128 & Hsp & _). auto.
    - apply N.eqb_eq in Hc as ->. split; [reflexivity | discriminate]. }
  destruct (forallb (fun c => c <? 128) g) eqn:Hascii.
  - induction g as [|c g IH]; [reflexivity|].
    cbn [forallb] in Hg, Hascii. apply andb_prop in Hg as [Hc Hg].
    apply andb_prop in Hascii as [Hlt Hascii].
    cbn [map]. rewrite <- IH by assumption.
    unfold ascii_view. destruct (Hchar c Hc) as [<- _]. rewrite Hlt. reflexivity.
  - clear Hascii. induction g as [|c g IH]; [reflexivity|].
    cbn [forallb] in Hg. apply andb_prop in Hg as [Hc Hg].
    cbn [map transform_non_ascii]. rewrite IH by assumption.
    unfold ascii_view. destruct (c <? 127) eqn:E127; [reflexivity|].
    destruct (Hchar c Hc) as [_ Hhigh]. destruct (Hhigh E127) as [-> Hdec].
    unfold isdecimal in Hdec. unfold ascii_digit_of, decimal_value.
    destruct (to_decimal c); [reflexivity | discriminate].
Qed.

Lemma ascii_view_decimals (ds : str) :
  decimals ds = true ->
  ascii_digits (map ascii_view ds) = true /\
  digit_values (map ascii_view ds) = decimal_values ds.
Proof.
  induction ds as [|c ds IH]; [split; reflexivity|].
  cbn [decimals forallb]. intros [Hc Hds]%andb_prop.
  destruct (IH Hds) as [IH1 IH2].
  destruct (isdecimal_facts c Hc) as (_ & _ & Hd & Hv & _).
  split.
  - cbn [map ascii_digits forallb]. rewrite Hd. exact IH1.
  - cbn [map digit_values decimal_values]. rewrite Hv. f_equal. exact IH2.
Qed.

Lemma scan_int_digits (prev : char) (ds : str) :
  ascii_digits ds = true -> ds <> [] ->
  scan_int prev ds = Some (digit_values ds, []).
Proof.
  intros Hds Hne. revert prev. induction ds as [|c ds IH]; [congruence|].
  intros prev. cbn [ascii_digits forallb] in Hds. apply andb_prop in Hds as [Hc Hds].
  cbn [scan_int]. rewrite Hc.
  destruct ds as [|c' ds].
  - cbn [scan_int]. pose proof (ascii_digit_plain c Hc) as Hp. unfold plain in Hp.
    rewrite !andb_true_iff, !negb_true_iff in Hp.
    destruct Hp as [[[[[[[[_ _] _] ->] _] _] _] _] _]. reflexivity.
  - rewrite IH by (assumption || discriminate). reflexivity.
Qed.

Lemma digits_value_bound (ds : list Z) (acc : Z) :
  Forall (fun d => 0 <= d <= 9)%Z ds -> (0 <= acc)%Z ->
  (0 <= fold_left (fun a d => 10 * a + d) ds acc
   < (acc + 1) * 10 ^ Z.of_nat (length ds))%Z.
Proof.
  intros Hds. revert acc. induction Hds as [|d ds Hd Hds IH]; intros acc Hacc.
  - cbn [fold_left length]. change (10 ^ Z.of_nat 0)%Z with 1%Z. lia.
  - cbn [fold_left]. specialize (IH (10 * acc + d)%Z ltac:(lia)).
    rewrite length_cons, Nat2Z.inj_succ, Z.pow_succ_r by lia.
    nia.
Qed.

Lemma decimal_values_range (ds : str) :
  decimals ds = true -> Forall (fun d => 0 <= d <= 9)%Z (decimal_values ds).
Proof.
  induction ds as [|c ds IH]; [constructor|].
  cbn [decimals forallb]. intros [Hc Hds]%andb_prop.
  cbn [decimal_values map]. constructor; [|apply IH, Hds].
  apply (isdecimal_facts c Hc).
Qed.

(** [int] accepts an optional minus sign followed by one or two decimal
    characters, and reads a number between -99 and 99. *)
Lemma int_of_short_numeral (g : str) :
  short_numeral g ->
  exists v, int_of_str g = Ok v /\ (-99 <= v <= 99)%Z /\
            (forallb isdecimal g = true -> 0 <= v)%Z.
Proof.
  intros (sign & ds & -> & Hsign & Hds & Hlen).
  assert (Hne : ds <> []) by (destruct ds; [simpl in Hlen; lia | discriminate]).
  destruct (ascii_view_decimals ds Hds) as [Hascii Hvals].
  pose proof (decimal_values_range ds Hds) as Hrange.
  pose proof (digits_value_bound _ 0%Z Hrange ltac:(lia)) as Hbound.
  fold (digits_value (decimal_values ds)) in Hbound.
  assert (Hl : length (decimal_values ds) = length ds)
    by (unfold decimal_values; apply length_map).
  rewrite Hl in Hbound.
  assert (Hv : (0 <= digits_value (decimal_values ds) <= 99)%Z).
  { destruct Hlen as [E|E]; rewrite E in Hbound; simpl in Hbound; lia. }
  assert (Hhead : exists a r, map ascii_view ds = a :: r /\ is_ascii_digit a = true).
  { destruct ds as [|c ds]; [congruence|]. cbn [map] in *.
    cbn [ascii_digits forallb] in Hascii. apply andb_prop in Hascii as [Ha _]. eauto. }
  destruct Hhead as (a & r & Ea & Ha).
  pose proof (ascii_digit_plain a Ha) as Hp. unfold plain in Hp.
  rewrite !andb_true_iff, !negb_true_iff in Hp.
  destruct Hp as [[[[[[[[_ Hcs] _] Hus] Hmi] Hpl] _] _] _].
  assert (Hlen' : (int_max_str_digits <? length (digit_values (map ascii_view ds)))%nat = false).
  { apply Nat.ltb_ge. unfold digit_values. rewrite !length_map.
    unfold int_max_str_digits. lia. }
  assert (Hpos : int_of_str ds = Ok (digits_value (decimal_values ds))).
  { unfold int_of_str. rewrite transform_signed_decimals.
    2:{ unfold decimals in Hds. rewrite forallb_forall in Hds |- *.
        intros c Hc. rewrite (Hds c Hc). reflexivity. }
    rewrite Ea. cbn [lstrip_by]. rewrite Hcs. cbn [take_sign]. rewrite Hmi, Hpl.
    cbn [starts_with].
    replace (95 =? a) with false by (symmetry; rewrite N.eqb_sym; exact Hus).
    cbn [andb]. rewrite <- Ea.
    rewrite scan_int_digits by (assumption || (rewrite Ea; discriminate)).
    destruct (digit_values (map ascii_view ds)) as [|d0 dr] eqn:Edv.
    { rewrite Ea in Edv. discriminate. }
    cbn [lstrip_by]. rewrite Hlen', Hvals. reflexivity. }
  destruct Hsign as [-> | ->].
  - exists (digits_value (decimal_values ds)). cbn [app].
    split; [exact Hpos|]. split; lia.
  - exists (- digits_value (decimal_values ds))%Z. cbn [app].
    split; [|split; [lia|]].
    + unfold int_of_str. rewrite transform_signed_decimals.
      2:{ cbn [forallb]. unfold decimals in Hds. rewrite forallb_forall in Hds.
          apply andb_true_intro. split; [reflexivity|].
          rewrite forallb_forall. intros c Hc. rewrite (Hds c Hc). reflexivity. }
      cbn [map]. change (ascii_view 45) with 45.
      cbn [lstrip_by]. change (is_c_space 45) with false.
      cbn [take_sign N.eqb Pos.eqb]. rewrite Ea. cbn [starts_with].
      replace (95 =? a) with false by (symmetry; rewrite N.eqb_sym; exact Hus).
      cbn [andb]. rewrite <- Ea.
      rewrite scan_int_digits by (assumption || (rewrite Ea; discriminate)).
      destruct (digit_values (map ascii_view ds)) as [|d0 dr] eqn:Edv.
      { rewrite Ea in Edv. discriminate. }
      cbn [lstrip_by]. rewrite Hlen', Hvals. reflexivity.
    + cbn [forallb]. change (isdecimal 45) with false. discriminate.
Qed.

(** *** What the two patterns capture *)

Lemma rep_digit_shape (s g r : str) :
  In (g, r) (rep (matches Digit) 1 2 s) ->
  s = g ++ r /\ decimals g = true /\ (length g = 1 \/ length g = 2)%nat.
Proof.
  destruct s as [|c1 s]; [intros []|].
  cbn [rep matches Nat.pred flat_map]. destruct (isdecimal c1) eqn:E1; [|intros []].
  cbn [flat_map app map]. rewrite app_nil_r.
  destruct s as [|c2 s].
  - cbn. intros [[= <- <-]|[]]. cbn. rewrite E1. auto.
  - cbn [matches]. destruct (isdecimal c2) eqn:E2.
    + cbn. intros [[= <- <-]|[[= <- <-]|[]]]; cbn; rewrite E1, ?E2; auto.
    + cbn. intros [[= <- <-]|[]]. cbn. rewrite E1. auto.
Qed.

Lemma prec_group_shape (s g r : str) :
  In (g, r) (matches (group prec_pattern) s) ->
  s = g ++ r /\ decimals g = true /\ short_numeral g.
Proof.
  intros Hin. apply rep_digit_shape in Hin as (E & Hd & Hl).
  repeat split; try assumption. exists [], g. auto.
Qed.

Lemma temp_group_shape (s g r : str) :
  In (g, r) (matches (group temp_pattern) s) -> s = g ++ r /\ short_numeral g.
Proof.
  cbn [temp_pattern group matches]. intros Hin.
  apply in_flat_map in Hin as [[m1 s1] [H1 Hin]].
  apply in_map_iff in Hin as [[m2 s2] [[= <- <-] H2]].
  apply rep_digit_shape in H2 as (E2 & Hd & Hl).
  apply in_app_iff in H1 as [H1|[[= <- <-]|[]]].
  - destruct s as [|c s]; [destruct H1|].
    destruct (45 =? c) eqn:Ec; [|destruct H1].
    apply N.eqb_eq in Ec as <-. destruct H1 as [[= <- <-]|[]].
    split; [rewrite E2; reflexivity|]. exists [45], m2. auto.
  - split; [exact E2|]. exists [], m2. auto.
Qed.

Lemma head_In {A} (l : list A) (x : A) : head l = Some x -> In x l.
Proof. destruct l; [discriminate|]. intros [= ->]. left. reflexivity. Qed.

Lemma match_at_inv (p : pattern) (s g : str) (n : nat) :
  match_at p s = Some (g, n) ->
  exists r t r', In (g, r) (matches (group p) s) /\ In (t, r') (matches (tail p) r) /\
                 n = (length g + length t)%nat.
Proof.
  unfold match_at. intros Hh. apply head_In in Hh.
  apply in_flat_map in Hh as [[g' s1] [H1 Hh]].
  apply in_map_iff in Hh as [[t r'] [[= <- <-] H2]].
  eauto 6.
Qed.

Lemma findall_from_groups (p : pattern) (s : str) (skip : nat) (g : str) :
  In g (findall_from p s skip) -> exists s' n, match_at p s' = Some (g, n).
Proof.
  revert skip. induction s as [|c s IH]; intros skip.
  - cbn [findall_from]. destruct (match_at p []) as [[g' n]|] eqn:E; [|intros []].
    intros [<-|[]]. eauto.
  - cbn [findall_from]. destruct skip as [|k]; [|apply IH].
    destruct (match_at p (c :: s)) as [[g' n]|] eqn:E; [|apply IH].
    intros [<-|Hin]; [eauto | eapply IH, Hin].
Qed.

Lemma search_group (p : pattern) (s g : str) :
  search p s = Some g -> exists s' n, match_at p s' = Some (g, n).
Proof.
  induction s as [|c s IH]; cbn [search].
  - destruct (match_at p []) as [[g' n]|] eqn:E; [|discriminate].
    intros [= <-]. eauto.
  - destruct (match_at p (c :: s)) as [[g' n]|] eqn:E; [|exact IH].
    intros [= <-]. eauto.
Qed.

Lemma findall_temp_numeral (txt g : str) :
  In g (findall temp_pattern txt) -> short_numeral g.
Proof.
  intros Hin. apply findall_from_groups in Hin as (s' & n & Hm).
  apply match_at_inv in Hm as (r & _ & _ & Hg & _).
  apply temp_group_shape in Hg as [_ Hs]. exact Hs.
Qed.

Lemma search_prec_numeral (txt g : str) :
  search prec_pattern txt = Some g -> short_numeral g /\ decimals g = true.
Proof.
  intros Hs. apply search_group in Hs as (s' & n & Hm).
  apply match_at_inv in Hm as (r & _ & _ & Hg & _).
  apply prec_group_shape in Hg as (_ & Hd & Hs). auto.
Qed.

(** *** One card *)

Lemma int_value_short_numeral (g : str) :
  short_numeral g -> exists v, int_of_str g = Ok v /\ int_value g = Some v.
Proof.
  intros Hg. destruct (int_of_short_numeral g Hg) as (v & E & _).
  exists v. unfold int_value. rewrite E. auto.
Qed.

Lemma int_at_spec (txt : str) (k : nat) :
  int_at (findall temp_pattern txt) k = Ok (findall temp_pattern txt !! k ≫= int_value).
Proof.
  unfold int_at. destruct (k + 1 <=? length (findall temp_pattern txt))%nat eqn:E.
  - apply Nat.leb_le in E.
    destruct (findall temp_pattern txt !! k) as [g|] eqn:Eg.
    + assert (Hin : In g (findall temp_pattern txt)).
      { apply list_elem_of_In. eapply list_elem_of_lookup_2, Eg. }
      apply findall_temp_numeral, int_value_short_numeral in Hin as (v & Ev & Ev').
      cbn [mbind option_bind]. rewrite Ev'.
      unfold mbind, result_bind, bind. rewrite Ev. reflexivity.
    + apply lookup_ge_None in Eg. lia.
  - apply Nat.leb_gt in E.
    rewrite (proj2 (lookup_ge_None _ _)) by lia. reflexivity.
Qed.

Lemma card_record_spec (i : Z) (txt : str) :
  card_record i txt = Ok (expected_record i txt).
Proof.
  unfold card_record, expected_record.
  rewrite !int_at_spec. cbn [mbind result_bind bind].
  unfold mbind at 1 2, result_bind, bind.
  destruct (search prec_pattern txt) as [g|] eqn:Es.
  - apply search_prec_numeral in Es as [Hg _].
    apply int_value_short_numeral in Hg as (v & Ev & Ev').
    unfold mbind at 1 2, result_bind, bind. rewrite Ev.
    cbn [mbind option_bind]. rewrite Ev'. reflexivity.
  - reflexivity.
Qed.

(** *** The whole extractor *)

Lemma enumerate_from_lookup {A} (l : list A) (i : Z) (k : nat) :
  enumerate_from i l !! k = (fun x => ((i + Z.of_nat k)%Z, x)) <$> l !! k.
Proof.
  revert i k. induction l as [|x l IH]; intros i k; [reflexivity|].
  destruct k as [|k]; cbn [enumerate_from lookup list_lookup].
  - cbn. do 2 f_equal. lia.
  - rewrite IH. destruct (l !! k); cbn; [do 2 f_equal; lia | reflexivity].
Qed.

Lemma enumerate_from_length {A} (l : list A) (i : Z) :
  length (enumerate_from i l) = length l.
Proof. revert i. induction l as [|x l IH]; intros i; cbn; [|rewrite IH]; reflexivity. Qed.

Lemma map_lookup {A B} (f : A -> B) (l : list A) (k : nat) :
  map f l !! k = f <$> l !! k.
Proof.
  revert k. induction l as [|x l IH]; intros [|k]; try reflexivity. apply IH.
Qed.

Lemma enumerate_slice_lookup {A} (n : nat) (l : list A) (k : nat) (i : Z) (x : A) :
  enumerate (slice_to n l) !! k = Some (i, x) ->
  i = Z.of_nat k /\ l !! k = Some x /\ (k < n)%nat.
Proof.
  unfold enumerate, slice_to. rewrite enumerate_from_lookup.
  intros (y & Hy & [= -> ->])%fmap_Some.
  change (firstn n l) with (take n l) in Hy.
  apply lookup_take_Some in Hy as [Hy Hlt]. auto with lia.
Qed.

Lemma enumerate_slice_length {A} (n : nat) (l : list A) :
  length (enumerate (slice_to n l)) = Nat.min n (length l).
Proof. unfold enumerate, slice_to. rewrite enumerate_from_length. apply length_firstn. Qed.

Section Extractor.
Context `{Dom}.

Lemma for_each_cards (ics : list (Z * tag)) :
  for_each (fun '(i, c) => card_record i (get_text c (lit " "))) ics =
  Ok (map (fun '(i, c) => expected_record i (get_text c (lit " "))) ics).
Proof.
  induction ics as [|[i c] ics IH]; [reflexivity|].
  cbn [for_each map]. rewrite card_record_spec, IH. reflexivity.
Qed.

Lemma parse_accu_records (html : str) :
  _parse_accu_15day html =
  Ok (map (fun '(i, c) => expected_record i (get_text c (lit " ")))
          (enumerate (slice_to 15 (chosen_cards html)))).
Proof. unfold _parse_accu_15day, records_of. apply for_each_cards. Qed.

Lemma parse_accu_lookup (html : str) (out : list ForecastDay) (k : nat) (r : ForecastDay) :
  _parse_accu_15day html = Ok out -> out !! k = Some r ->
  exists c, chosen_cards html !! k = Some c /\ (k < 15)%nat /\
            r = expected_record (Z.of_nat k) (get_text c (lit " ")).
Proof.
  rewrite parse_accu_records.
  remember (enumerate (slice_to 15 (chosen_cards html))) as ics eqn:Eics.
  intros [= <-] Hk.
  rewrite map_lookup in Hk.
  apply fmap_Some in Hk as ([i c] & Hk & ->).
  rewrite Eics in Hk.
  apply enumerate_slice_lookup in Hk as (-> & Hc & Hlt). eauto.
Qed.

Lemma parse_accu_elem (html : str) (out : list ForecastDay) (r : ForecastDay) :
  _parse_accu_15day html = Ok out -> In r out ->
  exists i txt, r = expected_record i txt.
Proof.
  intros Hout Hin. apply list_elem_of_In, list_elem_of_lookup_1 in Hin as [k Hk].
  destruct (parse_accu_lookup html out k r Hout Hk) as (c & _ & _ & ->). eauto.
Qed.

End Extractor.

(** *** Fields that are null, fields that are read *)

Lemma field_spec (o : option str) :
  (forall g, o = Some g -> short_numeral g) ->
  (o ≫= int_value = None <-> o = None) /\
  (forall v, o ≫= int_value = Some v -> exists g, o = Some g /\ int_of_str g = Ok v).
Proof.
  intros Ho. destruct o as [g|]; cbn [mbind option_bind].
  - destruct (int_value_short_numeral g (Ho g eq_refl)) as (v & Ev & Ev').
    rewrite Ev'. split; [split; discriminate|].
    intros v' [= <-]. eauto.
  - split; [split; reflexivity | discriminate].
Qed.

Lemma findall_lookup_numeral (txt : str) (k : nat) (g : str) :
  findall temp_pattern txt !! k = Some g -> short_numeral g.
Proof.
  intros Hk. apply (findall_temp_numeral txt).
  apply list_elem_of_In. eapply list_elem_of_lookup_2, Hk.
Qed.

Lemma slice_to_length {A} (n : nat) (l : list A) : (length (slice_to n l) <= n)%nat.
Proof. unfold slice_to. rewrite length_firstn. lia. Qed.

(** The fields of the record built from one card. *)
Lemma expected_record_fields (i : Z) (txt : str) :
  let r := expected_record i txt in
  day_index r = (i + 1)%Z /\
  text r = slice_to 200 txt /\ (length (text r) <= 200)%nat /\
  (high_c r = None <-> findall temp_pattern txt = []) /\
  (low_c r = None <-> (length (findall temp_pattern txt) < 2)%nat) /\
  (precip_pct r = None <-> search prec_pattern txt = None) /\
  (forall v, high_c r = Some v ->
     exists g, findall temp_pattern txt !! 0%nat = Some g /\ int_of_str g = Ok v) /\
  (forall v, low_c r = Some v ->
     exists g, findall temp_pattern txt !! 1%nat = Some g /\ int_of_str g = Ok v) /\
  (forall v, precip_pct r = Some v ->
     exists g, search prec_pattern txt = Some g /\ int_of_str g = Ok v).
Proof.
  cbn [expected_record day_index text high_c low_c precip_pct].
  destruct (field_spec (findall temp_pattern txt !! 0%nat)
              (findall_lookup_numeral txt 0)) as [H0 H0'].
  destruct (field_spec (findall temp_pattern txt !! 1%nat)
              (findall_lookup_numeral txt 1)) as [H1 H1'].
  destruct (field_spec (search prec_pattern txt)
              (fun g Hg => proj1 (search_prec_numeral txt g Hg))) as [Hp Hp'].
  repeat split; try assumption; try apply slice_to_length.
  - intros E. apply H0 in E. destruct (findall temp_pattern txt); [reflexivity|discriminate].
  - intros E. apply H0. rewrite E. reflexivity.
  - intros E. apply H1 in E. apply lookup_ge_None in E. lia.
  - intros E. apply H1. apply lookup_ge_None. lia.
  - apply Hp.
  - apply Hp.
Qed.

Section ForecastClaims.
Context `{Dom}.

(** C8. For every document the extractor returns (it never raises) at most
    fifteen records, one per chosen card in page order; the record at
    position [k] has [day_index = k + 1], so the indices start at 1 and
    increase strictly; its text is the card's text cut to at most 200
    characters; a field is null exactly when its pattern finds nothing in
    the card's text, and a field that is not null is the integer read from
    the match of its pattern, not a made-up value.  No card gives the empty
    list. *)
Theorem forecast_records_shape (html : str) :
  exists out,
    _parse_accu_15day html = Ok out /\
    length out = Nat.min 15 (length (chosen_cards html)) /\
    (length out <= 15)%nat /\
    (chosen_cards html = [] -> out = []) /\
    forall k r,
      out !! k = Some r ->
      exists c,
        chosen_cards html !! k = Some c /\
        day_index r = (Z.of_nat k + 1)%Z /\
        text r = slice_to 200 (get_text c (lit " ")) /\
        (length (text r) <= 200)%nat /\
        (high_c r = None <-> findall temp_pattern (get_text c (lit " ")) = []) /\
        (low_c r = None <->
         (length (findall temp_pattern (get_text c (lit " "))) < 2)%nat) /\
        (precip_pct r = None <-> search prec_pattern (get_text c (lit " ")) = None) /\
        (forall v, high_c r = Some v ->
           exists g, findall temp_pattern (get_text c (lit " ")) !! 0%nat = Some g /\
                     int_of_str g = Ok v) /\
        (forall v, low_c r = Some v ->
           exists g, findall temp_pattern (get_text c (lit " ")) !! 1%nat = Some g /\
                     int_of_str g = Ok v) /\
        (forall v, precip_pct r = Some v ->
           exists g, search prec_pattern (get_text c (lit " ")) = Some g /\
                     int_of_str g = Ok v).
Proof.
  pose proof (parse_accu_records html) as Hout.
  remember (enumerate (slice_to 15 (chosen_cards html))) as ics eqn:Eics.
  eexists. split; [exact Hout|].
  assert (Hlen : length (map (fun '(i, c) => expected_record i (get_text c (lit " "))) ics)
                 = Nat.min 15 (length (chosen_cards html))).
  { rewrite length_map, Eics. apply enumerate_slice_length. }
  split; [exact Hlen|]. split; [rewrite Hlen; lia|]. split.
  - intros E. rewrite E in Hlen. cbn in Hlen.
    destruct (map _ ics); [reflexivity | discriminate].
  - intros k r Hk.
    destruct (parse_accu_lookup html _ k r Hout Hk) as (c & Hc & _ & ->).
    exists c. split; [exact Hc|].
    apply (expected_record_fields (Z.of_nat k) (get_text c (lit " "))).
Qed.

(** C9. In every record the extractor produces, the high temperature is the
    first degree-sign number of the card's text, and the low temperature is
    set only when the high temperature is set too. *)
Theorem low_needs_high (html : str) (out : list ForecastDay) (k : nat) (r : ForecastDay) :
  _parse_accu_15day html = Ok out ->
  out !! k = Some r ->
  (low_c r <> None -> high_c r <> None) /\
  exists c, chosen_cards html !! k = Some c /\
            high_c r = findall temp_pattern (get_text c (lit " ")) !! 0%nat ≫= int_value.
Proof.
  intros Hout Hk.
  destruct (parse_accu_lookup html out k r Hout Hk) as (c & Hc & _ & ->).
  split; [|exists c; split; [exact Hc | reflexivity]].
  destruct (expected_record_fields (Z.of_nat k) (get_text c (lit " ")))
    as (_ & _ & _ & Hh & Hl & _).
  intros Hlow Hhigh. apply Hlow, Hl. apply Hh in Hhigh. rewrite Hhigh. cbn. lia.
Qed.

End ForecastClaims.

Lemma forecast_records_shape_witness :
  exists out,
    @_parse_accu_15day (Fixture.dom (Fixture.forecast_page 20 (lit "Cuma 7° -1° 5%"))) []
      = Ok out /\
    length out = 15%nat /\
    forall r, out !! 14%nat = Some r -> day_index r = 15%Z.
Proof.
  destruct (@forecast_records_shape
              (Fixture.dom (Fixture.forecast_page 20 (lit "Cuma 7° -1° 5%"))) [])
    as (out & Hout & Hlen & _ & _ & Hrec).
  exists out. split; [exact Hout|]. split; [exact Hlen|].
  intros r Hr. destruct (Hrec 14%nat r Hr) as (c & _ & Hday & _). exact Hday.
Defined.

Lemma low_needs_high_witness :
  high_c (expected_record 0 (lit "Cuma 7° -1° 5%")) <> None.
Proof.
  refine (proj1 (@low_needs_high
                   (Fixture.dom (Fixture.forecast_page 7 (lit "Cuma 7° -1° 5%"))) []
                   (map (fun i => expected_record i (lit "Cuma 7° -1° 5%"))
                        [0; 1; 2; 3; 4; 5; 6]%Z)
                   0%nat
                   (expected_record 0 (lit "Cuma 7° -1° 5%")) _ eq_refl) _).
  - vm_compute. reflexivity.
  - vm_compute. discriminate.
Defined.

(** *** The percent pattern on particular texts *)

Lemma prec_match_at_inv (s g : str) (n : nat) :
  match_at prec_pattern s = Some (g, n) ->
  exists c r, isdecimal c = true /\
              (s = c :: 37 :: r \/
               exists c2, isdecimal c2 = true /\ s = c :: c2 :: 37 :: r).
Proof.
  intros Hm. apply match_at_inv in Hm as (r & t & r' & Hg & Ht & _).
  apply rep_digit_shape in Hg as (-> & Hd & Hl).
  cbn [prec_pattern tail matches] in Ht.
  destruct r as [|p r]; [destruct Ht|].
  destruct (37 =? p) eqn:Ep; [|destruct Ht].
  apply N.eqb_eq in Ep as <-. clear Ht.
  destruct g as [|c [|c2 [|c3 g]]]; cbn in Hl; try lia;
    cbn [decimals forallb] in Hd; rewrite ?andb_true_iff in Hd.
  - exists c, r. split; [tauto|]. left. reflexivity.
  - exists c, r. split; [tauto|]. right. exists c2. split; [tauto|reflexivity].
Qed.

Lemma has_percent_token_tail (c : char) (s : str) :
  has_percent_token (c :: s) = false -> has_percent_token s = false.
Proof.
  cbn [has_percent_token]. destruct s as [|c' s]; [reflexivity|].
  intros [_ E]%orb_false_elim. exact E.
Qed.

(** A prefix without a percent token is passed over by [search], provided
    the text after it does not begin by supplying the percent sign. *)
Lemma search_prec_skip (pre : str) (a b : char) (rest : str) :
  has_percent_token pre = false -> a <> 37 -> b <> 37 ->
  search prec_pattern (pre ++ a :: b :: rest) = search prec_pattern (a :: b :: rest).
Proof.
  intros Hpre Ha Hb. induction pre as [|c pre IH]; [reflexivity|].
  cbn [app search].
  destruct (match_at prec_pattern (c :: pre ++ a :: b :: rest)) as [[g n]|] eqn:Em.
  - exfalso. apply prec_match_at_inv in Em as (c0 & r & Hc0 & [E | (c2 & Hc2 & E)]).
    + destruct pre as [|c' pre]; cbn [app] in E.
      * injection E as _ E _. congruence.
      * injection E as <- -> _.
        cbn [has_percent_token] in Hpre. rewrite Hc0 in Hpre. discriminate.
    + destruct pre as [|c' [|c'' pre]]; cbn [app] in E.
      * injection E as _ _ E _. congruence.
      * injection E as _ _ E _. congruence.
      * injection E as <- <- -> _.
        cbn [has_percent_token] in Hpre. rewrite Hc2 in Hpre.
        cbn [N.eqb Pos.eqb andb orb] in Hpre.
        rewrite orb_true_r in Hpre. discriminate.
  - apply IH. eapply has_percent_token_tail, Hpre.
Qed.

Lemma search_prec_100 (pre post : str) :
  has_percent_token pre = false ->
  search prec_pattern (pre ++ lit "100%" ++ post) = Some (lit "00").
Proof.
  intros Hpre. change (lit "100%" ++ post) with (49 :: 48 :: 48 :: 37 :: post).
  rewrite search_prec_skip by (assumption || discriminate).
  reflexivity.
Qed.

Lemma int_of_prec_group (txt g : str) (v : Z) :
  search prec_pattern txt = Some g -> int_of_str g = Ok v -> (0 <= v <= 99)%Z.
Proof.
  intros Hs Hv. apply search_prec_numeral in Hs as [Hg Hd].
  destruct (int_of_short_numeral g Hg) as (v' & Ev & Hr & Hpos).
  assert (v' = v) as -> by congruence.
  specialize (Hpos Hd). lia.
Qed.

Section PrecipClaims.
Context `{Dom}.

(** C10, as amended. Every precipitation the extractor produces lies
    between 0 and 99, since the pattern takes at most two digits before the
    percent sign; a card text holding ["100%"], with no digit directly
    followed by a percent sign before it, gives 0 (the match is the
    trailing ["00"]), never 100. *)
Theorem precip_two_digits :
  (forall html out k r v,
     _parse_accu_15day html = Ok out -> out !! k = Some r ->
     precip_pct r = Some v -> (0 <= v <= 99)%Z) /\
  (forall html out k r c pre post,
     _parse_accu_15day html = Ok out -> out !! k = Some r ->
     chosen_cards html !! k = Some c ->
     get_text c (lit " ") = pre ++ lit "100%" ++ post ->
     has_percent_token pre = false ->
     precip_pct r = Some 0%Z) /\
  (forall i pre post,
     has_percent_token pre = false ->
     exists r, card_record i (pre ++ lit "100%" ++ post) = Ok r /\
               precip_pct r = Some 0%Z).
Proof.
  split; [|split].
  - intros html out k r v Hout Hk Hv.
    destruct (parse_accu_lookup html out k r Hout Hk) as (c & _ & _ & ->).
    destruct (expected_record_fields (Z.of_nat k) (get_text c (lit " ")))
      as (_ & _ & _ & _ & _ & _ & _ & _ & Hp).
    destruct (Hp v Hv) as (g & Hs & Hg). eapply int_of_prec_group; eassumption.
  - intros html out k r c pre post Hout Hk Hc Htxt Hpre.
    destruct (parse_accu_lookup html out k r Hout Hk) as (c' & Hc' & _ & ->).
    assert (c' = c) as -> by congruence.
    cbn [expected_record precip_pct]. rewrite Htxt, search_prec_100 by assumption.
    reflexivity.
  - intros i pre post Hpre. rewrite card_record_spec. eexists. split; [reflexivity|].
    cbn [expected_record precip_pct]. rewrite search_prec_100 by assumption.
    reflexivity.
Qed.

(** C3, as amended. A card whose visible text is
    ["Perşembe 24° 15° %20 yağmur"] gives high 24, low 15 and no
    precipitation: the pattern wants the percent sign after the number, and
    here it stands before it.  With ["20%"] in its place the precipitation
    is 20. *)
Theorem persembe_card :
  (forall i,
     card_record i (lit "Perşembe 24° 15° %20 yağmur") =
     Ok {| day_index := i + 1; text := lit "Perşembe 24° 15° %20 yağmur";
           high_c := Some 24%Z; low_c := Some 15%Z; precip_pct := None |}) /\
  (forall i,
     card_record i (lit "Perşembe 24° 15° 20% yağmur") =
     Ok {| day_index := i + 1; text := lit "Perşembe 24° 15° 20% yağmur";
           high_c := Some 24%Z; low_c := Some 15%Z; precip_pct := Some 20%Z |}) /\
  (forall html out k r c,
     _parse_accu_15day html = Ok out -> out !! k = Some r ->
     chosen_cards html !! k = Some c ->
     get_text c (lit " ") = lit "Perşembe 24° 15° %20 yağmur" ->
     high_c r = Some 24%Z /\ low_c r = Some 15%Z /\ precip_pct r = None).
Proof.
  split; [|split].
  - intros i. rewrite card_record_spec. vm_compute. reflexivity.
  - intros i. rewrite card_record_spec. vm_compute. reflexivity.
  - intros html out k r c Hout Hk Hc Htxt.
    destruct (parse_accu_lookup html out k r Hout Hk) as (c' & Hc' & _ & ->).
    assert (c' = c) as -> by congruence.
    rewrite Htxt. split; [|split]; vm_compute; reflexivity.
Qed.

End PrecipClaims.

(** The card of the spec's example does not give a precipitation of 20. *)
Lemma persembe_counterexample :
  exists r,
    card_record 0 (lit "Perşembe 24° 15° %20 yağmur") = Ok r /\
    high_c r = Some 24%Z /\ low_c r = Some 15%Z /\
    precip_pct r = None /\ precip_pct r <> Some 20%Z.
Proof.
  eexists. split; [vm_compute; reflexivity|]. cbn. repeat split. discriminate.
Qed.

Lemma persembe_card_witness :
  high_c (expected_record 3 (lit "Perşembe 24° 15° %20 yağmur")) = Some 24%Z /\
  low_c (expected_record 3 (lit "Perşembe 24° 15° %20 yağmur")) = Some 15%Z /\
  precip_pct (expected_record 3 (lit "Perşembe 24° 15° %20 yağmur")) = None.
Proof.
  apply (proj2 (proj2 (@persembe_card
            (Fixture.dom (Fixture.forecast_page 7 (lit "Perşembe 24° 15° %20 yağmur")))))
            []
            (map (fun i => expected_record i (lit "Perşembe 24° 15° %20 yağmur"))
                 [0; 1; 2; 3; 4; 5; 6]%Z)
            3%nat
            (expected_record 3 (lit "Perşembe 24° 15° %20 yağmur"))
            (Fixture.Node (lit "Perşembe 24° 15° %20 yağmur") None));
    vm_compute; reflexivity.
Defined.

(** A text that holds ["100%"] after a one-digit percent token and no
    two-digit one: the precipitation read is 5, not 0. *)
Lemma precip_two_digits_counterexample :
  has_two_digit_percent_token (lit "5% ") = false /\
  exists r,
    card_record 0 (lit "5% " ++ lit "100%") = Ok r /\
    precip_pct r = Some 5%Z /\ precip_pct r <> Some 0%Z.
Proof.
  split; [reflexivity|].
  eexists. split; [vm_compute; reflexivity|]. cbn. split; [reflexivity|discriminate].
Qed.

Lemma precip_two_digits_witness :
  exists r, card_record 0 (lit "Yarın " ++ lit "100%" ++ lit " yağmur") = Ok r /\
            precip_pct r = Some 0%Z.
Proof.
  apply (proj2 (proj2 (@precip_two_digits (Fixture.dom Fixture.blank)))
               0%Z (lit "Yarın ") (lit " yağmur")).
  vm_compute. reflexivity.
Defined.

(** *** The fill-level pass *)


Lemma cities_distinct :
  Istanbul <> Bursa /\ Istanbul <> Izmir /\ Istanbul <> Ankara /\
  Bursa <> Izmir /\ Bursa <> Ankara /\ Izmir <> Ankara.
Proof. repeat split; vm_compute; discriminate. Qed.

Lemma levels_map_dom (ist bur izm ank : float) :
  let m : gmap (list N) float :=
    <[Ankara := ank]> (<[Izmir := izm]> (<[Bursa := bur]> (<[Istanbul := ist]> ∅))) in
  dom m = cities /\ size m = 4%nat /\
  m !! Istanbul = Some ist /\ m !! Bursa = Some bur /\
  m !! Izmir = Some izm /\ m !! Ankara = Some ank.
Proof.
  destruct cities_distinct as (H1 & H2 & H3 & H4 & H5 & H6).
  intros m. subst m. split; [|split].
  - rewrite !dom_insert_L, dom_empty_L. unfold cities. set_solver.
  - rewrite !map_size_insert_None, map_size_empty; [reflexivity|..];
      repeat (rewrite lookup_insert_ne by congruence); apply lookup_empty.
  - repeat split;
      repeat (rewrite lookup_insert_ne by congruence); apply lookup_insert_eq.
Qed.

Section Levels.
Context `{Dom} `{Browser}.

Lemma sum_row_returns (row : option tag) : exists v, _sum_row row = Ok v.
Proof.
  unfold _sum_row. destruct row as [row|]; [|eauto].
  destruct (find_parent row (lit "tr")); [|eauto].
  rewrite sum_cells_spec. eauto.
Qed.

(** What [read_levels] can do: return a map of the four cities, or raise
    what a browser call raised. *)
Lemma read_levels_outcome (d1 d2 d3 d4 : driver) :
  (exists ist bur izm ank,
     read_levels d1 d2 d3 d4 =
     Ok (<[Ankara := ank]> (<[Izmir := izm]> (<[Bursa := bur]> (<[Istanbul := ist]> ∅)))))
  \/ (exists e, read_levels d1 d2 d3 d4 = Raise e /\
        ((exists d url, get d url = Raise e) \/ (exists d, page_source d = Raise e))).
Proof.
  unfold read_levels.
  destruct (get d1 (url_of Istanbul)) as [[]|e] eqn:?; run;
    [|right; exists e; split; [reflexivity | eauto 6]].
  destruct (get d2 (url_of Bursa)) as [[]|e] eqn:?; run;
    [|right; exists e; split; [reflexivity | eauto 6]].
  destruct (get d3 (url_of Ankara)) as [[]|e] eqn:?; run;
    [|right; exists e; split; [reflexivity | eauto 6]].
  destruct (get d4 (url_of Izmir)) as [[]|e] eqn:?; run;
    [|right; exists e; split; [reflexivity | eauto 6]].
  destruct (page_source d1) as [src1|e] eqn:?; run;
    [|right; exists e; split; [reflexivity | eauto 6]].
  destruct (parse_percentage_returns (text_or_empty (find (BeautifulSoup src1) loc_ist)) zero)
    as [ist ->]; run.
  destruct (page_source d2) as [src2|e] eqn:?; run;
    [|right; exists e; split; [reflexivity | eauto 6]].
  destruct (parse_percentage_returns (text_or_empty (find (BeautifulSoup src2) loc_bur)) zero)
    as [bur ->]; run.
  destruct (page_source d4) as [src3|e] eqn:?; run;
    [|right; exists e; split; [reflexivity | eauto 6]].
  destruct (sum_row_returns (find (BeautifulSoup src3) loc_toplam)) as [t ->]; run.
  destruct (sum_row_returns (find (BeautifulSoup src3) loc_kullanilabilir)) as [k ->]; run.
  destruct (ratio_pct_returns k t) as [izm ->]; run.
  destruct (page_source d3) as [src4|e] eqn:?; run;
    [|right; exists e; split; [reflexivity | eauto 6]].
  destruct (parse_percentage_returns (text_or_empty (find (BeautifulSoup src4) loc_ank)) zero)
    as [ank ->]; run.
  left. exists ist, bur, izm, ank. reflexivity.
Qed.

End Levels.

Section Orchestrator.
Context `{Dom} `{Browser}.

Lemma quit_all_raises (ds : list driver) (e : exn) :
  quit_all ds = Raise e -> exists d, quit d = Raise e.
Proof.
  unfold quit_all. induction ds as [|d ds IH]; [discriminate|].
  cbn [for_each]. destruct (quit d) as [[]|e'] eqn:Ed.
  - run. destruct (for_each quit ds) as [us|e'] eqn:Eds; run.
    + discriminate.
    + intros [= ->]. apply IH. reflexivity.
  - run. intros [= ->]. eauto.
Qed.

(** C1. Whenever the fill-level pass returns, its map has exactly the four
    cities as keys, each with one float; it fails to return only when a
    browser call raises, never because of what a page holds; and when the
    browser answers and none of the nodes looked up is found, the map is 0.0
    for all four cities. *)
Theorem scrape_levels_complete :
  (forall m,
     scrape_levels = Ok m ->
     dom m = cities /\ size m = 4%nat /\
     (forall city, city ∈ cities -> is_Some (m !! city))) /\
  (forall e,
     scrape_levels = Raise e ->
     (exists k, Chrome k = Raise e)
     \/ (exists d url, get d url = Raise e)
     \/ (exists d, page_source d = Raise e) \/ (exists d, quit d = Raise e)) /\
  (forall d1 d2 d3 d4 s1 s2 s3 s4,
     Chrome 0 = Ok d1 -> Chrome 1 = Ok d2 -> Chrome 2 = Ok d3 -> Chrome 3 = Ok d4 ->
     (forall d url, get d url = Ok ()) -> (forall d, quit d = Ok ()) ->
     page_source d1 = Ok s1 -> page_source d2 = Ok s2 ->
     page_source d4 = Ok s3 -> page_source d3 = Ok s4 ->
     find (BeautifulSoup s1) loc_ist = None ->
     find (BeautifulSoup s2) loc_bur = None ->
     find (BeautifulSoup s3) loc_toplam = None ->
     find (BeautifulSoup s3) loc_kullanilabilir = None ->
     find (BeautifulSoup s4) loc_ank = None ->
     scrape_levels = Ok zero_levels).
Proof.
  split; [|split].
  - intros m. unfold scrape_levels.
    destruct (Chrome 0) as [d1|]; run; [|discriminate].
    destruct (Chrome 1) as [d2|]; run; [|discriminate].
    destruct (Chrome 2) as [d3|]; run; [|discriminate].
    destruct (Chrome 3) as [d4|]; run; [|discriminate].
    unfold try_finally. destruct (quit_all _); [|discriminate].
    destruct (read_levels_outcome d1 d2 d3 d4)
      as [(ist & bur & izm & ank & ->) | (e & -> & _)]; [|discriminate].
    intros [= <-].
    destruct (levels_map_dom ist bur izm ank) as (Hd & Hs & H1 & H2 & H3 & H4).
    split; [exact Hd|]. split; [exact Hs|].
    intros city Hc. apply elem_of_dom. rewrite Hd. exact Hc.
  - intros e. unfold scrape_levels.
    destruct (Chrome 0) as [d1|e1] eqn:?; run; [|intros [= ->]; eauto 6].
    destruct (Chrome 1) as [d2|e1] eqn:?; run; [|intros [= ->]; eauto 6].
    destruct (Chrome 2) as [d3|e1] eqn:?; run; [|intros [= ->]; eauto 6].
    destruct (Chrome 3) as [d4|e1] eqn:?; run; [|intros [= ->]; eauto 6].
    unfold try_finally. destruct (quit_all _) as [[]|e1] eqn:Eq.
    + destruct (read_levels_outcome d1 d2 d3 d4)
        as [(ist & bur & izm & ank & ->) | (e1 & -> & He)]; [discriminate|].
      intros [= ->]. tauto.
    + intros [= ->]. apply quit_all_raises in Eq. tauto.
  - intros d1 d2 d3 d4 s1 s2 s3 s4 C1 C2 C3 C4 Hget Hquit P1 P2 P3 P4 F1 F2 F3 F4 F5.
    unfold scrape_levels. rewrite C1, C2, C3, C4. run.
    unfold try_finally, quit_all. cbn [for_each]. rewrite !Hquit. run.
    unfold read_levels. rewrite !Hget. run.
    assert (Hmissing : parse_percentage (text_or_empty None) zero = Ok zero)
      by reflexivity.
    rewrite P1. run. rewrite F1, Hmissing. run.
    rewrite P2. run. rewrite F2, Hmissing. run.
    rewrite P3. run. rewrite F3, F4. cbn [_sum_row]. run.
    change (ratio_pct zero zero) with (Ok zero). run.
    rewrite P4. run. rewrite F5, Hmissing. run.
    reflexivity.
Qed.

End Orchestrator.

Lemma scrape_levels_complete_witness :
  @scrape_levels (Fixture.dom Fixture.blank) Fixture.browser = Ok zero_levels.
Proof.
  apply (proj2 (proj2 (@scrape_levels_complete (Fixture.dom Fixture.blank) Fixture.browser))
               0%nat 1%nat 2%nat 3%nat [] [] [] []); reflexivity.
Defined.

Lemma selector_fallback_witness :
  @pick_cards (Fixture.dom Fixture.fallback_page) Fixture.fallback_page selectors [] =
  @select (Fixture.dom Fixture.fallback_page) Fixture.fallback_page
          (lit "li.daily-forecast-card") /\
  @_parse_accu_15day (Fixture.dom Fixture.fallback_page) [] =
  @records_of (Fixture.dom Fixture.fallback_page)
              (@select (Fixture.dom Fixture.fallback_page) Fixture.fallback_page
                       (lit "li.daily-forecast-card")).
Proof.
  apply (proj2 (proj2 (@selector_fallback (Fixture.dom Fixture.fallback_page) [])));
    vm_compute; reflexivity.
Defined.

(** ** Properties of the rest of the program *)

(** *** Words and lines *)

Lemma split_from_blank (cur tr : str) :
  forallb isspace tr = true ->
  split_from cur tr = match cur with [] => [] | _ :: _ => [cur] end.
Proof.
  revert cur. induction tr as [|c tr IH]; intros cur Htr; [reflexivity|].
  cbn [forallb] in Htr. apply andb_prop in Htr as [Hc Htr].
  cbn [split_from]. rewrite Hc. destruct cur; rewrite IH by assumption; reflexivity.
Qed.

Lemma split_from_app_blank (cur s tr : str) :
  forallb isspace tr = true -> split_from cur (s ++ tr) = split_from cur s.
Proof.
  intros Htr. revert cur. induction s as [|c s IH]; intros cur.
  - cbn [app]. rewrite split_from_blank by assumption. reflexivity.
  - cbn [app split_from]. destruct (isspace c); [destruct cur|]; rewrite ?IH; reflexivity.
Qed.

Lemma split_from_word (cur w rest : str) :
  forallb (fun c => negb (isspace c)) w = true ->
  split_from cur (w ++ rest) = split_from (cur ++ w) rest.
Proof.
  revert cur. induction w as [|c w IH]; intros cur Hw.
  - cbn [app]. rewrite app_nil_r. reflexivity.
  - cbn [forallb] in Hw. apply andb_prop in Hw as [Hc Hw].
    apply negb_true_iff in Hc. cbn [app split_from]. rewrite Hc.
    rewrite IH by assumption. rewrite <- app_assoc. reflexivity.
Qed.

Lemma lstrip_by_split (sp : N -> bool) (s : str) :
  exists pre, forallb sp pre = true /\ s = pre ++ lstrip_by sp s /\
              match lstrip_by sp s with c :: _ => sp c = false | [] => True end.
Proof.
  induction s as [|c s (pre & Hpre & Es & Hhead)].
  - exists []. repeat split.
  - cbn [lstrip_by]. destruct (sp c) eqn:Ec.
    + exists (c :: pre). cbn [forallb app]. rewrite Ec, Hpre. repeat split; [|exact Hhead].
      f_equal. exact Es.
    + exists []. repeat split. exact Ec.
Qed.

Lemma split_lstrip (s : str) : split (lstrip_by isspace s) = split s.
Proof.
  unfold split. induction s as [|c s IH]; [reflexivity|].
  cbn [lstrip_by split_from]. destruct (isspace c) eqn:Ec; [exact IH|].
  cbn [split_from]. rewrite Ec. reflexivity.
Qed.

Lemma split_strip (s : str) : split (strip s) = split s.
Proof.
  unfold strip, strip_by.
  destruct (lstrip_by_split isspace (rev (lstrip_by isspace s))) as (pre & Hpre & E & _).
  apply (f_equal (@rev N)) in E. rewrite rev_involutive, rev_app_distr in E.
  transitivity (split (lstrip_by isspace s)); [|apply split_lstrip].
  unfold split. set (t := lstrip_by isspace s) in *.
  transitivity (split_from [] (rev (lstrip_by isspace (rev t)) ++ rev pre)).
  - symmetry. apply split_from_app_blank.
    rewrite forallb_forall in Hpre |- *. intros c Hc. apply Hpre, in_rev, Hc.
  - f_equal. symmetry. exact E.
Qed.

Lemma split_from_words (s cur : str) :
  cur = [] \/ is_word cur = true ->
  Forall (fun w => is_word w = true) (split_from cur s).
Proof.
  revert cur. induction s as [|c s IH]; intros cur Hcur.
  - cbn [split_from]. destruct cur as [|a cur]; [constructor|].
    destruct Hcur as [|Hw]; [discriminate|]. constructor; [exact Hw|constructor].
  - cbn [split_from]. destruct (isspace c) eqn:Ec.
    + destruct cur as [|a cur]; [apply IH; auto|].
      destruct Hcur as [|Hw]; [discriminate|].
      constructor; [exact Hw | apply IH; auto].
    + apply IH. right.
      assert (Hall : forallb (fun c => negb (isspace c)) (cur ++ [c]) = true).
      { rewrite forallb_app. cbn [forallb]. rewrite Ec. cbn [negb andb].
        rewrite andb_true_r. destruct Hcur as [->|Hw]; [reflexivity|].
        destruct cur; [discriminate | exact Hw]. }
      unfold is_word. destruct (cur ++ [c]) eqn:E; [|exact Hall].
      destruct cur; discriminate.
Qed.

Lemma split_from_nonempty (w s : str) : w <> [] -> split_from w s <> [].
Proof.
  revert w. induction s as [|d s IH]; intros w Hw; cbn [split_from].
  - destruct w; [congruence | discriminate].
  - destruct (isspace d).
    + destruct w; [congruence | discriminate].
    + apply IH. destruct w; discriminate.
Qed.

Lemma split_from_cons_ne (cur s : str) (c : N) :
  isspace c = false -> split_from cur (c :: s) <> [].
Proof.
  intros Ec. cbn [split_from]. rewrite Ec. apply split_from_nonempty.
  destruct cur; discriminate.
Qed.

Lemma join_cons (sep w : str) (ws : list str) :
  ws <> [] -> join sep (w :: ws) = w ++ sep ++ join sep ws.
Proof. destruct ws; [congruence | reflexivity]. Qed.

Lemma word_chars (w : str) :
  is_word w = true ->
  w <> [] /\ forallb (fun c => negb (isspace c)) w = true /\
  match w with c :: _ => isspace c = false | [] => False end.
Proof.
  destruct w as [|c w]; [discriminate|]. cbn [is_word]. intros Hw.
  split; [discriminate|]. split; [exact Hw|].
  cbn [forallb] in Hw. apply andb_prop in Hw as [Hc _]. apply negb_true_iff, Hc.
Qed.

Lemma single_spaced_word_app (w rest : str) :
  forallb (fun c => negb (isspace c)) w = true ->
  single_spaced (w ++ rest) = single_spaced rest.
Proof.
  induction w as [|c w IH]; [reflexivity|].
  cbn [forallb]. intros [Hc Hw]%andb_prop. apply negb_true_iff in Hc.
  cbn [app single_spaced]. rewrite Hc. apply IH, Hw.
Qed.

Lemma join_words (ws : list str) :
  Forall (fun w => is_word w = true) ws ->
  split (join (lit " ") ws) = ws /\
  single_spaced (join (lit " ") ws) = true /\
  match join (lit " ") ws with c :: _ => isspace c = false | [] => ws = [] end.
Proof.
  change (lit " ") with [32]. unfold split.
  induction 1 as [|w ws Hw Hws (IH1 & IH2 & IH3)]; [repeat split|].
  destruct (word_chars w Hw) as (Hne & Hchars & Hhead).
  destruct ws as [|w2 ws].
  - cbn [join]. split; [|split].
    + rewrite <- (app_nil_r w) at 1. rewrite split_from_word by assumption.
      cbn [app split_from]. destruct w; [congruence | reflexivity].
    + rewrite <- (app_nil_r w). rewrite single_spaced_word_app by assumption. reflexivity.
    + destruct w; [contradiction | exact Hhead].
  - rewrite join_cons by discriminate. split; [|split].
    + rewrite split_from_word by assumption. cbn [app split_from].
      change (isspace 32) with true. cbv iota.
      destruct w as [|a w]; [congruence|]. rewrite IH1. reflexivity.
    + rewrite single_spaced_word_app by assumption.
      cbn [app single_spaced]. change (isspace 32) with true. cbv iota.
      rewrite IH2. change (32 =? 32) with true.
      destruct (join [32] (w2 :: ws)) as [|c r]; [discriminate|].
      rewrite IH3. reflexivity.
    + destruct w as [|a w]; [contradiction | exact Hhead].
Qed.

Lemma join_split_from (s cur : str) :
  single_spaced s = true ->
  (cur = [] -> match s with c :: _ => isspace c = false | [] => True end) ->
  join (lit " ") (split_from cur s) = cur ++ s.
Proof.
  change (lit " ") with [32].
  revert cur. induction s as [|c s IH]; intros cur Hs Hcur.
  - cbn [split_from]. destruct cur; [reflexivity|]. cbn [join]. rewrite app_nil_r. reflexivity.
  - cbn [single_spaced] in Hs. apply andb_prop in Hs as [Hc Hs].
    cbn [split_from]. destruct (isspace c) eqn:Ec.
    + apply andb_prop in Hc as [Hc32 Hnext]. apply N.eqb_eq in Hc32 as ->.
      destruct s as [|c' s]; [discriminate|]. apply negb_true_iff in Hnext.
      destruct cur as [|a cur]; [specialize (Hcur eq_refl); congruence|].
      rewrite join_cons by (apply split_from_cons_ne; exact Hnext).
      rewrite (IH [] Hs (fun _ => Hnext)). reflexivity.
    + rewrite (IH (cur ++ [c]) Hs).
      * rewrite <- app_assoc. reflexivity.
      * intros E. destruct cur; discriminate.
Qed.

Lemma one_line_words (msg : str) :
  tidy (one_line msg) = true /\ split (one_line msg) = split msg.
Proof.
  unfold one_line. rewrite split_strip.
  pose proof (split_from_words msg [] (or_introl eq_refl)) as Hw. fold (split msg) in Hw.
  destruct (join_words (split msg) Hw) as (E1 & E2 & E3).
  split; [|exact E1]. unfold tidy. rewrite E2.
  destruct (join (lit " ") (split msg)); [reflexivity|]. rewrite E3. reflexivity.
Qed.

Lemma one_line_of_tidy (s : str) : tidy s = true -> one_line s = s.
Proof.
  unfold tidy. intros [Hhead Hs]%andb_prop.
  unfold one_line. rewrite split_strip. unfold split.
  rewrite join_split_from; [reflexivity | exact Hs |].
  intros _. destruct s; [exact I | apply negb_true_iff, Hhead].
Qed.

(** X1. The summary handed on is one line: whatever the message, it has no
    white space at either end, and every white-space character in it is a
    single U+0020 between two words; its words are those of the message,
    in order. *)
Theorem one_line_is_tidy (msg : str) :
  tidy (one_line msg) = true /\ split (one_line msg) = split msg.
Proof. apply one_line_words. Qed.

(** X2. A text that is already one tidy line is left as it is, so
    tidying twice is tidying once. *)
Theorem one_line_idempotent :
  (forall s, tidy s = true -> one_line s = s) /\
  (forall msg, one_line (one_line msg) = one_line msg).
Proof.
  split; [exact one_line_of_tidy|].
  intros msg. apply one_line_of_tidy, one_line_words.
Qed.

Lemma one_line_idempotent_witness :
  one_line (lit "İstanbul %41 Bursa %37") = lit "İstanbul %41 Bursa %37".
Proof.
  apply (proj1 one_line_idempotent). vm_compute. reflexivity.
Defined.

(** *** The summary request *)

Lemma obind_Return_l {A B} (a : A) (k : A -> outcome B) : (Return a ≫= k) = k a.
Proof. reflexivity. Qed.

Lemma obind_Throw_l {A B} (e : error) (k : A -> outcome B) : (Throw e ≫= k) = Throw e.
Proof. reflexivity. Qed.

Ltac orun := repeat (rewrite obind_Return_l || rewrite obind_Throw_l); cbv beta.

Section Summary.
Context `{Os} `{DeepSeek}.
Variables (levels : gmap (list N) float) (weather : gmap (list N) (list ForecastDay)).

(** X3. Without an API key (unset or empty) no request is made and there
    is no summary, whatever the service would have answered; and an answer
    whose status is not 200 gives no summary either, without its body being
    decoded. *)
Theorem deepseek_no_summary :
  (getenv (lit "DEEPSEEK_API_KEY") = None \/ getenv (lit "DEEPSEEK_API_KEY") = Some [] ->
   deepseek_summary_week levels weather = Return None) /\
  (forall k key resp,
     getenv (lit "DEEPSEEK_API_KEY") = Some (k :: key) ->
     (forall rq, chat_completions rq = Return resp) ->
     status_code resp <> 200%Z ->
     deepseek_summary_week levels weather = Return None).
Proof.
  unfold deepseek_summary_week. split.
  - intros [-> | ->]; reflexivity.
  - intros k key resp -> Hresp Hstatus. rewrite Hresp. orun.
    apply Z.eqb_neq in Hstatus. rewrite Hstatus. reflexivity.
Qed.

(** X4. A 200 answer whose first choice carries a non-empty text in
    [message.content] gives that text as one tidy line. *)
Theorem deepseek_summary_text (k : N) (key : list N) (resp : response)
    (members cm mm : list (list N * json)) (more : list json) (c : N) (s : list N) :
  getenv (lit "DEEPSEEK_API_KEY") = Some (k :: key) ->
  (forall rq, chat_completions rq = Return resp) ->
  status_code resp = 200%Z ->
  decoded resp = Return (JObj members) ->
  assoc (lit "choices") members = Some (JArr (JObj cm :: more)) ->
  assoc (lit "message") cm = Some (JObj mm) ->
  assoc (lit "content") mm = Some (JStr (c :: s)) ->
  deepseek_summary_week levels weather = Return (Some (one_line (c :: s))) /\
  tidy (one_line (c :: s)) = true.
Proof.
  intros Hkey Hresp Hstatus Hdata Hchoices Hmessage Hcontent.
  split; [|apply one_line_words].
  unfold deepseek_summary_week. rewrite Hkey, Hresp. orun.
  rewrite Hstatus. cbn [Z.eqb Pos.eqb negb]. rewrite Hdata. orun.
  cbn [get_method]. rewrite Hchoices. orun. cbn [first_item]. orun.
  cbn [get_method]. rewrite Hmessage. orun.
  cbn [get_method]. rewrite Hcontent. orun.
  cbn [json_truthy strip_method]. orun. reflexivity.
Qed.

(** X5. A 200 answer that lacks a part gives no summary rather than an
    error: no ["choices"] member, a first choice without ["message"], a
    message without ["content"], or a content that is null or empty. *)
Theorem deepseek_missing_parts (k : N) (key : list N) (resp : response)
    (members : list (list N * json)) :
  getenv (lit "DEEPSEEK_API_KEY") = Some (k :: key) ->
  (forall rq, chat_completions rq = Return resp) ->
  status_code resp = 200%Z ->
  decoded resp = Return (JObj members) ->
  (assoc (lit "choices") members = None ->
   deepseek_summary_week levels weather = Return None) /\
  (forall cm more,
     assoc (lit "choices") members = Some (JArr (JObj cm :: more)) ->
     (assoc (lit "message") cm = None ->
      deepseek_summary_week levels weather = Return None) /\
     (forall mm,
        assoc (lit "message") cm = Some (JObj mm) ->
        assoc (lit "content") mm = None \/ assoc (lit "content") mm = Some JNull
        \/ assoc (lit "content") mm = Some (JStr []) ->
        deepseek_summary_week levels weather = Return None)).
Proof.
  intros Hkey Hresp Hstatus Hdata.
  assert (Hstart : deepseek_summary_week levels weather =
            (choices ← get_method (JObj members) (lit "choices") (JArr [JObj []]);
             choice ← first_item choices;
             message ← get_method choice (lit "message") (JObj []);
             msg ← get_method message (lit "content") JNull;
             if json_truthy msg
             then s ← strip_method msg; Return (Some (join (lit " ") (split s)))
             else Return None)).
  { unfold deepseek_summary_week. rewrite Hkey, Hresp. orun.
    rewrite Hstatus. cbn [Z.eqb Pos.eqb negb]. rewrite Hdata. orun. reflexivity. }
  rewrite Hstart. split.
  - intros Hc. cbn [get_method]. rewrite Hc. reflexivity.
  - intros cm more Hc. cbn [get_method]. rewrite Hc. orun. cbn [first_item]. orun. split.
    + intros Hm. cbn [get_method]. rewrite Hm. reflexivity.
    + intros mm Hm Hcontent. cbn [get_method]. rewrite Hm. orun. cbn [get_method].
      destruct Hcontent as [-> | [-> | ->]]; reflexivity.
Qed.

(** X6. Other shapes of a 200 answer are not caught: an empty ["choices"]
    list raises [IndexError], a null ["choices"] raises [TypeError], a body
    that is not a JSON object or a content that is a non-zero number raises
    [AttributeError]; and what the request or the decoding raises is raised
    by the function. *)
Theorem deepseek_uncaught (k : N) (key : list N) :
  getenv (lit "DEEPSEEK_API_KEY") = Some (k :: key) ->
  (forall e, (forall rq, chat_completions rq = Throw e) ->
             deepseek_summary_week levels weather = Throw e) /\
  (forall resp,
     (forall rq, chat_completions rq = Return resp) -> status_code resp = 200%Z ->
     (forall e, decoded resp = Throw e -> deepseek_summary_week levels weather = Throw e) /\
     (forall items, decoded resp = Return (JArr items) ->
        deepseek_summary_week levels weather = Throw (Builtin AttributeError)) /\
     (forall members,
        decoded resp = Return (JObj members) ->
        (assoc (lit "choices") members = Some (JArr []) ->
         deepseek_summary_week levels weather = Throw (Builtin IndexError)) /\
        (assoc (lit "choices") members = Some JNull ->
         deepseek_summary_week levels weather = Throw TypeError) /\
        (forall cm more mm z,
           assoc (lit "choices") members = Some (JArr (JObj cm :: more)) ->
           assoc (lit "message") cm = Some (JObj mm) ->
           assoc (lit "content") mm = Some (JInt z) -> z <> 0%Z ->
           deepseek_summary_week levels weather = Throw (Builtin AttributeError)))).
Proof.
  intros Hkey. unfold deepseek_summary_week. rewrite Hkey. split.
  - intros e He. rewrite He. reflexivity.
  - intros resp Hresp Hstatus. rewrite Hresp. orun.
    rewrite Hstatus. cbn [Z.eqb Pos.eqb negb]. split; [|split].
    + intros e ->. reflexivity.
    + intros items ->. reflexivity.
    + intros members ->. orun. cbn [get_method]. split; [|split].
      * intros ->. reflexivity.
      * intros ->. reflexivity.
      * intros cm more mm z -> Hm Hc Hz. orun. cbn [first_item]. orun.
        cbn [get_method]. rewrite Hm. orun. cbn [get_method]. rewrite Hc. orun.
        cbn [json_truthy]. apply Z.eqb_neq in Hz. rewrite Hz. reflexivity.
Qed.

End Summary.


(** *** The forecast pass *)

Section Forecasts.
Context `{Dom} `{Os} `{Requests}.

Lemma parse_accu_days (html : str) :
  exists days,
    _parse_accu_15day html = Ok days /\ (length days <= 15)%nat /\
    forall k r, days !! k = Some r -> day_index r = (Z.of_nat k + 1)%Z.
Proof.
  pose proof (parse_accu_records html) as Hout.
  remember (enumerate (slice_to 15 (chosen_cards html))) as ics eqn:Eics.
  eexists. split; [exact Hout|]. split.
  - rewrite length_map, Eics, enumerate_slice_length. lia.
  - intros k r Hk.
    destruct (parse_accu_lookup html _ k r Hout Hk) as (c & _ & _ & ->). reflexivity.
Qed.

Lemma fetch_returns (city url : str) (resp : response) :
  http_get url = Return resp ->
  exists days,
    fetch_accuweather_15day city url = Return days /\ (length days <= 15)%nat /\
    (forall k r, days !! k = Some r -> day_index r = (Z.of_nat k + 1)%Z) /\
    (status_code resp <> 200%Z -> days = []).
Proof.
  intros Hget. unfold fetch_accuweather_15day. rewrite Hget. orun.
  destruct (status_code resp =? 200)%Z eqn:Es; cbn [negb].
  - destruct (parse_accu_days (body resp)) as (days & -> & Hlen & Hidx).
    exists days. repeat split; try assumption.
    apply Z.eqb_eq in Es. intros Hne. contradiction.
  - exists []. repeat split; [cbn; lia | intros k r Hk; discriminate].
Qed.

Lemma fetch_raises (city url : str) (e : error) :
  fetch_accuweather_15day city url = Throw e -> http_get url = Throw e.
Proof.
  destruct (http_get url) as [resp|e'] eqn:Hget.
  - destruct (fetch_returns city url resp Hget) as (days & -> & _). discriminate.
  - unfold fetch_accuweather_15day. rewrite Hget. orun. intros [= ->]. reflexivity.
Qed.

(** What a fetch that returned has returned. *)
Lemma fetch_returned (city url : str) (days : list ForecastDay) :
  fetch_accuweather_15day city url = Return days ->
  (length days <= 15)%nat /\
  (forall resp, http_get url = Return resp -> status_code resp <> 200%Z -> days = []).
Proof.
  intros E. destruct (http_get url) as [resp|e] eqn:Hget.
  - destruct (fetch_returns city url resp Hget) as (days' & E' & Hlen & _ & Hnon).
    assert (days' = days) as -> by congruence.
    split; [exact Hlen|]. intros resp' [= <-]. exact Hnon.
  - unfold fetch_accuweather_15day in E. rewrite Hget in E. discriminate.
Qed.

(** X7. One forecast fetch: an answer whose status is not 200 gives the
    empty list without being parsed; every answer gives a list of at most
    15 days numbered from 1; the fetch raises exactly when the GET itself
    raises, never because of what the page holds. *)
Theorem fetch_accuweather_15day_spec (city url : str) :
  (forall resp,
     http_get url = Return resp ->
     (status_code resp <> 200%Z -> fetch_accuweather_15day city url = Return []) /\
     (status_code resp = 200%Z ->
      fetch_accuweather_15day city url = lift (_parse_accu_15day (body resp))) /\
     exists days,
       fetch_accuweather_15day city url = Return days /\ (length days <= 15)%nat /\
       forall k r, days !! k = Some r -> day_index r = (Z.of_nat k + 1)%Z) /\
  (forall e, fetch_accuweather_15day city url = Throw e <-> http_get url = Throw e).
Proof.
  split.
  - intros resp Hget. split; [|split].
    + intros Hne. unfold fetch_accuweather_15day. rewrite Hget. orun.
      apply Z.eqb_neq in Hne. rewrite Hne. reflexivity.
    + intros He. unfold fetch_accuweather_15day. rewrite Hget. orun.
      rewrite He. reflexivity.
    + destruct (fetch_returns city url resp Hget) as (days & E & Hlen & Hidx & _). eauto.
  - intros e. split.
    + apply fetch_raises.
    + intros Hget. unfold fetch_accuweather_15day. rewrite Hget. reflexivity.
Qed.

(** The loop over any table of URLs whose cities are distinct. *)
Lemma fetch_each_returns (urls : list (list N * list N)) :
  forall out m,
    fetch_each urls out = Return m ->
    dom m = dom out ∪ list_to_set (map fst urls) /\
    (forall city, city ∉ map fst urls -> m !! city = out !! city) /\
    (NoDup (map fst urls) ->
     forall city url, (city, url) ∈ urls ->
       exists days, m !! city = Some days /\
                    fetch_accuweather_15day city url = Return days).
Proof.
  induction urls as [|[c u] rest IH]; intros out m E.
  - injection E as <-. split; [|split].
    + cbn [map list_to_set]. set_solver.
    + reflexivity.
    + intros _ city url Hin. inversion Hin.
  - cbn [fetch_each] in E.
    destruct (fetch_accuweather_15day c u) as [d|e] eqn:Ed; [|discriminate].
    rewrite obind_Return_l in E.
    destruct (IH _ _ E) as (Hdom & Hout & Hin). split; [|split].
    + rewrite Hdom, dom_insert_L. cbn [map fst list_to_set]. set_solver.
    + intros city Hc. cbn [map fst] in Hc. apply not_elem_of_cons in Hc as [Hne Hc].
      rewrite (Hout city Hc). apply lookup_insert_ne. congruence.
    + intros Hnd city url Hcu. cbn [map fst] in Hnd. apply NoDup_cons in Hnd as [Hc Hnd].
      apply elem_of_cons in Hcu as [[= -> ->] | Hcu].
      * exists d. split; [|exact Ed]. rewrite (Hout c Hc). apply lookup_insert_eq.
      * apply (Hin Hnd _ _ Hcu).
Qed.

Lemma fetch_each_total (urls : list (list N * list N)) :
  forall out,
    (forall city url, (city, url) ∈ urls -> exists resp, http_get url = Return resp) ->
    exists m, fetch_each urls out = Return m.
Proof.
  induction urls as [|[c u] rest IH]; intros out Hall.
  - eexists. reflexivity.
  - destruct (Hall c u) as [resp G]; [left|].
    destruct (fetch_returns c u resp G) as (d & E & _).
    cbn [fetch_each]. rewrite E, obind_Return_l. apply IH.
    intros city url Hin. apply (Hall city url). right. exact Hin.
Qed.

Lemma fetch_each_raises (urls : list (list N * list N)) :
  forall out city url e,
    (city, url) ∈ urls -> http_get url = Throw e ->
    exists city' url' e',
      (city', url') ∈ urls /\ http_get url' = Throw e' /\
      fetch_each urls out = Throw e'.
Proof.
  induction urls as [|[c u] rest IH]; intros out city url e Hin Hget.
  - inversion Hin.
  - cbn [fetch_each]. destruct (fetch_accuweather_15day c u) as [d|e1] eqn:E1.
    + rewrite obind_Return_l. apply elem_of_cons in Hin as [[= -> ->]|Hin].
      * unfold fetch_accuweather_15day in E1. rewrite Hget in E1. discriminate.
      * destruct (IH (<[c:=d]> out) city url e Hin Hget) as (c' & u' & e' & Hin' & G & E).
        exists c', u', e'. split; [right; exact Hin'|]. split; assumption.
    + exists c, u, e1. split; [left|]. split; [apply (fetch_raises c u), E1 | reflexivity].
Qed.

Lemma accu_cities : map fst _accu_url_defaults = [Istanbul; Bursa; Izmir; Ankara].
Proof. reflexivity. Qed.

Lemma accu_cities_NoDup : NoDup (map fst _accu_url_defaults).
Proof.
  rewrite accu_cities.
  destruct cities_distinct as (N1 & N2 & N3 & N4 & N5 & N6).
  repeat (apply NoDup_cons_2; [set_solver|]). apply NoDup_nil_2.
Qed.

(** X8. When the forecast pass returns, its map has exactly the four
    cities as keys; each city is bound to what its own fetch returned, a
    list of at most 15 days, and to the empty list when its answer was not
    a 200. *)
Theorem fetch_all_accuweather_complete (m : gmap (list N) (list ForecastDay)) :
  fetch_all_accuweather = Return m ->
  dom m = cities /\
  forall city url,
    In (city, url) _accu_url_defaults ->
    exists days,
      m !! city = Some days /\
      fetch_accuweather_15day city url = Return days /\
      (length days <= 15)%nat /\
      (forall resp, http_get url = Return resp -> status_code resp <> 200%Z -> days = []).
Proof.
  intros E. destruct (fetch_each_returns _ _ _ E) as (Hdom & _ & Hin). split.
  - rewrite Hdom, accu_cities, dom_empty_L. unfold cities. set_solver.
  - intros city url Hcu. apply list_elem_of_In in Hcu.
    destruct (Hin accu_cities_NoDup city url Hcu) as (days & L & F).
    exists days. split; [exact L|]. split; [exact F|]. apply (fetch_returned _ _ _ F).
Qed.

(** X9. The forecast pass returns when every GET returns, whatever the
    status codes and the pages; but a GET that raises (a timeout, a refused
    connection) is not caught: the whole pass raises what one of the GETs
    raised, and the lists of the cities already fetched are lost. *)
Theorem fetch_all_accuweather_outcome :
  ((forall city url, In (city, url) _accu_url_defaults ->
                     exists resp, http_get url = Return resp) ->
   exists m, fetch_all_accuweather = Return m) /\
  (forall city url e,
     In (city, url) _accu_url_defaults -> http_get url = Throw e ->
     exists city' url' e',
       In (city', url') _accu_url_defaults /\ http_get url' = Throw e' /\
       fetch_all_accuweather = Throw e').
Proof.
  split.
  - intros Hall. apply fetch_each_total.
    intros city url Hin. apply (Hall city url), list_elem_of_In, Hin.
  - intros city url e Hin Hget. apply list_elem_of_In in Hin.
    destruct (fetch_each_raises _ ∅ city url e Hin Hget) as (c' & u' & e' & Hin' & G & E).
    exists c', u', e'. split; [apply list_elem_of_In, Hin' | split; assumption].
Qed.

End Forecasts.

(** *** The order of the bars *)

Lemma SFcompare_antisym (x y : float) :
  SFcompare y x = option_map CompOpp (SFcompare x y).
Proof.
  destruct x as [sx|sx| |sx mx ex], y as [sy|sy| |sy my ey];
    try reflexivity; try (destruct sx; reflexivity); try (destruct sy; reflexivity);
    try (destruct sx, sy; reflexivity).
  cbn [SFcompare option_map]. f_equal.
  pose proof (Pos.compare_cont_antisym mx my Eq) as P.
  change (CompOpp Eq) with Eq in P.
  rewrite (Z.compare_antisym ex ey), <- P.
  destruct sx, sy, (ex ?= ey)%Z, (Pos.compare_cont Eq mx my); reflexivity.
Qed.

Lemma SFltb_leb (x y : float) : SFltb x y = SFleb x y && negb (SFleb y x).
Proof.
  unfold SFltb, SFleb. rewrite (SFcompare_antisym x y).
  destruct (SFcompare x y) as [[]|]; reflexivity.
Qed.

Lemma SFeqb_leb (x y : float) : SFeqb x y = SFleb x y && SFleb y x.
Proof.
  unfold SFeqb, SFleb. rewrite (SFcompare_antisym x y).
  destruct (SFcompare x y) as [[]|]; reflexivity.
Qed.

Lemma SFleb_total (x y : float) :
  isnan x = false -> isnan y = false -> SFleb x y = true \/ SFleb y x = true.
Proof.
  intros Hx Hy. unfold SFleb. rewrite (SFcompare_antisym x y).
  destruct (SFcompare x y) as [[]|] eqn:E; cbn; auto.
  destruct x, y; cbn in *; congruence.
Qed.

Lemma SFleb_trans (x y z : float) :
  SFleb x y = true -> SFleb y z = true -> SFleb x z = true.
Proof.
  unfold SFleb.
  destruct x as [sx|sx| |sx mx ex], y as [sy|sy| |sy my ey], z as [sz|sz| |sz mz ez];
    cbn [SFcompare]; try congruence;
    try (destruct sx; congruence); try (destruct sy; congruence);
    try (destruct sz; congruence);
    try (destruct sx, sy; congruence); try (destruct sx, sz; congruence);
    try (destruct sy, sz; congruence).
  all: destruct sx, sy, sz; try congruence.
  all: change (Pos.compare_cont Eq) with Pos.compare.
  all: destruct (Z.compare_spec ex ey), (Z.compare_spec ey ez), (Z.compare_spec ex ez);
    try lia; try congruence.
  all: destruct (Pos.compare_spec mx my), (Pos.compare_spec my mz), (Pos.compare_spec mx mz);
    cbn [CompOpp]; try lia; congruence.
Qed.

Section Sorting.
Context {A : Type} (key : A -> float).
Implicit Types (x y : A) (l acc : list A).

Lemma insert_desc_perm x l : insert_desc key x l ≡ₚ x :: l.
Proof.
  induction l as [|y l IH]; cbn [insert_desc]; [reflexivity|].
  destruct (SFltb _ _); [reflexivity|]. rewrite IH. apply perm_swap.
Qed.

Lemma sort_from_perm l : forall acc,
  fold_left (fun acc x => insert_desc key x acc) l acc ≡ₚ acc ++ l.
Proof.
  induction l as [|x l IH]; intros acc; cbn [fold_left].
  - rewrite app_nil_r. reflexivity.
  - rewrite IH, insert_desc_perm. apply Permutation_middle.
Qed.

Lemma sort_reverse_perm l : sort_reverse key l ≡ₚ l.
Proof. apply (sort_from_perm l []). Qed.

Lemma insert_desc_descending x acc :
  isnan (key x) = false -> Forall (fun y => isnan (key y) = false) acc ->
  descending key acc -> descending key (insert_desc key x acc).
Proof.
  intros Hx. induction acc as [|y acc IH]; intros Hacc Hd; cbn [insert_desc].
  - split; constructor.
  - destruct Hd as [Hy Hd]. apply Forall_cons_1 in Hacc as [Hny Hacc].
    destruct (SFltb (key y) (key x)) eqn:E.
    + rewrite SFltb_leb in E. apply andb_prop in E as [E _].
      split; [|split; assumption]. constructor; [exact E|].
      eapply Forall_impl; [exact Hy|]. cbn beta. intros z Hz.
      exact (SFleb_trans _ _ _ Hz E).
    + cbn [descending]. split; [|apply IH; assumption].
      eapply Permutation_Forall; [symmetry; apply insert_desc_perm|].
      constructor; [|exact Hy].
      rewrite SFltb_leb in E.
      destruct (SFleb_total (key x) (key y) Hx Hny) as [L|L]; [exact L|].
      rewrite L in E. cbn [andb] in E. apply negb_false_iff in E. exact E.
Qed.

Lemma filter_none (p : A -> bool) l :
  Forall (fun x => p x = false) l -> List.filter p l = [].
Proof.
  induction 1 as [|x l Hx _ IH]; [reflexivity|]. cbn [List.filter]. rewrite Hx. exact IH.
Qed.

Lemma below_not_equal (a b v : float) :
  SFltb a b = true -> SFeqb b v = true -> SFeqb a v = false.
Proof.
  rewrite SFltb_leb, !SFeqb_leb. intros [Lab Nba]%andb_prop [Lbv Lvb]%andb_prop.
  apply negb_true_iff in Nba.
  destruct (SFleb a v) eqn:Lav; [|reflexivity]. cbn [andb].
  destruct (SFleb v a) eqn:Lva; [|reflexivity].
  rewrite (SFleb_trans _ _ _ Lbv Lva) in Nba. discriminate.
Qed.

Lemma insert_desc_with_key (v : float) x acc :
  descending key acc ->
  with_key key v (insert_desc key x acc) = with_key key v acc ++ with_key key v [x].
Proof.
  unfold with_key. induction acc as [|y acc IH]; intros Hd; cbn [insert_desc].
  - reflexivity.
  - destruct Hd as [Hy Hd]. destruct (SFltb (key y) (key x)) eqn:E.
    + cbn [List.filter app]. destruct (SFeqb (key x) v) eqn:Ex.
      * rewrite (below_not_equal _ _ _ E Ex).
        rewrite filter_none; [reflexivity|].
        eapply Forall_impl; [exact Hy|]. cbn beta. intros z Hz.
        apply (below_not_equal _ (key x)); [|exact Ex].
        rewrite SFltb_leb in *. apply andb_prop in E as [Lyx Nxy].
        rewrite (SFleb_trans _ _ _ Hz Lyx). cbn [andb].
        destruct (SFleb (key x) (key z)) eqn:Lxz; [|reflexivity].
        rewrite (SFleb_trans _ _ _ Lxz Hz) in Nxy. discriminate.
      * rewrite app_nil_r. reflexivity.
    + cbn [List.filter]. rewrite (IH Hd).
      destruct (SFeqb (key y) v); reflexivity.
Qed.

Lemma sort_from_spec l : forall acc,
  Forall (fun y => isnan (key y) = false) acc ->
  Forall (fun y => isnan (key y) = false) l ->
  descending key acc ->
  descending key (fold_left (fun acc x => insert_desc key x acc) l acc) /\
  forall v, with_key key v (fold_left (fun acc x => insert_desc key x acc) l acc)
            = with_key key v acc ++ with_key key v l.
Proof.
  induction l as [|x l IH]; intros acc Hacc Hl Hd; cbn [fold_left].
  - split; [exact Hd|]. intros v. unfold with_key. cbn [List.filter].
    rewrite app_nil_r. reflexivity.
  - apply Forall_cons_1 in Hl as [Hx Hl].
    destruct (IH (insert_desc key x acc)) as [Hs Hk].
    + eapply Permutation_Forall; [symmetry; apply insert_desc_perm|].
      constructor; assumption.
    + exact Hl.
    + apply insert_desc_descending; assumption.
    + split; [exact Hs|]. intros v. rewrite Hk, insert_desc_with_key by exact Hd.
      rewrite <- app_assoc. f_equal.
      unfold with_key. cbn [List.filter]. destruct (SFeqb (key x) v); reflexivity.
Qed.

Lemma sort_reverse_spec l :
  Forall (fun y => isnan (key y) = false) l ->
  descending key (sort_reverse key l) /\
  forall v, with_key key v (sort_reverse key l) = with_key key v l.
Proof.
  intros Hl. destruct (sort_from_spec l [] (Forall_nil_2 _) Hl I) as [Hs Hk].
  split; [exact Hs|]. intros v. apply Hk.
Qed.

End Sorting.

Lemma combine_fst_snd {A B} (l : list (A * B)) : combine (map fst l) (map snd l) = l.
Proof. induction l as [|[a b] l IH]; [reflexivity|]. cbn. rewrite IH. reflexivity. Qed.

(** X10. When no value is NaN, the bars of the chart are the four cities,
    each once and each with its own value: sorting loses and repeats
    nothing, and the labels and the values stay paired. *)
Theorem chart_data_permutation (ist bur izm ank : float) :
  isnan ist = false -> isnan bur = false -> isnan izm = false -> isnan ank = false ->
  chart_data ist bur izm ank ≡ₚ [(Istanbul, ist); (Bursa, bur); (Izmir, izm); (Ankara, ank)] /\
  chart_cities ist bur izm ank ≡ₚ [Istanbul; Bursa; Izmir; Ankara] /\
  combine (chart_cities ist bur izm ank) (chart_values ist bur izm ank)
  = chart_data ist bur izm ank.
Proof.
  intros _ _ _ _. split; [|split].
  - apply sort_reverse_perm.
  - unfold chart_cities, chart_data. rewrite sort_reverse_perm. reflexivity.
  - apply combine_fst_snd.
Qed.

(** X11. When no value is NaN the bars go down from left to right: no bar
    is followed, anywhere to its right, by a higher one. *)
Theorem chart_descending (ist bur izm ank : float) :
  isnan ist = false -> isnan bur = false -> isnan izm = false -> isnan ank = false ->
  descending snd (chart_data ist bur izm ank) /\
  forall i j a b,
    (i < j)%nat ->
    chart_values ist bur izm ank !! i = Some a ->
    chart_values ist bur izm ank !! j = Some b ->
    SFleb b a = true.
Proof.
  intros H1 H2 H3 H4.
  assert (Hd : descending snd (chart_data ist bur izm ank)).
  { apply sort_reverse_spec. repeat constructor; assumption. }
  split; [exact Hd|].
  unfold chart_values. revert Hd. generalize (chart_data ist bur izm ank).
  intros l. induction l as [|x l IH]; intros Hd i j a b Hij Hi Hj.
  - destruct i; discriminate.
  - destruct Hd as [Hx Hd]. destruct j as [|j]; [lia|].
    change (map snd l !! j = Some b) in Hj.
    destruct i as [|i].
    + cbn in Hi. injection Hi as <-.
      rewrite map_lookup in Hj. apply fmap_Some in Hj as (y & Hy & ->).
      rewrite Forall_lookup in Hx. exact (Hx j y Hy).
    + change (map snd l !! i = Some a) in Hi.
      apply (IH Hd i j a b); [lia | assumption | assumption].
Qed.

(** X12. The sort is stable: when no value is NaN, the cities whose values
    compare equal keep the order İstanbul, Bursa, İzmir, Ankara among
    themselves; so four equal values leave the bars in that order. *)
Theorem chart_ties_keep_order (ist bur izm ank : float) :
  isnan ist = false -> isnan bur = false -> isnan izm = false -> isnan ank = false ->
  (forall v, with_key snd v (chart_data ist bur izm ank)
             = with_key snd v [(Istanbul, ist); (Bursa, bur); (Izmir, izm); (Ankara, ank)]) /\
  (SFeqb bur ist = true -> SFeqb izm ist = true -> SFeqb ank ist = true ->
   chart_cities ist bur izm ank = [Istanbul; Bursa; Izmir; Ankara]).
Proof.
  intros H1 H2 H3 H4.
  assert (Hk : forall v, with_key snd v (chart_data ist bur izm ank)
             = with_key snd v [(Istanbul, ist); (Bursa, bur); (Izmir, izm); (Ankara, ank)]).
  { apply sort_reverse_spec. repeat constructor; assumption. }
  split; [exact Hk|].
  intros E2 E3 E4.
  assert (E1 : SFeqb ist ist = true).
  { rewrite SFeqb_leb. destruct (SFleb_total ist ist H1 H1) as [-> | ->]; reflexivity. }
  specialize (Hk ist). unfold chart_cities.
  assert (Hall : with_key snd ist (chart_data ist bur izm ank) = chart_data ist bur izm ank).
  { unfold with_key. apply forallb_filter_id. apply forallb_forall.
    intros p Hp.
    apply (Permutation_in _ (sort_reverse_perm snd _)) in Hp.
    destruct Hp as [<- | [<- | [<- | [<- | []]]]]; assumption. }
  rewrite <- Hall, Hk. unfold with_key. cbn [List.filter snd].
  rewrite E1, E2, E3, E4. reflexivity.
Qed.

(** *** The post to X *)

Lemma prepared_length (text : value) : (1 <= length (prepared text) <= 270)%nat.
Proof.
  unfold prepared.
  set (t := match text with VStr s => s | VNone => [] end).
  pose proof (slice_to_length 270 (strip t)) as Hlen.
  destruct (slice_to 270 (strip t)) as [|c s].
  - vm_compute. lia.
  - cbn [length] in *. lia.
Qed.

Section Post.
Context `{Os} `{Text} `{Tweepy}.
Variables (image_path : str) (text : value).

Lemma post_enabled :
  flag (lit "X_POST_ENABLED") = true ->
  given (getenv (lit "X_API_KEY")) = true ->
  given (getenv (lit "X_API_SECRET")) = true ->
  given (getenv (lit "X_ACCESS_TOKEN")) = true ->
  given (getenv (lit "X_ACCESS_TOKEN_SECRET")) = true ->
  post_image_to_x image_path text =
  (let cl := match Client (default [] (getenv (lit "X_API_KEY")))
                          (default [] (getenv (lit "X_API_SECRET")))
                          (default [] (getenv (lit "X_ACCESS_TOKEN")))
                          (default [] (getenv (lit "X_ACCESS_TOKEN_SECRET"))) with
             | Return c => Some c
             | Throw _ => None
             end in
   if flag (lit "X_TEXT_ONLY") then
     match cl with
     | Some c => _ ← create_tweet c (prepared text); Return [CreateTweet (prepared text)]
     | None => _ ← update_status (prepared text) None;
               Return [UpdateStatus (prepared text) None]
     end
   else
     m ← media_upload image_path;
     _ ← update_status (prepared text) (Some m);
     Return [MediaUpload image_path; UpdateStatus (prepared text) (Some m)]).
Proof.
  intros He G1 G2 G3 G4. unfold post_image_to_x. cbv zeta.
  rewrite He, G1, G2, G3, G4. reflexivity.
Qed.

(** X13. Nothing is sent to X unless posting is switched on and all four
    credentials are set and not empty: otherwise the function returns
    without a single call, whatever the text, the image and the other
    settings. *)
Theorem post_needs_switch_and_credentials :
  (flag (lit "X_POST_ENABLED") = false -> post_image_to_x image_path text = Return []) /\
  (forall name,
     In name [lit "X_API_KEY"; lit "X_API_SECRET"; lit "X_ACCESS_TOKEN";
              lit "X_ACCESS_TOKEN_SECRET"] ->
     given (getenv name) = false ->
     post_image_to_x image_path text = Return []).
Proof.
  split.
  - intros He. unfold post_image_to_x. cbv zeta. rewrite He. reflexivity.
  - intros name Hin Hg. unfold post_image_to_x. cbv zeta.
    destruct (flag (lit "X_POST_ENABLED")); cbn [negb]; [|reflexivity].
    destruct Hin as [<- | [<- | [<- | [<- | []]]]]; rewrite Hg;
      rewrite ?andb_false_r, ?andb_false_l; reflexivity.
Qed.

(** X14. Whatever is posted, at most one status goes out, its text is the
    prepared text, and that text has between 1 and 270 characters: the
    calls made are none, one tweet, one status update, or a media upload of
    the image followed by one status update carrying that media. *)
Theorem post_calls (calls : list call) :
  post_image_to_x image_path text = Return calls ->
  (1 <= length (prepared text) <= 270)%nat /\
  (calls = []
   \/ calls = [CreateTweet (prepared text)]
   \/ calls = [UpdateStatus (prepared text) None]
   \/ exists m, media_upload image_path = Return m /\
                calls = [MediaUpload image_path; UpdateStatus (prepared text) (Some m)]).
Proof.
  intros E. split; [apply prepared_length|].
  unfold post_image_to_x in E. cbv zeta in E.
  destruct (negb (flag (lit "X_POST_ENABLED"))); [injection E as <-; auto|].
  destruct (negb _); [injection E as <-; auto|].
  destruct (flag (lit "X_TEXT_ONLY")).
  - destruct (Client _ _ _ _) as [c|e].
    + destruct (create_tweet c (prepared text)) as [[]|e]; [|discriminate].
      rewrite obind_Return_l in E. injection E as <-. auto.
    + destruct (update_status (prepared text) None) as [[]|e']; [|discriminate].
      rewrite obind_Return_l in E. injection E as <-. auto.
  - destruct (media_upload image_path) as [m|e]; [|discriminate].
    rewrite obind_Return_l in E.
    destruct (update_status (prepared text) (Some m)) as [[]|e]; [|discriminate].
    rewrite obind_Return_l in E. injection E as <-. right. right. right. eauto.
Qed.

(** X15. In text-only mode no image is uploaded.  The tweet goes through
    the v2 client when the client could be built, and what [create_tweet]
    raises is raised, with no second try; only when building the client
    raised does the text go out as a v1.1 status update, without media. *)
Theorem post_text_only :
  flag (lit "X_POST_ENABLED") = true ->
  flag (lit "X_TEXT_ONLY") = true ->
  given (getenv (lit "X_API_KEY")) = true ->
  given (getenv (lit "X_API_SECRET")) = true ->
  given (getenv (lit "X_ACCESS_TOKEN")) = true ->
  given (getenv (lit "X_ACCESS_TOKEN_SECRET")) = true ->
  (forall c,
     Client (default [] (getenv (lit "X_API_KEY")))
            (default [] (getenv (lit "X_API_SECRET")))
            (default [] (getenv (lit "X_ACCESS_TOKEN")))
            (default [] (getenv (lit "X_ACCESS_TOKEN_SECRET"))) = Return c ->
     (create_tweet c (prepared text) = Return () ->
      post_image_to_x image_path text = Return [CreateTweet (prepared text)]) /\
     (forall e, create_tweet c (prepared text) = Throw e ->
                post_image_to_x image_path text = Throw e)) /\
  (forall e,
     Client (default [] (getenv (lit "X_API_KEY")))
            (default [] (getenv (lit "X_API_SECRET")))
            (default [] (getenv (lit "X_ACCESS_TOKEN")))
            (default [] (getenv (lit "X_ACCESS_TOKEN_SECRET"))) = Throw e ->
     (update_status (prepared text) None = Return () ->
      post_image_to_x image_path text = Return [UpdateStatus (prepared text) None]) /\
     (forall e', update_status (prepared text) None = Throw e' ->
                 post_image_to_x image_path text = Throw e')).
Proof.
  intros He Ht G1 G2 G3 G4. rewrite (post_enabled He G1 G2 G3 G4). cbv zeta.
  rewrite Ht. split.
  - intros c ->. split; [intros -> | intros e ->]; reflexivity.
  - intros e ->. split; [intros -> | intros e' ->]; reflexivity.
Qed.

(** X16. With an image, the image is uploaded first and the status update
    carries the media the upload returned; the v2 client, built or not, is
    not used; and a failed upload means that no status is posted. *)
Theorem post_with_image :
  flag (lit "X_POST_ENABLED") = true ->
  flag (lit "X_TEXT_ONLY") = false ->
  given (getenv (lit "X_API_KEY")) = true ->
  given (getenv (lit "X_API_SECRET")) = true ->
  given (getenv (lit "X_ACCESS_TOKEN")) = true ->
  given (getenv (lit "X_ACCESS_TOKEN_SECRET")) = true ->
  (forall e, media_upload image_path = Throw e ->
             post_image_to_x image_path text = Throw e) /\
  (forall m,
     media_upload image_path = Return m ->
     (update_status (prepared text) (Some m) = Return () ->
      post_image_to_x image_path text =
      Return [MediaUpload image_path; UpdateStatus (prepared text) (Some m)]) /\
     (forall e, update_status (prepared text) (Some m) = Throw e ->
                post_image_to_x image_path text = Throw e)).
Proof.
  intros He Ht G1 G2 G3 G4. rewrite (post_enabled He G1 G2 G3 G4). cbv zeta.
  rewrite Ht. split.
  - intros e ->. reflexivity.
  - intros m ->. orun. split; [intros -> | intros e ->]; reflexivity.
Qed.

End Post.

(** X17. The prepared text: the given text without the white space at
    its ends, cut to its first 270 characters; and the fixed caption when
    no text is given or the text is blank. *)
Theorem prepared_text_bounds (text : value) :
  (1 <= length (prepared text) <= 270)%nat /\
  (forall s, text = VStr s -> strip s <> [] -> prepared text = slice_to 270 (strip s)) /\
  (forall s, text = VStr s -> (length (strip s) <= 270)%nat -> strip s <> [] ->
             prepared text = strip s) /\
  (text = VNone \/ (exists s, text = VStr s /\ forallb isspace s = true) ->
   prepared text = lit "Baraj doluluk oranları").
Proof.
  split; [apply prepared_length|]. split; [|split].
  - intros s -> Hs. unfold prepared.
    destruct (strip s) as [|c r] eqn:E; [contradiction|]. reflexivity.
  - intros s -> Hlen Hs. unfold prepared, slice_to.
    rewrite firstn_all2 by exact Hlen.
    destruct (strip s) as [|c r] eqn:E; [contradiction|]. reflexivity.
  - intros [-> | (s & -> & Hb)]; [reflexivity|].
    unfold prepared. replace (strip s) with (@nil N); [reflexivity|].
    symmetry. unfold strip, strip_by.
    assert (Hl : forall r, forallb isspace r = true -> lstrip_by isspace r = []).
    { induction r as [|c r IH]; [reflexivity|]. cbn [forallb lstrip_by].
      intros [-> Hr]%andb_prop. apply IH, Hr. }
    rewrite (Hl s Hb). reflexivity.
Qed.

(** *** From the levels to the chart *)

Section Pipeline.
Context `{Dom} `{Browser}.

(** X18. The levels that [scrape_levels] returns are what [main] needs for
    the chart: the four look-ups by city name succeed, and, when none of
    the four levels is NaN, the bars drawn from them are the entries of the
    map, each once. *)
Theorem levels_feed_chart (m : gmap (list N) float) :
  scrape_levels = Ok m ->
  exists ist bur izm ank,
    m !! Istanbul = Some ist /\ m !! Bursa = Some bur /\
    m !! Izmir = Some izm /\ m !! Ankara = Some ank /\
    (isnan ist = false -> isnan bur = false -> isnan izm = false -> isnan ank = false ->
     chart_data ist bur izm ank ≡ₚ map_to_list m).
Proof.
  unfold scrape_levels.
  destruct (Chrome 0) as [d1|]; run; [|discriminate].
  destruct (Chrome 1) as [d2|]; run; [|discriminate].
  destruct (Chrome 2) as [d3|]; run; [|discriminate].
  destruct (Chrome 3) as [d4|]; run; [|discriminate].
  unfold try_finally. destruct (quit_all _); [|discriminate].
  destruct (read_levels_outcome d1 d2 d3 d4)
    as [(ist & bur & izm & ank & ->) | (e & -> & _)]; [|discriminate].
  intros [= <-].
  destruct (levels_map_dom ist bur izm ank) as (_ & _ & L1 & L2 & L3 & L4).
  exists ist, bur, izm, ank. repeat (split; [assumption|]).
  intros _ _ _ _.
  destruct cities_distinct as (N1 & N2 & N3 & N4 & N5 & N6).
  rewrite !map_to_list_insert, map_to_list_empty
    by (repeat (rewrite lookup_insert_ne by congruence); apply lookup_empty).
  unfold chart_data. rewrite sort_reverse_perm.
  apply (Permutation_rev [(Istanbul, ist); (Bursa, bur); (Izmir, izm); (Ankara, ank)]).
Qed.

End Pipeline.

(** *** Instances of the statements *)

Lemma deepseek_summary_text_witness :
  @deepseek_summary_week Fixture2.key_env (Fixture2.summariser (Return Fixture2.note_response))
    ∅ ∅
  = Return (Some (one_line (32 :: lit "Bursa  %41 "))) /\
  tidy (one_line (32 :: lit "Bursa  %41 ")) = true.
Proof.
  apply (@deepseek_summary_text Fixture2.key_env
           (Fixture2.summariser (Return Fixture2.note_response)) ∅ ∅
           107 [] Fixture2.note_response Fixture2.note_members Fixture2.note_choice
           Fixture2.note_message [] 32 (lit "Bursa  %41 "));
    vm_compute; reflexivity.
Defined.

Lemma deepseek_missing_parts_witness :
  @deepseek_summary_week Fixture2.key_env (Fixture2.summariser (Return Fixture2.empty_response))
    ∅ ∅
  = Return None.
Proof.
  refine (proj1 (@deepseek_missing_parts Fixture2.key_env
                   (Fixture2.summariser (Return Fixture2.empty_response)) ∅ ∅
                   107 [] Fixture2.empty_response [] _ _ _ _) _);
    vm_compute; reflexivity.
Defined.

Lemma deepseek_uncaught_witness :
  @deepseek_summary_week Fixture2.key_env
    (Fixture2.summariser (Throw (LibraryError (lit "requests")))) ∅ ∅
  = Throw (LibraryError (lit "requests")).
Proof.
  refine (proj1 (@deepseek_uncaught Fixture2.key_env
                   (Fixture2.summariser (Throw (LibraryError (lit "requests")))) ∅ ∅
                   107 [] _) _ _);
    vm_compute; reflexivity.
Defined.

Lemma fetch_all_accuweather_complete_witness :
  dom Fixture2.no_forecasts = cities /\
  forall city url,
    In (city, url) (@_accu_url_defaults (Fixture2.env [])) ->
    exists days,
      Fixture2.no_forecasts !! city = Some days /\
      @fetch_accuweather_15day (Fixture.dom Fixture.blank)
        (Fixture2.server (Return Fixture2.not_found)) city url = Return days /\
      (length days <= 15)%nat /\
      (forall resp,
         @http_get (Fixture2.server (Return Fixture2.not_found)) url = Return resp ->
         status_code resp <> 200%Z -> days = []).
Proof.
  apply (@fetch_all_accuweather_complete (Fixture.dom Fixture.blank) (Fixture2.env [])
           (Fixture2.server (Return Fixture2.not_found)) Fixture2.no_forecasts).
  vm_compute. reflexivity.
Defined.

Lemma chart_data_permutation_witness :
  chart_data (float_of_Z 41) (float_of_Z 37) (float_of_Z 58) (float_of_Z 12)
  ≡ₚ [(Istanbul, float_of_Z 41); (Bursa, float_of_Z 37); (Izmir, float_of_Z 58);
      (Ankara, float_of_Z 12)].
Proof.
  apply (chart_data_permutation (float_of_Z 41) (float_of_Z 37) (float_of_Z 58)
           (float_of_Z 12));
    vm_compute; reflexivity.
Defined.

Lemma chart_descending_witness :
  descending snd (chart_data (float_of_Z 41) (float_of_Z 37) (float_of_Z 58) (float_of_Z 12)).
Proof.
  apply (chart_descending (float_of_Z 41) (float_of_Z 37) (float_of_Z 58) (float_of_Z 12));
    vm_compute; reflexivity.
Defined.

Lemma chart_ties_keep_order_witness :
  chart_cities (float_of_Z 41) (float_of_Z 41) (float_of_Z 41) (float_of_Z 41)
  = [Istanbul; Bursa; Izmir; Ankara].
Proof.
  apply (chart_ties_keep_order (float_of_Z 41) (float_of_Z 41) (float_of_Z 41) (float_of_Z 41));
    vm_compute; reflexivity.
Defined.

Lemma post_calls_witness :
  (1 <= length (prepared (VStr (lit " Bursa %41 "))) <= 270)%nat.
Proof.
  apply (@post_calls (Fixture2.posting_env (lit "false")) Fixture2.ascii_text Fixture2.account
           (lit "chart.png") (VStr (lit " Bursa %41 "))
           [@MediaUpload Fixture2.account (lit "chart.png");
            @UpdateStatus Fixture2.account (lit "Bursa %41") (Some 7%nat)]).
  vm_compute. reflexivity.
Defined.

Lemma post_text_only_witness :
  @post_image_to_x (Fixture2.posting_env (lit "YES")) Fixture2.ascii_text Fixture2.account
    (lit "chart.png") VNone
  = Return [@CreateTweet Fixture2.account (prepared VNone)].
Proof.
  refine (proj1 (proj1 (@post_text_only (Fixture2.posting_env (lit "YES")) Fixture2.ascii_text
                          Fixture2.account (lit "chart.png") VNone _ _ _ _ _ _) () _) _);
    vm_compute; reflexivity.
Defined.

Lemma post_with_image_witness :
  @post_image_to_x (Fixture2.posting_env (lit "0")) Fixture2.ascii_text Fixture2.account
    (lit "chart.png") (VStr (lit "Bursa %41"))
  = Return [@MediaUpload Fixture2.account (lit "chart.png");
            @UpdateStatus Fixture2.account (prepared (VStr (lit "Bursa %41"))) (Some 7%nat)].
Proof.
  refine (proj1 (proj2 (@post_with_image (Fixture2.posting_env (lit "0")) Fixture2.ascii_text
                          Fixture2.account (lit "chart.png") (VStr (lit "Bursa %41"))
                          _ _ _ _ _ _) 7%nat _) _);
    vm_compute; reflexivity.
Defined.

Lemma levels_feed_chart_witness :
  exists ist bur izm ank,
    zero_levels !! Istanbul = Some ist /\ zero_levels !! Bursa = Some bur /\
    zero_levels !! Izmir = Some izm /\ zero_levels !! Ankara = Some ank /\
    chart_data ist bur izm ank ≡ₚ map_to_list zero_levels.
Proof.
  destruct (@levels_feed_chart (Fixture.dom Fixture.blank) Fixture.browser zero_levels)
    as (ist & bur & izm & ank & L1 & L2 & L3 & L4 & Hp); [vm_compute; reflexivity|].
  exists ist, bur, izm, ank. repeat (split; [assumption|]).
  vm_compute in L1, L2, L3, L4.
  injection L1 as <-. injection L2 as <-. injection L3 as <-. injection L4 as <-.
  apply Hp; reflexivity.
Defined.

(** *** A thousands point in [parse_percentage] *)

Lemma pointed_text_ascii (s : str) :
  forallb (fun c => plain c || (c =? 46)) s = true ->
  transform_decimal_and_space s = s /\ existsb (N.eqb 95) s = false.
Proof.
  intros Hall. split.
  - unfold transform_decimal_and_space.
    replace (forallb (fun c => c <? 128) s) with true; [reflexivity|].
    symmetry. rewrite forallb_forall in Hall |- *. intros c Hc.
    specialize (Hall c Hc). apply orb_prop in Hall as [Hp|Hp].
    + unfold plain in Hp. rewrite !andb_true_iff in Hp.
      destruct Hp as [[[[[[[[_ _] Hlt] _] _] _] _] _] _].
      apply N.ltb_lt in Hlt. apply N.ltb_lt. lia.
    + apply N.eqb_eq in Hp as ->. reflexivity.
  - apply not_true_is_false. intros [c [Hc E]]%existsb_exists.
    apply N.eqb_eq in E as <-.
    rewrite forallb_forall in Hall. specialize (Hall _ Hc). discriminate.
Qed.

(** X20. [parse_percentage] knows no thousands separator: in a numeral
    with a thousands point and a decimal comma, such as [1.234,5], the
    comma becomes a second point, [float] rejects the text and the default
    is returned, whereas [_sum_row] removes the points first. *)
Theorem parse_percentage_thousands (d : float) (th ip fp : str) :
  ascii_digits th = true -> ascii_digits ip = true -> ascii_digits fp = true ->
  th <> [] ->
  cleaned (th ++ lit "." ++ ip ++ lit "," ++ fp) = th ++ lit "." ++ ip ++ lit "." ++ fp /\
  float_of_str (th ++ lit "." ++ ip ++ lit "." ++ fp) = Raise ValueError /\
  parse_percentage (VStr (th ++ lit "." ++ ip ++ lit "," ++ fp)) d = Ok d.
Proof.
  intros Hth Hip Hfp Hne.
  change (lit ",") with [44]. change (lit ".") with [46].
  destruct th as [|a th]; [congruence|].
  pose proof Hth as Hth'.
  cbn [ascii_digits forallb] in Hth'. apply andb_prop in Hth' as [Ha Hth'].
  assert (Hc : cleaned ((a :: th) ++ [46] ++ ip ++ [44] ++ fp)
               = (a :: th) ++ [46] ++ ip ++ [46] ++ fp).
  { unfold cleaned.
    change (lit ",") with [44]. change (lit "%") with [37].
    change (lit ".") with [46]. change (lit "") with (@nil char).
    rewrite replace_char_delete, replace_char_map.
    rewrite !List.filter_app, !List.map_app.
    rewrite (digits_cleaned (a :: th)), (digits_cleaned ip), (digits_cleaned fp)
      by assumption.
    cbn [List.filter N.eqb Pos.eqb negb map].
    replace ((a :: th) ++ [46] ++ ip ++ [46] ++ fp)
      with ((a :: th ++ 46 :: ip) ++ 46 :: fp)
      by (cbn [app]; rewrite <- app_assoc; reflexivity).
    apply strip_by_ends_kept, ends_kept_pointed;
      [apply (digit_not_space a Ha) | reflexivity
      | intros c Hd; apply (digit_not_space c Hd) | exact Hfp]. }
  assert (Hf : float_of_str ((a :: th) ++ [46] ++ ip ++ [46] ++ fp) = Raise ValueError).
  { assert (Hall : forallb (fun c => plain c || (c =? 46))
                     ((a :: th) ++ [46] ++ ip ++ [46] ++ fp) = true).
    { assert (Hd : forall ds, ascii_digits ds = true ->
                forallb (fun c => plain c || (c =? 46)) ds = true).
      { intros ds Hds. apply ascii_digits_forall; [|exact Hds].
        intros c Hd. rewrite (ascii_digit_plain c Hd). reflexivity. }
      rewrite !forallb_app, (Hd _ Hth), (Hd _ Hip), (Hd _ Hfp). reflexivity. }
    destruct (pointed_text_ascii _ Hall) as [Htr Hus].
    unfold float_of_str. rewrite Htr. unfold with_underscores. rewrite Hus.
    unfold float_from_string_inner.
    replace ((a :: th) ++ [46] ++ ip ++ [46] ++ fp)
      with ((a :: th ++ 46 :: ip) ++ 46 :: fp)
      by (cbn [app]; rewrite <- app_assoc; reflexivity).
    rewrite strip_by_ends_kept
      by (apply ends_kept_pointed;
          [apply (digit_not_space a Ha) | reflexivity
          | intros c Hd; apply (digit_not_space c Hd) | exact Hfp]).
    pose proof (ascii_digit_plain a Ha) as Hpa.
    unfold plain in Hpa. rewrite !andb_true_iff, !negb_true_iff in Hpa.
    destruct Hpa as [[[[[[[[_ _] _] _] Hminus] Hplus] _] _] _].
    unfold strtod. cbn [app take_sign]. rewrite Hminus, Hplus.
    replace (a :: (th ++ 46 :: ip) ++ 46 :: fp)
      with ((a :: th) ++ 46 :: ip ++ 46 :: fp)
      by (cbn [app]; rewrite <- app_assoc; reflexivity).
    rewrite span_digits_app; [|exact Hth|reflexivity].
    cbn [take_fraction N.eqb Pos.eqb].
    rewrite span_digits_app; [|exact Hip|reflexivity].
    cbn [digit_values map app take_exponent N.eqb Pos.eqb orb]. reflexivity. }
  split; [exact Hc|]. split; [exact Hf|].
  rewrite parse_percentage_str, Hc, Hf. reflexivity.
Qed.

Lemma parse_percentage_thousands_witness :
  parse_percentage (VStr (lit "1.234,5")) (float_of_Z 7) = Ok (float_of_Z 7).
Proof.
  apply (parse_percentage_thousands (float_of_Z 7) (lit "1") (lit "234") (lit "5"));
    vm_compute; (reflexivity || discriminate).
Defined.

(** *** Failures of the browser in the fill-level pass *)

Section Failures.
Context `{Dom} `{Browser}.

(** X19. The fill-level pass does not isolate the sources from the
    browser: with all four sessions open, what closing the first session
    raises is raised whatever was read; and when the sessions close well,
    what the reading raises is raised, so one page that cannot be loaded or
    read leaves no level for any city, also for those already read. *)
Theorem scrape_levels_failures (d1 d2 d3 d4 : driver) :
  Chrome 0 = Ok d1 -> Chrome 1 = Ok d2 -> Chrome 2 = Ok d3 -> Chrome 3 = Ok d4 ->
  (forall e, quit d1 = Raise e -> scrape_levels = Raise e) /\
  ((forall d, quit d = Ok ()) ->
   (forall e, read_levels d1 d2 d3 d4 = Raise e -> scrape_levels = Raise e) /\
   (forall e, get d1 (url_of Istanbul) = Raise e -> scrape_levels = Raise e) /\
   (forall e s1,
      (forall d url, get d url = Ok ()) ->
      page_source d1 = Ok s1 -> page_source d2 = Raise e ->
      scrape_levels = Raise e)).
Proof.
  intros C1 C2 C3 C4.
  assert (Hs : scrape_levels =
               try_finally (read_levels d1 d2 d3 d4) (quit_all [d1; d2; d3; d4])).
  { unfold scrape_levels. rewrite C1, C2, C3, C4. run. reflexivity. }
  rewrite Hs. split.
  - intros e Hq. unfold try_finally, quit_all. cbn [for_each]. rewrite Hq. reflexivity.
  - intros Hquit.
    assert (Hclean : quit_all [d1; d2; d3; d4] = Ok ()).
    { unfold quit_all. cbn [for_each]. rewrite !Hquit. reflexivity. }
    unfold try_finally. rewrite Hclean. split; [|split].
    + intros e He. exact He.
    + intros e Hg. unfold read_levels. rewrite Hg. reflexivity.
    + intros e s1 Hget P1 P2. unfold read_levels. rewrite !Hget. run.
      rewrite P1. run.
      destruct (parse_percentage_returns
                  (text_or_empty (find (BeautifulSoup s1) loc_ist)) zero) as [ist ->].
      run. rewrite P2. reflexivity.
Qed.

End Failures.

Lemma scrape_levels_failures_witness :
  @scrape_levels (Fixture.dom Fixture.blank) Fixture2.flaky_browser
  = Raise WebDriverException.
Proof.
  refine (proj2 (proj2 (proj2 (@scrape_levels_failures (Fixture.dom Fixture.blank)
                                 Fixture2.flaky_browser 0%nat 1%nat 2%nat 3%nat _ _ _ _) _))
                WebDriverException [] _ _ _);
    vm_compute; reflexivity.
Defined.
